(** * cephci: cluster topology model, remote execution and upgrade workflow

    A shallow embedding of the parts of [ceph/ceph.py] and
    [tests/cephadm/test_cephadm_upgrade.py] that the specification talks
    about, together with the properties established for them.

    Python values are modelled as the code uses them: strings as [string],
    lists as [list], integers as [Z], [None] as [option], raised exceptions
    as the [Raise] case of [result].  Remote hosts, the clock and the
    collaborators that live outside these two files are explicit inputs. *)

From Stdlib Require Import List String Ascii ZArith Lia Bool Arith DecimalString.
Import ListNotations.
Local Open Scope string_scope.
Local Open Scope list_scope.

(* ================================================================== *)
(** * Python-level preliminaries *)
(* ================================================================== *)

(** The exceptions the modelled code raises or lets through. *)
Inductive exn : Type :=
| IndexError
| KeyError (key : string)
| ValueError
| AttributeError
| TypeError
| RuntimeError (msg : string)
| AssertionError (msg : string)
| CommandFailed (msg : string)
| TimeoutException (msg : string)
| SocketTimeoutException
| UpgradeFailure (msg : string)
| ExternalError (what : string)
| InvalidReference.

(** A computation either returns a value or raises. *)
Inductive result (A : Type) : Type :=
| Ok (a : A)
| Raise (e : exn).
Arguments Ok {A} a.
Arguments Raise {A} e.

Definition bind {A B : Type} (m : result A) (k : A -> result B) : result B :=
  match m with
  | Ok a => k a
  | Raise e => Raise e
  end.

Notation "x <- m ;; k" := (bind m (fun x => k))
  (at level 61, m at next level, right associativity).

(** [needle in hay] on Python strings. *)
Fixpoint contains (needle hay : string) : bool :=
  if prefix needle hay then true
  else match hay with
       | EmptyString => false
       | String _ rest => contains needle rest
       end.

(** [x in xs] on a Python list of strings. *)
Definition str_in (x : string) (xs : list string) : bool :=
  existsb (String.eqb x) xs.

(** [xs[i]] on a Python list: negative indices count from the end,
    anything outside [-len, len) raises IndexError. *)
Definition py_index {A : Type} (xs : list A) (i : Z) : result A :=
  let n := Z.of_nat (List.length xs) in
  let j := if (i <? 0)%Z then (i + n)%Z else i in
  if ((j <? 0) || (n <=? j))%Z then Raise IndexError
  else match nth_error xs (Z.to_nat j) with
       | Some x => Ok x
       | None => Raise IndexError
       end.

(** A role argument as Python passes it around: a single string or a
    collection of strings.  A string never equals a list. *)
Inductive pyval : Type :=
| PyStr (s : string)
| PyList (l : list string).

Fixpoint list_str_eqb (a b : list string) : bool :=
  match a, b with
  | [], [] => true
  | x :: a', y :: b' => String.eqb x y && list_str_eqb a' b'
  | _, _ => false
  end.

(** [a == b] on such values. *)
Definition py_eq (a b : pyval) : bool :=
  match a, b with
  | PyStr x, PyStr y => String.eqb x y
  | PyList x, PyList y => list_str_eqb x y
  | _, _ => false
  end.

(** [str(z)] for an integer. *)
Definition string_of_Z (z : Z) : string := NilZero.string_of_int (Z.to_int z).

(** Truthiness of a Python string. *)
Definition str_truthy (s : string) : bool :=
  match s with EmptyString => false | _ => true end.

(* ================================================================== *)
(** * RolesContainer *)
(* ================================================================== *)

Module RolesContainer.

Record t : Type := { role_list : list string }.

(** [RolesContainer.__init__]: a string becomes a one-element list, an
    empty collection becomes the sentinel ["pool"]. *)
Definition __init__ (role : pyval) : t :=
  match role with
  | PyStr s => {| role_list := [s] |}
  | PyList c => {| role_list := match c with [] => ["pool"] | _ => c end |}
  end.

(** [RolesContainer.__eq__]:
    [role in self.role_list] for a string, otherwise
    [all(atomic_role in role for atomic_role in self.role_list)]. *)
Definition __eq__ (self : t) (role : pyval) : bool :=
  match role with
  | PyStr s => str_in s (role_list self)
  | PyList c => forallb (fun atomic_role => str_in atomic_role c) (role_list self)
  end.

(** [RolesContainer.__ne__]. *)
Definition __ne__ (self : t) (role : pyval) : bool := negb (__eq__ self role).

End RolesContainer.

(* ================================================================== *)
(** * Volumes and role objects *)
(* ================================================================== *)

Module NodeVolume.

Inductive status_t : Type := FREE | ALLOCATED.

Record t : Type := { status : status_t; path : option string }.

Definition is_free (v : t) : bool :=
  match status v with FREE => true | ALLOCATED => false end.

Definition is_allocated (v : t) : bool :=
  match status v with ALLOCATED => true | FREE => false end.

(** [volume.status = s]. *)
Definition set_status (s : status_t) (v : t) : t :=
  {| status := s; path := path v |}.

End NodeVolume.

(** [vols[0].status = s] where [vols] is the comprehension
    [[v for v in volume_list if p v]]: the comprehension holds the volume
    objects themselves, so the assignment changes the first element of
    [volume_list] that satisfies [p].  [None] when there is no such
    element (the indexing raises IndexError). *)
Fixpoint set_first_status (p : NodeVolume.t -> bool) (s : NodeVolume.status_t)
  (volume_list : list NodeVolume.t) : option (list NodeVolume.t) :=
  match volume_list with
  | [] => None
  | v :: rest =>
      if p v then Some (NodeVolume.set_status s v :: rest)
      else option_map (cons v) (set_first_status p s rest)
  end.

Module CephObject.

(** The classes of the role-object hierarchy. *)
Inductive class : Type :=
| Generic      (* CephObject *)
| Demon        (* CephDemon(CephObject) *)
| Osd          (* CephOsd(CephDemon) *)
| Client       (* CephClient(CephObject) *)
| Installer.   (* CephInstaller(CephObject) *)

(** A role object.  [is_active_attr] is the attribute [CephDemon.__init__]
    sets; [device] is the one [CephOsd.__init__] sets.  The back
    reference to the owning node is not part of the value. *)
Record t : Type := {
  cls : class;
  role : string;
  device : option string;
  is_active_attr : bool
}.

(** [CephObject(role, node)]. *)
Definition new (r : string) : t :=
  {| cls := Generic; role := r; device := None; is_active_attr := false |}.

(** [isinstance(o, CephDemon)]. *)
Definition is_demon (o : t) : bool :=
  match cls o with Demon | Osd => true | _ => false end.

(** [o.is_active] for a demon: the stored flag, except that [CephOsd]
    derives it from its device. *)
Definition is_active (o : t) : bool :=
  match cls o with
  | Osd => match device o with Some d => str_truthy d | None => false end
  | _ => is_active_attr o
  end.

End CephObject.

(** [CephDemon(role, node)]: active from the start. *)
Definition CephDemon (r : string) : CephObject.t :=
  {| CephObject.cls := CephObject.Demon; CephObject.role := r;
     CephObject.device := None; CephObject.is_active_attr := true |}.

(** [CephOsd(node)]: role "osd", no device yet.  The [is_active] setter
    of the class ignores the assignment made by [CephDemon.__init__]. *)
Definition CephOsd : CephObject.t :=
  {| CephObject.cls := CephObject.Osd; CephObject.role := "osd";
     CephObject.device := None; CephObject.is_active_attr := true |}.

(** [CephClient(role, node)]. *)
Definition CephClient (r : string) : CephObject.t :=
  {| CephObject.cls := CephObject.Client; CephObject.role := r;
     CephObject.device := None; CephObject.is_active_attr := false |}.

(** [CephInstaller(role, node)]. *)
Definition CephInstaller (r : string) : CephObject.t :=
  {| CephObject.cls := CephObject.Installer; CephObject.role := r;
     CephObject.device := None; CephObject.is_active_attr := false |}.

(** Role objects are compared by identity ([list.remove], no [__eq__] on
    the classes), so lists hold references into a store of objects. *)
Definition ref : Type := nat.
Definition heap : Type := list CephObject.t.

Definition deref (h : heap) (r : ref) : result CephObject.t :=
  match nth_error h r with
  | Some o => Ok o
  | None => Raise InvalidReference
  end.

(** A freshly constructed object gets a reference nothing else has. *)
Definition alloc (h : heap) (o : CephObject.t) : heap * ref :=
  (h ++ [o], List.length h).

(* ================================================================== *)
(** * Nodes *)
(* ================================================================== *)

(** The data of a [CephNode] and the methods that only read it. *)
Module Node.

(** [ceph_object_list] may hold [None]: [create_ceph_object] appends
    whatever the factory returns. *)
Record t : Type := {
  vmname : string;
  volume_list : list NodeVolume.t;
  ceph_object_list : list (option ref)
}.

Definition get_free_volumes (self : t) : list NodeVolume.t :=
  filter NodeVolume.is_free (volume_list self).

Definition get_allocated_volumes (self : t) : list NodeVolume.t :=
  filter NodeVolume.is_allocated (volume_list self).

(** [[o.role for o in self.ceph_object_list if o]]. *)
Fixpoint roles_of (h : heap) (objs : list (option ref)) : result (list string) :=
  match objs with
  | [] => Ok []
  | None :: rest => roles_of h rest
  | Some r :: rest =>
      o <- deref h r ;;
      rs <- roles_of h rest ;;
      Ok (CephObject.role o :: rs)
  end.

(** The [role] property. *)
Definition role (h : heap) (self : t) : result RolesContainer.t :=
  rs <- roles_of h (ceph_object_list self) ;;
  Ok (RolesContainer.__init__ (PyList rs)).

(** [o.role == role or not role] with [role] a string or [None]. *)
Definition role_matches (o : CephObject.t) (role : option string) : bool :=
  match role with
  | Some s => String.eqb (CephObject.role o) s || negb (str_truthy s)
  | None => true
  end.

(** The comprehension of [get_ceph_objects]; reading [.role] of a [None]
    entry raises AttributeError. *)
Fixpoint select_objects (h : heap) (objs : list (option ref)) (role : option string)
  : result (list ref) :=
  match objs with
  | [] => Ok []
  | None :: _ => Raise AttributeError
  | Some r :: rest =>
      o <- deref h r ;;
      rs <- select_objects h rest role ;;
      Ok (if role_matches o role then r :: rs else rs)
  end.

Definition get_ceph_objects (h : heap) (self : t) (role : option string)
  : result (list ref) :=
  select_objects h (ceph_object_list self) role.

(** Keeps the references whose object satisfies [p]. *)
Fixpoint filter_refs (h : heap) (p : CephObject.t -> bool) (rs : list ref)
  : result (list ref) :=
  match rs with
  | [] => Ok []
  | r :: rest =>
      o <- deref h r ;;
      rs' <- filter_refs h p rest ;;
      Ok (if p o then r :: rs' else rs')
  end.

(** [get_ceph_demons]: the demons among the objects that are active. *)
Definition get_ceph_demons (h : heap) (self : t) (role : option string)
  : result (list ref) :=
  objs <- get_ceph_objects h self role ;;
  filter_refs h (fun o => CephObject.is_demon o && CephObject.is_active o) objs.

End Node.

Module CephObjectFactory.

Definition DEMON_ROLES : list string :=
  ["mon"; "osd"; "mgr"; "rgw"; "mds"; "nfs"; "grafana"].

Definition CLIENT_ROLES : list string := ["client"].

(** [CephObjectFactory(node).create_ceph_object(role)]: the new object (or
    [None] for "pool"), the store that now holds it and the node, whose
    first free volume an OSD takes. *)
Definition create_ceph_object (h : heap) (node : Node.t) (role : string)
  : result (heap * Node.t * option ref) :=
  if String.eqb role "installer" then
    let (h', r) := alloc h (CephInstaller role) in Ok (h', node, Some r)
  else if py_eq (PyStr role) (PyList CLIENT_ROLES) then
    let (h', r) := alloc h (CephClient role) in Ok (h', node, Some r)
  else if String.eqb role "osd" then
    let free_volume_list := Node.get_free_volumes node in
    if (0 <? List.length free_volume_list)%nat then
      match set_first_status NodeVolume.is_free NodeVolume.ALLOCATED
              (Node.volume_list node) with
      | Some vols =>
          let node' := {| Node.vmname := Node.vmname node;
                          Node.volume_list := vols;
                          Node.ceph_object_list := Node.ceph_object_list node |} in
          let (h', r) := alloc h CephOsd in Ok (h', node', Some r)
      | None => Raise IndexError
      end
    else
      Raise (RuntimeError
               (Node.vmname node ++
                " does not have 'no-of-volumes' key defined in the inventory file"))
  else if str_in role DEMON_ROLES then
    let (h', r) := alloc h (CephDemon role) in Ok (h', node, Some r)
  else if negb (String.eqb role "pool") then
    let (h', r) := alloc h (CephObject.new role) in Ok (h', node, Some r)
  else Ok (h, node, None).

End CephObjectFactory.

(** [list.remove(x)] on a list of object references: drops the first
    entry that is [x]; [None] when there is none (ValueError). *)
Fixpoint list_remove (x : ref) (l : list (option ref)) : option (list (option ref)) :=
  match l with
  | [] => None
  | e :: rest =>
      if match e with Some r => Nat.eqb r x | None => false end
      then Some rest
      else option_map (cons e) (list_remove x rest)
  end.

(** The constructor and the mutating methods of [CephNode]. *)
Module CephNode.

(** The virtual machine behind a node, as far as [__init__] reads it. *)
Record VMNode : Type := { node_type : string; volumes : list string }.

(** The keyword arguments [__init__] reads for volumes and roles. *)
Record kw : Type := {
  hostname : string;
  kw_role : list string;
  no_of_volumes : Z;
  ceph_vmnode : option VMNode
}.

Definition set_objects (self : Node.t) (objs : list (option ref)) : Node.t :=
  {| Node.vmname := Node.vmname self;
     Node.volume_list := Node.volume_list self;
     Node.ceph_object_list := objs |}.

Definition set_volumes (self : Node.t) (vols : list NodeVolume.t) : Node.t :=
  {| Node.vmname := Node.vmname self;
     Node.volume_list := vols;
     Node.ceph_object_list := Node.ceph_object_list self |}.

(** [create_ceph_object]: build through the factory, then append. *)
Definition create_ceph_object (h : heap) (self : Node.t) (role : string)
  : result (heap * Node.t * option ref) :=
  match CephObjectFactory.create_ceph_object h self role with
  | Ok (h', self', ceph_object) =>
      Ok (h', set_objects self' (Node.ceph_object_list self' ++ [ceph_object]),
          ceph_object)
  | Raise e => Raise e
  end.

(** [remove_ceph_object]: the node after the call and how the call ended.
    The object leaves the list before the volume is looked for, so the
    node is returned in both cases. *)
Definition remove_ceph_object (h : heap) (self : Node.t) (ceph_object : ref)
  : Node.t * result unit :=
  match list_remove ceph_object (Node.ceph_object_list self) with
  | None => (self, Raise ValueError)
  | Some objs =>
      let self1 := set_objects self objs in
      match deref h ceph_object with
      | Raise e => (self1, Raise e)
      | Ok o =>
          if String.eqb (CephObject.role o) "osd" then
            match set_first_status NodeVolume.is_allocated NodeVolume.FREE
                    (Node.volume_list self1) with
            | Some vols => (set_volumes self1 vols, Ok tt)
            | None => (self1, Raise IndexError)
            end
          else (self1, Ok tt)
      end
  end.

(** The comprehension
    [[CephObjectFactory(self).create_ceph_object(role) for role in kw["role"] if role != "pool"]]. *)
Fixpoint create_all (h : heap) (self : Node.t) (roles : list string)
  : result (heap * Node.t * list (option ref)) :=
  match roles with
  | [] => Ok (h, self, [])
  | role :: rest =>
      if negb (String.eqb role "pool") then
        match CephObjectFactory.create_ceph_object h self role with
        | Ok (h1, self1, o) =>
            match create_all h1 self1 rest with
            | Ok (h2, self2, os) => Ok (h2, self2, o :: os)
            | Raise e => Raise e
            end
        | Raise e => Raise e
        end
      else create_all h self rest
  end.

(** The loop
    [while len(self.get_ceph_objects("osd")) > 0 and len(self.get_free_volumes()) > 0]
    of [__init__], run for at most [fuel] iterations ([None] beyond). *)
Fixpoint fill_osds (fuel : nat) (h : heap) (self : Node.t)
  : option (result (heap * Node.t)) :=
  match fuel with
  | O => None
  | S fuel' =>
      match Node.get_ceph_objects h self (Some "osd") with
      | Raise e => Some (Raise e)
      | Ok osds =>
          if (0 <? List.length osds)%nat
             && (0 <? List.length (Node.get_free_volumes self))%nat
          then
            match CephObjectFactory.create_ceph_object h self "osd" with
            | Ok (h', self', o) =>
                fill_osds fuel' h'
                  (set_objects self' (Node.ceph_object_list self' ++ [o]))
            | Raise e => Some (Raise e)
            end
          else Some (Ok (h, self))
      end
  end.

(** The volumes [__init__] starts from. *)
Definition initial_volumes (k : kw) : result (list NodeVolume.t) :=
  if (no_of_volumes k =? 0)%Z then Ok []
  else match ceph_vmnode k with
       | None => Raise AttributeError
       | Some vm =>
           if String.eqb (node_type vm) "baremetal" then
             Ok (map (fun vol => {| NodeVolume.status := NodeVolume.FREE;
                                    NodeVolume.path := Some vol |}) (volumes vm))
           else
             Ok (repeat {| NodeVolume.status := NodeVolume.FREE;
                           NodeVolume.path := None |}
                   (Z.to_nat (no_of_volumes k)))
       end.

(** [CephNode.__init__], volumes and role objects.  Every turn of the
    loop takes a free volume, so one more turn than there are volumes is
    all it can make. *)
Definition __init__ (h : heap) (k : kw) : option (result (heap * Node.t)) :=
  match initial_volumes k with
  | Raise e => Some (Raise e)
  | Ok vols =>
      let self0 := {| Node.vmname := hostname k;
                      Node.volume_list := vols;
                      Node.ceph_object_list := [] |} in
      match create_all h self0 (kw_role k) with
      | Raise e => Some (Raise e)
      | Ok (h1, self1, objs) =>
          fill_osds (S (List.length vols)) h1 (set_objects self1 objs)
      end
  end.

End CephNode.

(** The number of OSD role objects in an object list. *)
Fixpoint count_osds (h : heap) (objs : list (option ref)) : nat :=
  match objs with
  | [] => 0
  | None :: rest => count_osds h rest
  | Some r :: rest =>
      match nth_error h r with
      | Some o =>
          if String.eqb (CephObject.role o) "osd"
          then S (count_osds h rest) else count_osds h rest
      | None => count_osds h rest
      end
  end.

(** Every reference of an object list designates an object of the store. *)
Definition refs_valid (h : heap) (objs : list (option ref)) : Prop :=
  forall r, In (Some r) objs -> (r < List.length h)%nat.

(** The contribution of one object to the number of OSD objects. *)
Definition osd_weight (o : CephObject.t) : nat :=
  if String.eqb (CephObject.role o) "osd" then 1%nat else 0%nat.

(** What the volumes and the role objects of a node owe each other: the
    references are sound and there are as many allocated volumes as OSD
    role objects. *)
Definition node_inv (h : heap) (n : Node.t) : Prop :=
  refs_valid h (Node.ceph_object_list n)
  /\ List.length (Node.get_allocated_volumes n)
     = count_osds h (Node.ceph_object_list n).

(** The states of a node and of the object store over its life: built by
    [__init__], then changed by [create_ceph_object] and
    [remove_ceph_object] in any order, however the removals end. *)
Inductive reachable : heap -> Node.t -> Prop :=
| reach_init (h0 : heap) (k : CephNode.kw) (h : heap) (n : Node.t) :
    CephNode.__init__ h0 k = Some (Ok (h, n)) ->
    reachable h n
| reach_create (h : heap) (n : Node.t) (role : string)
    (h' : heap) (n' : Node.t) (o : option ref) :
    reachable h n ->
    CephNode.create_ceph_object h n role = Ok (h', n', o) ->
    reachable h' n'
| reach_remove (h : heap) (n : Node.t) (r : ref) (n' : Node.t) (res : result unit) :
    reachable h n ->
    CephNode.remove_ceph_object h n r = (n', res) ->
    reachable h n'.

(* ================================================================== *)
(** * The cluster *)
(* ================================================================== *)

Module Ceph.

(** [rhcs_version_lt_3] stands for the comparison [self.rhcs_version < "3"]
    of the version object. *)
Record t : Type := {
  name : string;
  node_list : list Node.t;
  rhcs_version_lt_3 : bool
}.

(** Truthiness of an optional role argument. *)
Definition arg_truthy (a : option pyval) : bool :=
  match a with
  | None => false
  | Some (PyStr s) => str_truthy s
  | Some (PyList l) => match l with [] => false | _ => true end
  end.

(** Keeps the nodes whose [role] property passes [test]. *)
Fixpoint filter_nodes (h : heap) (test : RolesContainer.t -> bool)
  (nodes : list Node.t) : result (list Node.t) :=
  match nodes with
  | [] => Ok []
  | node :: rest =>
      rc <- Node.role h node ;;
      ns <- filter_nodes h test rest ;;
      Ok (if test rc then node :: ns else ns)
  end.

(** [get_nodes(role, ignore)]; [role] takes precedence. *)
Definition get_nodes (h : heap) (self : t) (role ignore : option pyval)
  : result (list Node.t) :=
  if arg_truthy role then
    match role with
    | Some r => filter_nodes h (fun rc => RolesContainer.__eq__ rc r) (node_list self)
    | None => Ok (node_list self)
    end
  else if arg_truthy ignore then
    match ignore with
    | Some i => filter_nodes h (fun rc => RolesContainer.__ne__ rc i) (node_list self)
    | None => Ok (node_list self)
    end
  else Ok (node_list self).

(** The loop that extends the result with each node's own selection. *)
Fixpoint collect (f : Node.t -> result (list ref)) (nodes : list Node.t)
  : result (list ref) :=
  match nodes with
  | [] => Ok []
  | node :: rest =>
      objs <- f node ;;
      more <- collect f rest ;;
      Ok (objs ++ more)
  end.

(** [get_ceph_objects(role)]. *)
Definition get_ceph_objects (h : heap) (self : t) (role : option string)
  : result (list ref) :=
  nodes <- get_nodes h self (option_map PyStr role) None ;;
  collect (fun node => Node.get_ceph_objects h node role) nodes.

(** [get_ceph_object(role, order_id)]: only IndexError is caught. *)
Definition get_ceph_object (h : heap) (self : t) (role : string) (order_id : Z)
  : result (option ref) :=
  match get_ceph_objects h self (Some role) with
  | Raise e => Raise e
  | Ok objs =>
      match py_index objs order_id with
      | Ok o => Ok (Some o)
      | Raise IndexError => Ok None
      | Raise e => Raise e
      end
  end.

(** [get_ceph_demons(role)]. *)
Definition get_ceph_demons (h : heap) (self : t) (role : option string)
  : result (list ref) :=
  nodes <- get_nodes h self (option_map PyStr role) None ;;
  collect (fun node => Node.get_ceph_demons h node role) nodes.

(** [d.get(k)] and [d[k] = v] on the counter dictionary. *)
Fixpoint counter_get (d : list (string * Z)) (k : string) : option Z :=
  match d with
  | [] => None
  | (k', v) :: rest => if String.eqb k' k then Some v else counter_get rest k
  end.

Fixpoint counter_set (d : list (string * Z)) (k : string) (v : Z) : list (string * Z) :=
  match d with
  | [] => [(k, v)]
  | (k', v') :: rest =>
      if String.eqb k' k then (k', v) :: rest else (k', v') :: counter_set rest k v
  end.

(** The loop of the [ceph_demon_stat] property. *)
Fixpoint count_demons (h : heap) (lt3 : bool) (demons : list ref)
  (ceph_demon_counter : list (string * Z)) : result (list (string * Z)) :=
  match demons with
  | [] => Ok ceph_demon_counter
  | r :: rest =>
      demon <- deref h r ;;
      if String.eqb (CephObject.role demon) "mgr" && lt3 then
        count_demons h lt3 rest ceph_demon_counter
      else
        let increment := 1%Z in
        let n := match counter_get ceph_demon_counter (CephObject.role demon) with
                 | Some c => if (c =? 0)%Z then increment else (c + increment)%Z
                 | None => increment
                 end in
        count_demons h lt3 rest
          (counter_set ceph_demon_counter (CephObject.role demon) n)
  end.

Definition ceph_demon_stat (h : heap) (self : t) : result (list (string * Z)) :=
  demons <- get_ceph_demons h self None ;;
  count_demons h (rhcs_version_lt_3 self) demons [].

End Ceph.

(** A cluster whose object lists hold nothing but references to objects
    of the store, as [CephNode.__init__] builds them. *)
Definition node_sound (h : heap) (n : Node.t) : Prop :=
  Forall (fun e => exists r, e = Some r /\ (r < List.length h)%nat)
    (Node.ceph_object_list n).

Definition cluster_sound (h : heap) (c : Ceph.t) : Prop :=
  Forall (node_sound h) (Ceph.node_list c).

(* ================================================================== *)
(** * Reading a channel: UTF-8 decoding with replacement *)
(* ================================================================== *)

Module Utf8.

Local Open Scope N_scope.

(** Text is a list of code points; U+FFFD replaces what cannot be decoded. *)
Definition text : Type := list N.
Definition REPLACEMENT : N := 0xFFFD.

Definition is_continuation (b : N) : bool := (0x80 <=? b) && (b <=? 0xBF).

(** What the decoder finds at the head of the data. *)
Inductive step : Type :=
| Char (cp : N) (len : nat)   (* a character encoded in len bytes *)
| Invalid (len : nat)         (* an invalid start or continuation: len bytes are replaced *)
| Incomplete.                 (* the data ends inside a sequence that is valid so far *)

Definition low6 (b : N) : N := N.land b 0x3F.

(** One step of the decoder of the interpreter (the UTF-8 codec of the
    standard library) on non-empty data. *)
Definition decode_step (b0 : N) (rest : list N) : step :=
  if b0 <? 0x80 then Char b0 1
  else if b0 <? 0xC2 then Invalid 1
  else if b0 <? 0xE0 then
    match rest with
    | [] => Incomplete
    | b1 :: _ =>
        if is_continuation b1
        then Char (N.lor (N.shiftl (N.land b0 0x1F) 6) (low6 b1)) 2
        else Invalid 1
    end
  else if b0 <? 0xF0 then
    match rest with
    | [] => Incomplete
    | b1 :: rest1 =>
        if negb (is_continuation b1)
           || (if b1 <? 0xA0 then b0 =? 0xE0 else b0 =? 0xED)
        then Invalid 1
        else match rest1 with
             | [] => Incomplete
             | b2 :: _ =>
                 if is_continuation b2
                 then Char (N.lor (N.shiftl (N.land b0 0x0F) 12)
                              (N.lor (N.shiftl (low6 b1) 6) (low6 b2))) 3
                 else Invalid 2
             end
    end
  else if b0 <? 0xF5 then
    match rest with
    | [] => Incomplete
    | b1 :: rest1 =>
        if negb (is_continuation b1)
           || (if b1 <? 0x90 then b0 =? 0xF0 else b0 =? 0xF4)
        then Invalid 1
        else match rest1 with
             | [] => Incomplete
             | b2 :: rest2 =>
                 if negb (is_continuation b2) then Invalid 2
                 else match rest2 with
                      | [] => Incomplete
                      | b3 :: _ =>
                          if is_continuation b3
                          then Char (N.lor (N.shiftl (N.land b0 0x07) 18)
                                       (N.lor (N.shiftl (low6 b1) 12)
                                          (N.lor (N.shiftl (low6 b2) 6) (low6 b3)))) 4
                          else Invalid 3
                      end
             end
    end
  else Invalid 1.

(** A lone first half of a surrogate encoding at the very end of the
    data is left for the next call when decoding is not final. *)
Definition truncated_surrogate (data : list N) : bool :=
  match data with
  | [b0; b1] => (b0 =? 0xED) && (0xA0 <=? b1) && (b1 <=? 0xBF)
  | _ => false
  end.

(** The decoding loop with [errors="replace"]: the text and the number of
    bytes consumed.  Each turn consumes at least one byte, so [fuel] equal
    to the length of the data is never used up. *)
Fixpoint decode_loop (fuel : nat) (data : list N) (final : bool) : text * nat :=
  match fuel, data with
  | O, _ => ([], O)
  | _, [] => ([], O)
  | S fuel', b0 :: rest =>
      match decode_step b0 rest with
      | Char cp len =>
          let (s, n) := decode_loop fuel' (skipn len data) final in
          (cp :: s, (len + n)%nat)
      | Invalid len =>
          if negb final && truncated_surrogate data then ([], O)
          else
            let (s, n) := decode_loop fuel' (skipn len data) final in
            (REPLACEMENT :: s, (len + n)%nat)
      | Incomplete =>
          if final then ([REPLACEMENT], List.length data) else ([], O)
      end
  end.

(** [codecs.utf_8_decode(data, "replace", final)]. *)
Definition utf_8_decode (data : list Byte.byte) (final : bool) : text * nat :=
  let d := map Byte.to_N data in
  decode_loop (List.length d) d final.

(** [data.decode("utf-8", errors="replace")]. *)
Definition decode_replace (data : list Byte.byte) : text :=
  fst (utf_8_decode data true).

(** The incremental decoder [codecs.getincrementaldecoder("utf-8")(errors="replace")]:
    its state is the undecoded tail of what it was fed. *)
Record IncrementalDecoder : Type := { buffer : list Byte.byte }.

Definition new_decoder : IncrementalDecoder := {| buffer := [] |}.

(** [decoder.decode(input, final)]: the buffered bytes come first. *)
Definition decode (self : IncrementalDecoder) (input : list Byte.byte) (final : bool)
  : text * IncrementalDecoder :=
  let data := (buffer self ++ input)%list in
  let (res, consumed) := utf_8_decode data final in
  (res, {| buffer := skipn consumed data |}).

End Utf8.

(** [data.splitlines()] on bytes: lines end at "\n", "\r" or "\r\n", the
    line ends are dropped and a final line end opens no further line.
    [cur] is the current line, most recent byte first. *)
Fixpoint splitlines_from (cur : list Byte.byte) (data : list Byte.byte)
  : list (list Byte.byte) :=
  match data with
  | [] => match cur with [] => [] | _ => [rev cur] end
  | b :: rest =>
      if Byte.eqb b Byte.x0a then rev cur :: splitlines_from [] rest
      else if Byte.eqb b Byte.x0d then
        match rest with
        | b' :: rest' =>
            if Byte.eqb b' Byte.x0a then rev cur :: splitlines_from [] rest'
            else rev cur :: splitlines_from [] rest
        | [] => rev cur :: splitlines_from [] rest
        end
      else splitlines_from (b :: cur) rest
  end.

Definition splitlines (data : list Byte.byte) : list (list Byte.byte) :=
  splitlines_from [] data.

(** A byte of the ASCII range. *)
Definition is_ascii (b : Byte.byte) : Prop := (Byte.to_N b < 0x80)%N.

Module Stream.

(** What [read_stream] sees of the world: the chunks the stream will
    deliver to successive [recv] calls (an empty chunk, or none left,
    reads as end of stream) and the clock reading at each timeout check. *)
Record channel : Type := {
  chunks : list (list Byte.byte);
  now : nat -> Z
}.

(** [check_timeout(end_time, timeout)] at the clock reading [t]. *)
Definition check_timeout (t end_time : Z) (timeout : bool) : result unit :=
  if timeout && (end_time <=? t)%Z
  then Raise (TimeoutException "Command exceed the allocated execution time.")
  else Ok tt.

(** The logging loop over the lines of a chunk: every line goes through
    the decoder, which keeps what it could not decode yet. *)
Fixpoint log_lines (dec : Utf8.IncrementalDecoder) (lines : list (list Byte.byte))
  : Utf8.IncrementalDecoder * list Utf8.text :=
  match lines with
  | [] => (dec, [])
  | ln :: rest =>
      let (msg, dec') := Utf8.decode dec ln false in
      let (dec'', msgs) := log_lines dec' rest in
      (dec'', msg :: msgs)
  end.

(** The [while _data:] loop; [k] counts the timeout checks made so far.
    Returns the bytes gathered, the decoder and the lines logged. *)
Fixpoint read_loop (cs : list (list Byte.byte)) (clock : nat -> Z) (k : nat)
  (end_time : Z) (timeout log : bool)
  (_output : list Byte.byte) (_decoder : Utf8.IncrementalDecoder)
  (logged : list Utf8.text)
  : result (list Byte.byte * Utf8.IncrementalDecoder * list Utf8.text) :=
  match cs with
  | [] => Ok (_output, _decoder, logged)
  | [] :: _ => Ok (_output, _decoder, logged)
  | _data :: rest =>
      let _output' := (_output ++ _data)%list in
      let (_decoder', msgs) :=
        if log then log_lines _decoder (splitlines _data) else (_decoder, []) in
      match check_timeout (clock k) end_time timeout with
      | Raise e => Raise e
      | Ok _ =>
          read_loop rest clock (S k) end_time timeout log
            _output' _decoder' (logged ++ msgs)%list
      end
  end.

(** [read_stream(channel, end_time, timeout, stderr, log)] for the stream
    selected by [stderr]: the returned string and the lines logged.  The
    decoder was built with [errors="replace"], so the final decode cannot
    raise UnicodeDecodeError and the handler for it is never entered. *)
Definition read_stream (ch : channel) (end_time : Z) (timeout log : bool)
  : result (Utf8.text * list Utf8.text) :=
  match read_loop (chunks ch) (now ch) O end_time timeout log [] Utf8.new_decoder [] with
  | Raise e => Raise e
  | Ok (_output, _decoder, logged) =>
      Ok (fst (Utf8.decode _decoder _output true), logged)
  end.

(** All the bytes [read_stream] receives: the chunks up to the first
    empty one. *)
Fixpoint received (cs : list (list Byte.byte)) : list Byte.byte :=
  match cs with
  | [] => []
  | [] :: _ => []
  | c :: rest => (c ++ received rest)%list
  end.

End Stream.

(* ================================================================== *)
(** * The connection manager *)
(* ================================================================== *)

Module SSHConnectionManager.

(** The manager, as far as connecting goes.  Times are in seconds.
    [session_open] tells whether the client holds a session that a
    successful [connect] of the transport library opened. *)
Record t : Type := {
  ip_address : string;
  outage_timeout : Z;
  outage_start_time : option Z;
  session_open : bool
}.

(** How one call of the client's [connect] ends and how long it takes. *)
Record attempt : Type := { succeeds : bool; took : N }.

(** The remote host, seen from the manager: the fate of the i-th attempt. *)
Definition host : Type := nat -> attempt.

(** What the manager does that the outside can see. *)
Inductive event : Type :=
| Connect (started : Z) (ok : bool)
| Sleep (seconds : Z).

(** How [__connect] ends: the manager, the clock, what it did, and
    whether it returned or raised. *)
Record outcome : Type := {
  final : t;
  clock : Z;
  trace : list event;
  res : result unit
}.

Definition on_success (self : t) : t :=
  {| ip_address := ip_address self;
     outage_timeout := outage_timeout self;
     outage_start_time := None;
     session_open := true |}.

Definition on_failure (self : t) (t_now : Z) : t :=
  {| ip_address := ip_address self;
     outage_timeout := outage_timeout self;
     outage_start_time := match outage_start_time self with
                          | Some t0 => Some t0
                          | None => Some t_now
                          end;
     session_open := session_open self |}.

(** The loop [while end_time > datetime.datetime.now()] of [__connect],
    for at most [fuel] evaluations of its condition ([None] beyond).
    [i] numbers the attempts, [now] is the clock. *)
Fixpoint connect_loop (fuel : nat) (h : host) (end_time : Z) (i : nat) (now : Z)
  (self : t) (tr : list event) : option outcome :=
  match fuel with
  | O => None
  | S fuel' =>
      if (now <? end_time)%Z then
        let a := h i in
        let now1 := (now + Z.of_N (took a))%Z in
        if succeeds a then
          Some {| final := on_success self; clock := now1;
                  trace := tr ++ [Connect now true]; res := Ok tt |}
        else
          connect_loop fuel' h end_time (S i) (now1 + 10)%Z
            (on_failure self now1) (tr ++ [Connect now false; Sleep 10])
      else
        Some {| final := self; clock := now; trace := tr;
                res := Raise (AssertionError
                                ("Unable to establish a connection with "
                                 ++ ip_address self)) |}
  end.

(** [__connect], entered when the clock shows [now].  A failed attempt
    costs at least the ten seconds of sleep, so the condition is
    evaluated at most once more than the timeout has seconds. *)
Definition __connect (h : host) (now : Z) (self : t) : option outcome :=
  connect_loop (S (Z.to_nat (outage_timeout self))) h
    (now + outage_timeout self)%Z O now self [].

(** What a run of failed attempts looks like from outside: each attempt
    is followed by its ten seconds of sleep. *)
Fixpoint failures (starts : list Z) : list event :=
  match starts with
  | [] => []
  | t :: rest => Connect t false :: Sleep 10 :: failures rest
  end.

End SSHConnectionManager.

(* ================================================================== *)
(** * Command execution on a node *)
(* ================================================================== *)

Module Executor.

(** The node attributes [exec_command] reads and writes. *)
Record node : Type := {
  ip_address : string;
  run_once : bool;
  exit_status : option Z
}.

(** The keyword arguments. A flag is [None] when the key is absent,
    otherwise the truth value of what was passed. *)
Record kw : Type := {
  cmd : option string;
  long_running : option bool;
  check_ec : option bool;
  pretty_print : option bool;
  verbose : option bool
}.

(** What [long_running] returns: stdout, stderr, exit code, duration. *)
Definition completed : Type := (string * string * Z * Z)%type.

(** The transport under [exec_command]: how refreshing the keepalive of
    the two connections ends, and how the call of [long_running] ends. *)
Record transport : Type := {
  ssh_keepalive : result unit;
  rssh_keepalive : result unit;
  run : result completed
}.

(** The three shapes of the return value. *)
Inductive returned : Type :=
| Pair (out err : string)
| Verbose (out err : string) (exit : Z) (time : Z)
| ExitCode (exit : Z).

(** [kw.get(key, default)] as a truth value. *)
Definition flag (v : option bool) (default : bool) : bool :=
  match v with Some b => b | None => default end.

(** The text of the failure raised on a non-zero exit code. *)
Definition failure_message (c err : string) (exit : Z) (ip : string) : string :=
  c ++ " returned " ++ err ++ " and code " ++ string_of_Z exit ++ " on " ++ ip.

(** Whether the exit code is checked: [check_ec] as passed, otherwise
    the default, which is to check unless the command is long running. *)
Definition check_ec_enabled (k : kw) : bool :=
  flag (check_ec k) (negb (flag (long_running k) false)).

Definition set_exit_status (self : node) (e : Z) : node :=
  {| ip_address := ip_address self; run_once := run_once self;
     exit_status := Some e |}.

(** The keepalive of both connections is refreshed once a first command
    has run on the node. *)
Definition refresh_keepalive (tp : transport) (self : node) : result unit :=
  if run_once self
  then (_ <- ssh_keepalive tp ;; rssh_keepalive tp)
  else Ok tt.

(** [CephNode.exec_command]: the node afterwards and the result. *)
Definition exec_command (tp : transport) (self : node) (k : kw)
  : node * result returned :=
  match refresh_keepalive tp self with
  | Raise e => (self, Raise e)
  | Ok _ =>
      match cmd k with
      | None => (self, Raise (KeyError "cmd"))
      | Some c =>
          match run tp with
          | Raise e => (self, Raise e)
          | Ok (_out, _err, _exit, _time) =>
              let self' := set_exit_status self _exit in
              match verbose k with
              | Some _ => (self', Ok (Verbose _out _err _exit _time))
              | None =>
                  if flag (long_running k) false then
                    if flag (check_ec k) false && negb (_exit =? 0)%Z then
                      (self', Raise (CommandFailed
                                       (failure_message c _err _exit (ip_address self))))
                    else (self', Ok (ExitCode _exit))
                  else
                    if flag (check_ec k) true && negb (_exit =? 0)%Z then
                      (self', Raise (CommandFailed
                                       (failure_message c _err _exit (ip_address self))))
                    else (self', Ok (Pair _out _err))
              end
          end
      end
  end.

End Executor.

(* ================================================================== *)
(** * The cluster health check *)
(* ================================================================== *)

Module Health.

(** A parsed JSON document. *)
#[local] Unset Elimination Schemes.
Inductive json : Type :=
| JNull
| JBool (b : bool)
| JNum (z : Z)
| JStr (s : string)
| JArr (items : list json)
| JObj (fields : list (string * json)).
#[local] Set Elimination Schemes.

(** [a == b] on parsed documents, member by member. *)
Fixpoint json_eqb (a b : json) : bool :=
  match a, b with
  | JNull, JNull => true
  | JBool x, JBool y => Bool.eqb x y
  | JNum x, JNum y => Z.eqb x y
  | JStr x, JStr y => String.eqb x y
  | JArr xs, JArr ys =>
      (fix all2 (xs ys : list json) : bool :=
         match xs, ys with
         | [], [] => true
         | x :: xs', y :: ys' => json_eqb x y && all2 xs' ys'
         | _, _ => false
         end) xs ys
  | JObj xs, JObj ys =>
      (fix all2 (xs ys : list (string * json)) : bool :=
         match xs, ys with
         | [], [] => true
         | (k, x) :: xs', (k', y) :: ys' =>
             String.eqb k k' && json_eqb x y && all2 xs' ys'
         | _, _ => false
         end) xs ys
  | _, _ => false
  end.

Fixpoint lookup (fields : list (string * json)) (k : string) : option json :=
  match fields with
  | [] => None
  | (k', v) :: rest => if String.eqb k' k then Some v else lookup rest k
  end.

(** [d[k]]. *)
Definition getitem (d : json) (k : string) : result json :=
  match d with
  | JObj fields =>
      match lookup fields k with
      | Some v => Ok v
      | None => Raise (KeyError k)
      end
  | _ => Raise TypeError
  end.

(** [d.get(k, default)]. *)
Definition get (d : json) (k : string) (default : json) : result json :=
  match d with
  | JObj fields =>
      match lookup fields k with
      | Some v => Ok v
      | None => Ok default
      end
  | _ => Raise AttributeError
  end.

(** [len(v)]. *)
Definition len (v : json) : result Z :=
  match v with
  | JArr items => Ok (Z.of_nat (List.length items))
  | JObj fields => Ok (Z.of_nat (List.length fields))
  | JStr s => Ok (Z.of_nat (String.length s))
  | _ => Raise TypeError
  end.

(** The standard output of a remote command, together with what
    [json.loads] makes of it ([None] when it is not a JSON document). *)
Record output : Type := { text : string; parsed : option json }.

(** [json.loads(out)]. *)
Definition json_loads (out : output) : result json :=
  match parsed out with
  | Some j => Ok j
  | None => Raise ValueError
  end.

(** The remote side: what the i-th call of [client.exec_command] with a
    given command returns as stdout (or raises), and how long it takes. *)
Record remote : Type := {
  reply : nat -> string -> result output;
  took : nat -> N
}.

(** The state the check threads through: calls made, clock in seconds,
    commands issued. *)
Record state : Type := { calls : nat; now : Z; issued : list string }.

(** [client.exec_command(cmd=cmd, sudo=True)]; a missing client has no
    such method. *)
Definition exec (rm : remote) (client : option ref) (c : string) (st : state)
  : result (output * state) :=
  match client with
  | None => Raise AttributeError
  | Some _ =>
      let st' := {| calls := S (calls st);
                    now := (now st + Z.of_N (took rm (calls st)))%Z;
                    issued := issued st ++ [c] |} in
      match reply rm (calls st) c with
      | Ok o => Ok (o, st')
      | Raise e => Raise e
      end
  end.

Definition sleep (seconds : Z) (st : state) : state :=
  {| calls := calls st; now := (now st + seconds)%Z; issued := issued st |}.

(** [s.split(".")[0]]. *)
Fixpoint before_dot (s : string) : string :=
  match s with
  | EmptyString => EmptyString
  | String c rest =>
      if Ascii.eqb c "."%char then EmptyString else String c (before_dot rest)
  end.

(** [rhbuild and rhbuild.split(".")[0] >= "5"], as a truth value. *)
Definition is_pacific (rhbuild : option string) : bool :=
  match rhbuild with
  | Some s => str_truthy s && String.leb "5" (before_dot s)
  | None => false
  end.

Definition with_cluster (c : string) (cluster_name : option string) : string :=
  match cluster_name with
  | Some n => c ++ " --cluster " ++ n
  | None => c
  end.

Definition in_shell (c : string) : string := "cephadm shell -- " ++ c.

(** [Ceph.osd_check]: 1, 0, or no value when none of the three tests
    applies. *)
Definition osd_check (rm : remote) (client : option ref)
  (cluster_name rhbuild : option string) (st : state)
  : result (option Z * state) :=
  let c := with_cluster "ceph -s -f json" cluster_name in
  let c := if is_pacific rhbuild then in_shell c else c in
  match exec rm client c st with
  | Raise e => Raise e
  | Ok (out, st1) =>
      ceph_status_json <- json_loads out ;;
      osdmap <- getitem ceph_status_json "osdmap" ;;
      osd_status <- get osdmap "osdmap" osdmap ;;
      num_osds <- getitem osd_status "num_osds" ;;
      num_up_osds <- getitem osd_status "num_up_osds" ;;
      num_in_osds <- getitem osd_status "num_in_osds" ;;
      if negb (json_eqb num_osds num_up_osds) then Ok (Some 1%Z, st1)
      else if negb (json_eqb num_osds num_in_osds) then Ok (Some 1%Z, st1)
      else if json_eqb num_osds num_up_osds && json_eqb num_up_osds num_in_osds
           then Ok (Some 0%Z, st1)
           else Ok (None, st1)
  end.

Definition pending_states : list string := ["peering"; "activating"; "creating"].
Definition valid_states : list string := ["active+clean"].

Definition any_in (states : list string) (out : string) : bool :=
  existsb (fun s => contains s out) states.

Definition all_in (states : list string) (out : string) : bool :=
  forallb (fun s => contains s out) states.

(** The polling loop of [check_health], for at most [fuel] evaluations of
    its condition ([None] beyond); [out] is the last status text read. *)
Fixpoint poll (fuel : nat) (rm : remote) (client : option ref) (c : string)
  (starttime timeout : Z) (st : state) (out : string)
  : option (result (string * state)) :=
  match fuel with
  | O => None
  | S fuel' =>
      if (now st - starttime <=? timeout)%Z then
        match exec rm client c st with
        | Raise e => Some (Raise e)
        | Ok (o, st1) =>
            if negb (any_in pending_states (text o)) && all_in valid_states (text o)
            then Some (Ok (text o, st1))
            else poll fuel' rm client c starttime timeout (sleep 5 st1) (text o)
        end
      else Some (Ok (out, st))
  end.

(** The client the check falls back to when none is given. *)
Definition default_client (h : heap) (self : Ceph.t) (client : option ref)
  : result (option ref) :=
  match client with
  | Some c => Ok (Some c)
  | None =>
      c1 <- Ceph.get_ceph_object h self "client" 0 ;;
      match c1 with
      | Some _ => Ceph.get_ceph_object h self "client" 0
      | None => Ceph.get_ceph_object h self "mon" 0
      end
  end.

(** [self.ceph_demon_stat["mon"]]. *)
Definition expected_mons (h : heap) (self : Ceph.t) : result Z :=
  stat <- Ceph.ceph_demon_stat h self ;;
  match Ceph.counter_get stat "mon" with
  | Some n => Ok n
  | None => Raise (KeyError "mon")
  end.

(** [Ceph.check_health(rhbuild, cluster_name, client, timeout)].  A
    sleepless turn of the loop ends it and every other turn costs five
    seconds, so [timeout + 2] evaluations of the condition are all the
    loop can make. *)
Definition check_health (h : heap) (self : Ceph.t) (rm : remote)
  (rhbuild cluster_name : option string) (client : option ref) (timeout : Z)
  (st : state) : option (result (Z * state)) :=
  let pacific := is_pacific rhbuild in
  match default_client h self client with
  | Raise e => Some (Raise e)
  | Ok client =>
      let c := with_cluster "ceph -s" cluster_name in
      let c := if pacific then in_shell c else c in
      match poll (Z.to_nat timeout + 2) rm client c (now st) timeout st EmptyString with
      | None => None
      | Some (Raise e) => Some (Raise e)
      | Some (Ok (out, st1)) =>
          if negb (all_in valid_states out) then Some (Ok (1%Z, st1))
          else
            match osd_check rm client cluster_name rhbuild st1 with
            | Raise e => Some (Raise e)
            | Ok (_, st2) =>
                if negb pacific then
                  let c := with_cluster "ceph quorum_status -f json" cluster_name in
                  let c := if pacific then in_shell c else c in
                  match exec rm client c st2 with
                  | Raise e => Some (Raise e)
                  | Ok (out', st3) =>
                      Some (mons <- json_loads out' ;;
                            expected <- expected_mons h self ;;
                            quorum <- get mons "quorum" JNull ;;
                            n <- len quorum ;;
                            if negb (n =? expected)%Z then Ok (1%Z, st3)
                            else if contains "HEALTH_ERR" (text out') then Ok (1%Z, st3)
                            else Ok (0%Z, st3))
                  end
                else
                  if contains "HEALTH_ERR" out then Some (Ok (1%Z, st2))
                  else Some (Ok (0%Z, st2))
            end
      end
  end.

End Health.

(* ================================================================== *)
(** * The upgrade workflow *)
(* ================================================================== *)

Module Upgrade.

(** The values found in the test configuration. *)
#[local] Unset Elimination Schemes.
Inductive value : Type :=
| VNone
| VBool (b : bool)
| VInt (z : Z)
| VStr (s : string)
| VDict (d : list (string * value)).
#[local] Set Elimination Schemes.

Definition dict : Type := list (string * value).

(** [d.get(k)]: [None] when the key is absent. *)
Fixpoint dict_get (d : dict) (k : string) : value :=
  match d with
  | [] => VNone
  | (k', v) :: rest => if String.eqb k' k then v else dict_get rest k
  end.

(** [k in d]. *)
Fixpoint dict_has (d : dict) (k : string) : bool :=
  match d with
  | [] => false
  | (k', _) :: rest => String.eqb k' k || dict_has rest k
  end.

(** [d[k] = v], also what [d.update({k: v})] does: an existing key keeps
    its place, a new one goes last. *)
Fixpoint dict_set (d : dict) (k : string) (v : value) : dict :=
  match d with
  | [] => [(k, v)]
  | (k', v') :: rest =>
      if String.eqb k' k then (k', v) :: rest else (k', v') :: dict_set rest k v
  end.

Definition truthy (v : value) : bool :=
  match v with
  | VNone => false
  | VBool b => b
  | VInt z => negb (z =? 0)%Z
  | VStr s => str_truthy s
  | VDict d => match d with [] => false | _ => true end
  end.

(** The calls the workflow makes on its collaborators, with the
    arguments the properties below talk about. *)
Inductive event : Type :=
| EOrch (config : dict)
| ERadosBench
| EExecutorRun (config : value)
| ESetToolRepo
| EInstall
| EUpgradeCheck (image : value)
| EExecCommand (cmd : string)
| EStartUpgrade (config : dict)
| EMonitorUpgradeStatus
| ECheckHealth (rhbuild : value)
| EExecutorTeardown
| EGetClusterState (commands : list string).

(** The collaborators defined outside this repository slice ([Orch],
    [RadosBench], the installer's remote shell): how each of their calls
    ends.  Every one is called at most once in a run. *)
Record collaborators : Type := {
  Orch_init : result unit;
  RadosBench_init : result unit;
  executor_run : result unit;
  executor_teardown : result unit;
  set_tool_repo : result unit;
  install : result unit;
  upgrade_check : result unit;
  rpm_query : result (string * string);
  upgrade_stop : result (string * string);
  start_upgrade : result unit;
  monitor_upgrade_status : result unit;
  check_health : result Z;
  get_cluster_state : result unit
}.

(** Computations that call collaborators: they extend the list of calls
    made so far and return or raise. *)
Definition M (A : Type) : Type := list event -> result A * list event.

Definition ret {A : Type} (a : A) : M A := fun tr => (Ok a, tr).

Definition raise {A : Type} (e : exn) : M A := fun tr => (Raise e, tr).

Definition lift {A : Type} (r : result A) : M A := fun tr => (r, tr).

Definition call {A : Type} (ev : event) (r : result A) : M A :=
  fun tr => (r, tr ++ [ev]).

Definition mbind {A B : Type} (m : M A) (k : A -> M B) : M B :=
  fun tr =>
    match m tr with
    | (Ok a, tr') => k a tr'
    | (Raise e, tr') => (Raise e, tr')
    end.

Notation "x <~ m ;; k" := (mbind m (fun x => k))
  (at level 61, m at next level, right associativity).

(** The diagnostic commands gathered at the end of every run. *)
Definition cluster_state_commands : list string :=
  [ "ceph status";
    "ceph versions";
    "ceph orch ps -f yaml";
    "ceph orch ls -f yaml";
    "ceph orch upgrade status";
    "ceph mgr dump";
    "ceph mon stat" ].

(** [installer.exec_command(sudo=True, cmd=c)]; [None] has no such method. *)
Definition installer_exec (installer : option ref) (c : string)
  (r : result (string * string)) : M (string * string) :=
  match installer with
  | None => raise AttributeError
  | Some _ => call (EExecCommand c) r
  end.

(** [rhbuild.startswith("5")]. *)
Definition startswith_5 (rhbuild : value) : result bool :=
  match rhbuild with
  | VStr s => Ok (prefix "5" s)
  | _ => Raise AttributeError
  end.

(** The body of the [try] statement of [run]; [executor] tells whether a
    benchmark executor was created. *)
Definition guarded (h : heap) (ceph_cluster : Ceph.t) (co : collaborators)
  (config : dict) (executor : bool) : M unit :=
  _ <~ (if executor then
          (if dict_has config "benchmark"
           then call (EExecutorRun (dict_get config "benchmark")) (executor_run co)
           else raise (KeyError "benchmark"))
        else ret tt) ;;
  _ <~ call ESetToolRepo (set_tool_repo co) ;;
  _ <~ call EInstall (install co) ;;
  _ <~ call (EUpgradeCheck (dict_get config "container_image")) (upgrade_check co) ;;
  installer <~ lift (Ceph.get_ceph_object h ceph_cluster "installer" 0) ;;
  let rhbuild := dict_get config "rhbuild" in
  is5 <~ lift (startswith_5 rhbuild) ;;
  _ <~ (if is5 : bool then
          r <~ installer_exec installer "rpm -qa | grep ceph-common" (rpm_query co) ;;
          let ceph_version := fst r in
          if contains "16.2.7" ceph_version then
            _ <~ installer_exec installer
                   "cephadm -v shell -- ceph orch upgrade stop" (upgrade_stop co) ;;
            ret tt
          else ret tt
        else ret tt) ;;
  let config := dict_set config "args" (VDict [("image", VStr "latest")]) in
  _ <~ call (EStartUpgrade config) (start_upgrade co) ;;
  _ <~ call EMonitorUpgradeStatus (monitor_upgrade_status co) ;;
  if truthy (dict_get config "verify_cluster_health") then
    rc <~ call (ECheckHealth (dict_get config "rhbuild")) (check_health co) ;;
    if negb (rc =? 0)%Z
    then raise (UpgradeFailure "Cluster is in HEALTH_ERR state")
    else ret tt
  else ret tt.


(** The body of the [finally] clause. *)
Definition cleanup (co : collaborators) (executor : bool) : M unit :=
  _ <~ (if executor then call EExecutorTeardown (executor_teardown co) else ret tt) ;;
  call (EGetClusterState cluster_state_commands) (get_cluster_state co).

(** What precedes the [try] statement: the configuration handed on and
    whether a benchmark executor exists. *)
Definition setup (h : heap) (ceph_cluster : Ceph.t) (co : collaborators)
  (kwargs : dict) : M (dict * bool) :=
  config <~ lift (if dict_has kwargs "config"
                  then Ok (dict_get kwargs "config")
                  else Raise (KeyError "config")) ;;
  test_data <~ ret (if dict_has kwargs "test_data"
                    then dict_get kwargs "test_data" else VDict []) ;;
  custom <~ lift (match test_data with
                  | VDict d => Ok (dict_get d "custom-config")
                  | _ => Raise AttributeError
                  end) ;;
  config <~ lift (match config with
                  | VDict d => Ok (dict_set d "overrides" custom)
                  | _ => Raise TypeError
                  end) ;;
  _ <~ call (EOrch config) (Orch_init co) ;;
  nodes <~ lift (Ceph.get_nodes h ceph_cluster (Some (PyStr "client")) None) ;;
  client <~ lift (py_index nodes 0) ;;
  clients <~ lift (Ceph.get_nodes h ceph_cluster (Some (PyStr "client")) None) ;;
  if truthy (dict_get config "benchmark") then
    _ <~ call ERadosBench (RadosBench_init co) ;;
    ret (config, true)
  else ret (config, false).

(** [run(ceph_cluster, **kwargs)]: the status returned or the exception
    that escapes, and the calls made.  An exception of the guarded body is
    turned into the pending result 1; the [finally] clause runs either way
    and an exception of its own replaces that result. *)
Definition run (h : heap) (ceph_cluster : Ceph.t) (co : collaborators)
  (kwargs : dict) : result Z * list event :=
  match setup h ceph_cluster co kwargs [] with
  | (Raise e, tr) => (Raise e, tr)
  | (Ok (config, executor), tr) =>
      let (body, tr1) := guarded h ceph_cluster co config executor tr in
      let status := match body with Ok _ => 0%Z | Raise _ => 1%Z end in
      match cleanup co executor tr1 with
      | (Raise e, tr2) => (Raise e, tr2)
      | (Ok _, tr2) => (Ok status, tr2)
      end
  end.




(** A computation only adds calls, and the calls it adds satisfy [P]. *)
Definition emits (P : event -> Prop) {A : Type} (m : M A) : Prop :=
  forall tr, exists evs, snd (m tr) = tr ++ evs /\ Forall P evs.


End Upgrade.

(* ================================================================== *)
(** * Assigning devices to OSD role objects *)
(* ================================================================== *)

Module OsdDevices.

(** [s.rfind(c)] for a one-character [c]: the index of its last
    occurrence, -1 when there is none.  [i] is the index of the head of
    [s] and [found] the last occurrence seen so far. *)
Fixpoint rfind_from (c : ascii) (s : string) (i found : Z) : Z :=
  match s with
  | EmptyString => found
  | String a rest =>
      rfind_from c rest (i + 1)%Z (if Ascii.eqb a c then i else found)
  end.

Definition rfind (c : ascii) (s : string) : Z := rfind_from c s 0 (-1).

(** [s[i:]] for a non-negative [i]. *)
Fixpoint drop (n : nat) (s : string) : string :=
  match n, s with
  | O, _ => s
  | S n', String _ rest => drop n' rest
  | S _, EmptyString => EmptyString
  end.

(** [device[device.rfind("/") + 1 : :]]. *)
Definition short_name (device : string) : string :=
  drop (Z.to_nat (rfind "/"%char device + 1)) device.

(** [devices.pop() if len(devices) > 0 else None]: the last element and
    the list without it. *)
Definition pop {A : Type} (devices : list A) : option A * list A :=
  match rev devices with
  | [] => (None, [])
  | d :: r => (Some d, rev r)
  end.

(** What [setup_osd_devices] stores in [osd_demon.device] for the device
    it popped; a device of a bare-metal volume may be [None]. *)
Definition device_for (popped : option (option string)) : option string :=
  match popped with
  | Some (Some device) =>
      if str_truthy device then Some (short_name device) else None
  | _ => None
  end.

(** [obj.device = d] on the object a reference designates. *)
Fixpoint set_device (h : heap) (r : ref) (d : option string) : heap :=
  match h, r with
  | [], _ => []
  | o :: h', O =>
      {| CephObject.cls := CephObject.cls o;
         CephObject.role := CephObject.role o;
         CephObject.device := d;
         CephObject.is_active_attr := CephObject.is_active_attr o |} :: h'
  | o :: h', S r' => o :: set_device h' r' d
  end.

(** The loop of [setup_osd_devices] over the OSD objects. *)
Fixpoint assign (h : heap) (osds : list ref) (devices : list (option string)) : heap :=
  match osds with
  | [] => h
  | osd_demon :: rest =>
      let (device, devices') := pop devices in
      assign (set_device h osd_demon (device_for device)) rest devices'
  end.

(** [Ceph.setup_osd_devices(devices, node)]: the store afterwards. *)
Definition setup_osd_devices (h : heap) (devices : list (option string))
  (node : Node.t) : result heap :=
  osds <- Node.get_ceph_objects h node (Some "osd") ;;
  Ok (assign h osds devices).

(** The devices the loop stores, in the order of the OSD objects. *)
Fixpoint assigned (n : nat) (devices : list (option string)) : list (option string) :=
  match n with
  | O => []
  | S n' =>
      let (device, devices') := pop devices in
      device_for device :: assigned n' devices'
  end.

End OsdDevices.

(* ================================================================== *)
(** * What is pickled of a node and of a connection manager *)
(* ================================================================== *)

Module Pickle.

Section Attributes.

(** Attribute values, of which only the truth value matters here. *)
Variable V : Type.
Variable truthy : V -> bool.

(** An attribute dictionary; a key has the value of its first entry. *)
Definition attrs : Type := list (string * V).

Fixpoint lookup (d : attrs) (k : string) : option V :=
  match d with
  | [] => None
  | (k', v) :: rest => if String.eqb k' k then Some v else lookup rest k
  end.

(** [d.get(k)] as a truth value. *)
Definition get_truthy (d : attrs) (k : string) : bool :=
  match lookup d k with
  | Some v => truthy v
  | None => false
  end.

Fixpoint remove_key (d : attrs) (k : string) : attrs :=
  match d with
  | [] => []
  | (k', v) :: rest =>
      if String.eqb k' k then remove_key rest k else (k', v) :: remove_key rest k
  end.

(** [del d[k]]: KeyError when the key is missing. *)
Definition del (d : attrs) (k : string) : result attrs :=
  match lookup d k with
  | Some _ => Ok (remove_key d k)
  | None => Raise (KeyError k)
  end.

(** [if d.get(test): del d[k]]. *)
Definition del_if (test k : string) (d : attrs) : result attrs :=
  if get_truthy d test then del d k else Ok d.

(** [CephNode.__getstate__] on a copy [d] of the attributes. *)
Definition CephNode_getstate (d : attrs) : result attrs :=
  d <- del_if "rssh" "rssh" d ;;
  d <- del_if "ssh" "ssh" d ;;
  d <- del_if "rssh_transport" "rssh_transport" d ;;
  d <- del_if "ssh_transport" "ssh_transport" d ;;
  d <- del_if "ssh_transport" "root_connection" d ;;
  del_if "connection" "connection" d.

(** [SSHConnectionManager.__getstate__] on a copy of the attributes. *)
Definition SSHConnectionManager_getstate (pickle_dict : attrs) : result attrs :=
  d <- del_if "_SSHConnectionManager__transport"
         "_SSHConnectionManager__transport" pickle_dict ;;
  del_if "_SSHConnectionManager__client" "_SSHConnectionManager__client" d.

End Attributes.

End Pickle.

(* ================================================================== *)
(** * Opening the firewall *)
(* ================================================================== *)

Module Firewall.

(** A command run on a node. *)
Definition call : Type := (Node.t * string)%type.

(** What lies outside: the package type a node found for itself when it
    connected ([None] while it has none), and how a command run on a
    node with [exec_command] ends, given the commands run before. *)
Record hosts : Type := {
  pkg_type : Node.t -> option string;
  sh : list call -> Node.t -> string -> result unit
}.

(** Computations that run commands: they extend the list of commands
    run so far and return or raise. *)
Definition M : Type := list call -> result unit * list call.

Definition skip : M := fun tr => (Ok tt, tr).

Definition exec_command (hs : hosts) (n : Node.t) (c : string) : M :=
  fun tr => (sh hs tr n c, tr ++ [(n, c)]).

Definition andthen (m k : M) : M :=
  fun tr =>
    match m tr with
    | (Ok _, tr') => k tr'
    | (Raise e, tr') => (Raise e, tr')
    end.

(** [self.pkg_type == t], then the branch taken. *)
Definition on_pkg_type (hs : hosts) (n : Node.t) (rpm : M) : M :=
  match pkg_type hs n with
  | None => fun tr => (Raise AttributeError, tr)
  | Some t => if String.eqb t "rpm" then rpm else skip
  end.

(** [CephNode.configure_firewall]. *)
Definition configure_firewall (hs : hosts) (n : Node.t) : M :=
  on_pkg_type hs n
    (andthen
       (fun tr =>
          match exec_command hs n "rpm -qa | grep firewalld" tr with
          | (Raise (CommandFailed _), tr') =>
              exec_command hs n "yum install -y firewalld" tr'
          | r => r
          end)
       (andthen (exec_command hs n "systemctl enable firewalld")
          (andthen (exec_command hs n "systemctl start firewalld")
             (exec_command hs n "systemctl status firewalld")))).

(** The command [open_firewall_port] builds for one port or a list of
    ports. *)
Definition open_command (port : pyval) (protocol : string) : string :=
  ("firewall-cmd --zone=public " ++
   match port with
   | PyStr p => "--add-port=" ++ p ++ "/" ++ protocol
   | PyList ps =>
       String.concat " " (map (fun p => "--add-port=" ++ p ++ "/" ++ protocol) ps)
   end)%string.

(** [CephNode.open_firewall_port(port, protocol)]. *)
Definition open_firewall_port (hs : hosts) (n : Node.t) (port : pyval)
  (protocol : string) : M :=
  on_pkg_type hs n
    (let cmd := open_command port protocol in
     andthen (exec_command hs n cmd)
       (exec_command hs n (cmd ++ " --permanent")%string)).

(** The ports [setup_ceph_firewall] gathers for a node. *)
Definition ports_for (role : RolesContainer.t) : list string :=
  let ports := [] in
  let ports := if RolesContainer.__eq__ role (PyStr "mon")
               then (ports ++ ["6789"]) ++ ["6800-6820"] else ports in
  let ports := if RolesContainer.__eq__ role (PyStr "osd")
               then ports ++ ["6800-7300"] else ports in
  let ports := if RolesContainer.__eq__ role (PyStr "mgr")
               then ports ++ ["6800-6820"] else ports in
  let ports := if RolesContainer.__eq__ role (PyStr "mds")
               then ports ++ ["6800"] else ports in
  let ports := if RolesContainer.__eq__ role (PyStr "iscsi-gw")
               then ports ++ ["3260"; "5000-5001"] else ports in
  let ports := if RolesContainer.__eq__ role (PyStr "grafana")
               then ports ++ ["6800-6820"] else ports in
  ports.

(** The loop of [setup_ceph_firewall]. *)
Fixpoint setup_nodes (h : heap) (hs : hosts) (nodes : list Node.t) : M :=
  match nodes with
  | [] => skip
  | node :: rest =>
      match Node.role h node with
      | Raise e => fun tr => (Raise e, tr)
      | Ok role =>
          let ports := ports_for role in
          andthen
            (match ports with
             | [] => skip
             | _ => andthen (configure_firewall hs node)
                      (open_firewall_port hs node (PyList ports) "tcp")
             end)
            (setup_nodes h hs rest)
      end
  end.

(** [Ceph.setup_ceph_firewall]. *)
Definition setup_ceph_firewall (h : heap) (self : Ceph.t) (hs : hosts) : M :=
  match Ceph.get_nodes h self None None with
  | Raise e => fun tr => (Raise e, tr)
  | Ok nodes => setup_nodes h hs nodes
  end.

(** The roles for which ports are opened. *)
Definition FIREWALL_ROLES : list string :=
  ["mon"; "osd"; "mgr"; "mds"; "iscsi-gw"; "grafana"].

(** A computation only adds commands, and the commands it adds satisfy
    [P]. *)
Definition adds (P : call -> Prop) (m : M) : Prop :=
  forall tr, exists evs, snd (m tr) = tr ++ evs /\ Forall P evs.

End Firewall.

(* ================================================================== *)
(** * Notions the further properties are stated with *)
(* ================================================================== *)

(** Whether the role container of a node compares equal to [r]. *)
Definition has_role (h : heap) (r : pyval) (n : Node.t) : bool :=
  match Node.role h n with
  | Ok rc => RolesContainer.__eq__ rc r
  | Raise _ => false
  end.

(** The number of references in a list whose object has the role [r]. *)
Fixpoint count_role (h : heap) (rs : list ref) (r : string) : nat :=
  match rs with
  | [] => 0
  | x :: rest =>
      match nth_error h x with
      | Some o =>
          if String.eqb (CephObject.role o) r
          then S (count_role h rest r) else count_role h rest r
      | None => count_role h rest r
      end
  end.

(** The number of connection attempts among the events of a manager. *)
Fixpoint connect_attempts (tr : list SSHConnectionManager.event) : nat :=
  match tr with
  | [] => 0
  | SSHConnectionManager.Connect _ _ :: rest => S (connect_attempts rest)
  | SSHConnectionManager.Sleep _ :: rest => connect_attempts rest
  end.

(** The value [exec_command] returns when it raises nothing: the
    four-tuple when [verbose] is among the arguments, otherwise the exit
    code of a long-running command, otherwise stdout and stderr. *)
Definition returned_shape (k : Executor.kw) (out err : string) (exit time : Z)
  : Executor.returned :=
  match Executor.verbose k with
  | Some _ => Executor.Verbose out err exit time
  | None =>
      if Executor.flag (Executor.long_running k) false
      then Executor.ExitCode exit
      else Executor.Pair out err
  end.

(** What [n] further demons of a role make of its entry in the counter. *)
Definition bump (entry : option Z) (n : nat) : option Z :=
  match n with
  | O => entry
  | S _ => Some (match entry with Some v => v | None => 0 end + Z.of_nat n)%Z
  end.

(* ================================================================== *)
(** * Concrete scenarios *)
(* ================================================================== *)

Module Scenario.



(** A virtual node with the role "osd" and one volume. *)
Definition osd_node_kw : CephNode.kw :=
  {| CephNode.hostname := "node2";
     CephNode.kw_role := ["osd"];
     CephNode.no_of_volumes := 1;
     CephNode.ceph_vmnode := Some {| CephNode.node_type := "openstack";
                                     CephNode.volumes := [] |} |}.

(** That node and the store once [__init__] has run on an empty store. *)
Definition osd_heap : heap := [CephOsd].

Definition osd_node : Node.t :=
  {| Node.vmname := "node2";
     Node.volume_list := [ {| NodeVolume.status := NodeVolume.ALLOCATED;
                              NodeVolume.path := None |} ];
     Node.ceph_object_list := [Some 0%nat] |}.

(** A stream that delivers the single byte 0xC3, the first byte of a
    two-byte character, and then ends. *)
Definition truncated_channel : Stream.channel :=
  {| Stream.chunks := [[Byte.xc3]]; Stream.now := fun _ => 0%Z |}.

(** A node, and a transport on which the command ends with exit code 1
    and "boom" on stderr. *)
Definition exec_node : Executor.node :=
  {| Executor.ip_address := "10.0.0.5";
     Executor.run_once := false;
     Executor.exit_status := None |}.

Definition failing_transport : Executor.transport :=
  {| Executor.ssh_keepalive := Ok tt;
     Executor.rssh_keepalive := Ok tt;
     Executor.run := Ok (EmptyString, "boom", 1%Z, 2%Z) |}.



(** A cluster of three monitor nodes and a client node. *)
Definition health_heap : heap :=
  [CephDemon "mon"; CephDemon "mon"; CephDemon "mon"; CephObject.new "client"].

Definition health_node (name : string) (r : ref) : Node.t :=
  {| Node.vmname := name; Node.volume_list := [];
     Node.ceph_object_list := [Some r] |}.

Definition health_cluster : Ceph.t :=
  {| Ceph.name := "ceph";
     Ceph.node_list := [ health_node "mon1" 0%nat; health_node "mon2" 1%nat;
                         health_node "mon3" 2%nat; health_node "client1" 3%nat ];
     Ceph.rhcs_version_lt_3 := false |}.

(** The double quote of JSON text. *)
Definition dq : string := String (Ascii.ascii_of_nat 34) EmptyString.

(** The status text: all placement groups active+clean, nothing pending. *)
Definition status_text : string :=
  "health: HEALTH_WARN 1 osds down; mon: 3 daemons, quorum a,b,c; " ++
  "osd: 6 osds: 5 up, 6 in; pgs: 64 active+clean".

(** The status as JSON: six OSDs, five of them up, six in. *)
Definition status_json : Health.output :=
  {| Health.text :=
       "{" ++ dq ++ "osdmap" ++ dq ++ ": {" ++
       dq ++ "num_osds" ++ dq ++ ": 6, " ++
       dq ++ "num_up_osds" ++ dq ++ ": 5, " ++
       dq ++ "num_in_osds" ++ dq ++ ": 6}}";
     Health.parsed :=
       Some (Health.JObj
               [("osdmap",
                 Health.JObj [("num_osds", Health.JNum 6);
                              ("num_up_osds", Health.JNum 5);
                              ("num_in_osds", Health.JNum 6)])]) |}.

(** The quorum status: three monitors in quorum. *)
Definition quorum_json : Health.output :=
  {| Health.text := "{" ++ dq ++ "quorum" ++ dq ++ ": [0, 1, 2]}";
     Health.parsed :=
       Some (Health.JObj
               [("quorum", Health.JArr [Health.JNum 0; Health.JNum 1; Health.JNum 2])]) |}.

(** The remote side of that cluster; every command takes one second. *)
Definition degraded_remote : Health.remote :=
  {| Health.reply := fun _ c =>
       if String.eqb c "ceph -s"
       then Ok {| Health.text := status_text; Health.parsed := None |}
       else if String.eqb c "ceph -s -f json" then Ok status_json
       else if String.eqb c "ceph quorum_status -f json" then Ok quorum_json
       else Raise (CommandFailed c);
     Health.took := fun _ => 1%N |}.

(** The same cluster with all six OSDs up and in. *)
Definition healthy_json : Health.output :=
  {| Health.text :=
       "{" ++ dq ++ "osdmap" ++ dq ++ ": {" ++
       dq ++ "num_osds" ++ dq ++ ": 6, " ++
       dq ++ "num_up_osds" ++ dq ++ ": 6, " ++
       dq ++ "num_in_osds" ++ dq ++ ": 6}}";
     Health.parsed :=
       Some (Health.JObj
               [("osdmap",
                 Health.JObj [("num_osds", Health.JNum 6);
                              ("num_up_osds", Health.JNum 6);
                              ("num_in_osds", Health.JNum 6)])]) |}.

Definition healthy_remote : Health.remote :=
  {| Health.reply := fun _ c =>
       if String.eqb c "ceph -s"
       then Ok {| Health.text := "health: HEALTH_OK; osd: 6 osds: 6 up, 6 in; "
                                 ++ "pgs: 64 active+clean";
                  Health.parsed := None |}
       else if String.eqb c "ceph -s -f json" then Ok healthy_json
       else if String.eqb c "ceph quorum_status -f json" then Ok quorum_json
       else Raise (CommandFailed c);
     Health.took := fun _ => 1%N |}.

Definition health_start : Health.state :=
  {| Health.calls := O; Health.now := 0%Z; Health.issued := [] |}.

(** A cluster with a monitor, a client and an installer node. *)
Definition upgrade_heap : heap :=
  [CephDemon "mon"; CephObject.new "client"; CephInstaller "installer"].

Definition upgrade_cluster : Ceph.t :=
  {| Ceph.name := "ceph";
     Ceph.node_list := [ health_node "node1" 0%nat; health_node "node2" 1%nat;
                         health_node "node3" 2%nat ];
     Ceph.rhcs_version_lt_3 := false |}.

(** Collaborators whose calls all return. *)
Definition smooth : Upgrade.collaborators :=
  {| Upgrade.Orch_init := Ok tt;
     Upgrade.RadosBench_init := Ok tt;
     Upgrade.executor_run := Ok tt;
     Upgrade.executor_teardown := Ok tt;
     Upgrade.set_tool_repo := Ok tt;
     Upgrade.install := Ok tt;
     Upgrade.upgrade_check := Ok tt;
     Upgrade.rpm_query := Ok ("ceph-common-16.2.8-85.el8cp.x86_64", EmptyString);
     Upgrade.upgrade_stop := Ok (EmptyString, EmptyString);
     Upgrade.start_upgrade := Ok tt;
     Upgrade.monitor_upgrade_status := Ok tt;
     Upgrade.check_health := Ok 0%Z;
     Upgrade.get_cluster_state := Ok tt |}.

(** The same, except that starting the upgrade fails. *)
Definition failing_start : Upgrade.collaborators :=
  {| Upgrade.Orch_init := Ok tt;
     Upgrade.RadosBench_init := Ok tt;
     Upgrade.executor_run := Ok tt;
     Upgrade.executor_teardown := Ok tt;
     Upgrade.set_tool_repo := Ok tt;
     Upgrade.install := Ok tt;
     Upgrade.upgrade_check := Ok tt;
     Upgrade.rpm_query := Ok ("ceph-common-16.2.8-85.el8cp.x86_64", EmptyString);
     Upgrade.upgrade_stop := Ok (EmptyString, EmptyString);
     Upgrade.start_upgrade := Raise (CommandFailed "ceph orch upgrade start");
     Upgrade.monitor_upgrade_status := Ok tt;
     Upgrade.check_health := Ok 0%Z;
     Upgrade.get_cluster_state := Ok tt |}.


(** A test configuration for a 5.x build. *)
Definition upgrade_config : Upgrade.dict :=
  [ ("command", Upgrade.VStr "start");
    ("service", Upgrade.VStr "upgrade");
    ("rhbuild", Upgrade.VStr "5.1");
    ("container_image", Upgrade.VStr "registry/rhceph:5-200");
    ("verify_cluster_health", Upgrade.VBool true) ].

Definition upgrade_kwargs : Upgrade.dict :=
  [ ("config", Upgrade.VDict upgrade_config) ].



End Scenario.

(* ================================================================== *)
(** * Further scenarios *)
(* ================================================================== *)

Module Cases.

(** A stream that delivers "ab", then "c", read against a deadline that
    has passed. *)
Definition late_channel : Stream.channel :=
  {| Stream.chunks := [[Byte.x61; Byte.x62]; [Byte.x63]];
     Stream.now := fun _ => 100%Z |}.

(** The same stream read in time. *)
Definition prompt_channel : Stream.channel :=
  {| Stream.chunks := [[Byte.x61; Byte.x62]; [Byte.x63]];
     Stream.now := fun _ => 0%Z |}.

(** A node with two OSD role objects, before and after the devices
    /dev/vdb and /dev/vdc are assigned. *)
Definition two_osd_heap : heap := [CephOsd; CephOsd].

Definition two_osd_node : Node.t :=
  {| Node.vmname := "node5";
     Node.volume_list := [ {| NodeVolume.status := NodeVolume.ALLOCATED;
                              NodeVolume.path := None |};
                           {| NodeVolume.status := NodeVolume.ALLOCATED;
                              NodeVolume.path := None |} ];
     Node.ceph_object_list := [Some 0%nat; Some 1%nat] |}.

Definition osd_with (d : option string) : CephObject.t :=
  {| CephObject.cls := CephObject.Osd; CephObject.role := "osd";
     CephObject.device := d; CephObject.is_active_attr := true |}.

Definition two_osd_heap_after : heap :=
  [osd_with (Some "vdc"); osd_with (Some "vdb")].

(** [exec_command(cmd="yum update -y", long_running=True)]. *)
Definition long_running_kw : Executor.kw :=
  {| Executor.cmd := Some "yum update -y";
     Executor.long_running := Some true;
     Executor.check_ec := None;
     Executor.pretty_print := None;
     Executor.verbose := None |}.

(** A manager that gives a host 25 seconds, and a host that never
    accepts a session; every attempt takes a second. *)
Definition patient_manager : SSHConnectionManager.t :=
  {| SSHConnectionManager.ip_address := "10.0.0.9";
     SSHConnectionManager.outage_timeout := 25;
     SSHConnectionManager.outage_start_time := None;
     SSHConnectionManager.session_open := false |}.

Definition dead_host : SSHConnectionManager.host :=
  fun _ => {| SSHConnectionManager.succeeds := false;
              SSHConnectionManager.took := 1%N |}.

(** A cluster whose placement groups stay in peering; every command
    takes one second. *)
Definition stuck_remote : Health.remote :=
  {| Health.reply := fun _ _ =>
       Ok {| Health.text := "health: HEALTH_WARN; pgs: 64 peering";
             Health.parsed := None |};
     Health.took := fun _ => 1%N |}.

(** The collaborators of [Scenario.smooth] on a host that still has the
    16.2.7 packages. *)
Definition old_packages : Upgrade.collaborators :=
  {| Upgrade.Orch_init := Ok tt;
     Upgrade.RadosBench_init := Ok tt;
     Upgrade.executor_run := Ok tt;
     Upgrade.executor_teardown := Ok tt;
     Upgrade.set_tool_repo := Ok tt;
     Upgrade.install := Ok tt;
     Upgrade.upgrade_check := Ok tt;
     Upgrade.rpm_query := Ok ("ceph-common-16.2.7-126.el8cp.x86_64", EmptyString);
     Upgrade.upgrade_stop := Ok (EmptyString, EmptyString);
     Upgrade.start_upgrade := Ok tt;
     Upgrade.monitor_upgrade_status := Ok tt;
     Upgrade.check_health := Ok 0%Z;
     Upgrade.get_cluster_state := Ok tt |}.

(** Hosts with rpm packages on which every command succeeds. *)
Definition rpm_hosts : Firewall.hosts :=
  {| Firewall.pkg_type := fun _ => Some "rpm";
     Firewall.sh := fun _ _ _ => Ok tt |}.

(** The same hosts without firewalld: the package query fails. *)
Definition bare_hosts : Firewall.hosts :=
  {| Firewall.pkg_type := fun _ => Some "rpm";
     Firewall.sh := fun _ _ c =>
       if String.eqb c "rpm -qa | grep firewalld"
       then Raise (CommandFailed c) else Ok tt |}.

End Cases.

(* ================================================================== *)
(** * Properties *)
(* ================================================================== *)

(** ** Strings and lists *)

Lemma str_in_In (x : string) (xs : list string) :
  str_in x xs = true <-> In x xs.
Proof.
  unfold str_in. rewrite existsb_exists. split.
  - intros [y [Hy Heq]]. apply String.eqb_eq in Heq. now subst.
  - intros H. exists x. split; [assumption | apply String.eqb_refl].
Qed.





Lemma py_index_raises_only_IndexError {A : Type} (xs : list A) (i : Z) (e : exn) :
  py_index xs i = Raise e -> e = IndexError.
Proof.
  unfold py_index.
  destruct ((_ <? 0) || _)%Z; [congruence |].
  destruct (nth_error xs _); congruence.
Qed.

(** ** RolesContainer *)

Section RolesContainerFacts.

Import RolesContainer.

(** C3, as stated, fails: a node whose only role is "mon" compares equal
    to the collection ["mon"; "osd"], of which its role list is no
    superset. *)
Lemma roles_eq_collection_not_superset :
  __eq__ {| role_list := ["mon"] |} (PyList ["mon"; "osd"]) = true
  /\ ~ (forall x, In x ["mon"; "osd"] -> In x (role_list {| role_list := ["mon"] |})).
Proof.
  split; [reflexivity |].
  intros H. specialize (H "osd" (or_intror (or_introl eq_refl))).
  simpl in H. destruct H as [H | []]. discriminate H.
Qed.

(** C3, amended: [r == s] for a string [s] holds exactly when [s] is in
    the role list of [r]; [r == c] for a collection [c] holds exactly when
    every role of [r] is in [c], that is when the role list of [r] is
    included in [c]. *)
Theorem roles_eq_membership_and_inclusion (r : RolesContainer.t) :
  (forall s, __eq__ r (PyStr s) = true <-> In s (role_list r))
  /\ (forall c, __eq__ r (PyList c) = true <-> incl (role_list r) c).
Proof.
  split.
  - intros s. simpl. apply str_in_In.
  - intros c. simpl. rewrite forallb_forall. unfold incl.
    split; intros H x Hx; apply str_in_In; auto.
Qed.

End RolesContainerFacts.

(** ** The factory *)

(** A role string never equals the list of client roles. *)
Lemma role_never_equals_CLIENT_ROLES (role : string) :
  py_eq (PyStr role) (PyList CephObjectFactory.CLIENT_ROLES) = false.
Proof. reflexivity. Qed.

(** C9: for the role "client" the factory returns a new generic
    [CephObject] with that role, never a [CephClient], on every node; the
    client branch tests the role string against the list of client roles,
    which no string equals. *)
Theorem factory_client_is_generic (h : heap) (node : Node.t) :
  (forall role, py_eq (PyStr role) (PyList CephObjectFactory.CLIENT_ROLES) = false)
  /\ exists h' r,
       CephObjectFactory.create_ceph_object h node "client" = Ok (h', node, Some r)
       /\ deref h' r = Ok (CephObject.new "client")
       /\ CephObject.cls (CephObject.new "client") = CephObject.Generic
       /\ CephObject.new "client" <> CephClient "client".
Proof.
  split; [intros role; reflexivity |].
  exists (h ++ [CephObject.new "client"]), (List.length h).
  repeat split.
  - unfold deref. rewrite nth_error_app2 by lia.
    rewrite Nat.sub_diag. reflexivity.
  - discriminate.
Qed.

(** ** Looking up a role object in the cluster *)

(** [get_ceph_object] never lets an IndexError escape. *)
Lemma get_ceph_object_no_IndexError (h : heap) (c : Ceph.t) (role : string)
  (i : Z) (objs : list ref) :
  Ceph.get_ceph_objects h c (Some role) = Ok objs ->
  exists o, Ceph.get_ceph_object h c role i = Ok o.
Proof.
  intros H. unfold Ceph.get_ceph_object. rewrite H.
  destruct (py_index objs i) as [o | e] eqn:E.
  - now exists (Some o).
  - apply py_index_raises_only_IndexError in E. subst e. now exists None.
Qed.

(** On a sound cluster the queries by role raise nothing. *)
Lemma roles_of_sound (h : heap) (objs : list (option ref)) :
  Forall (fun e => exists r, e = Some r /\ (r < List.length h)%nat) objs ->
  exists rs, Node.roles_of h objs = Ok rs.
Proof.
  induction 1 as [|e objs (r & -> & Hr) _ [rs IH]]; simpl; [now eexists |].
  unfold deref. destruct (nth_error h r) eqn:E;
    [| apply nth_error_None in E; lia].
  cbn [bind]. rewrite IH. cbn [bind]. now eexists.
Qed.

Lemma select_objects_sound (h : heap) (objs : list (option ref)) (role : option string) :
  Forall (fun e => exists r, e = Some r /\ (r < List.length h)%nat) objs ->
  exists rs, Node.select_objects h objs role = Ok rs.
Proof.
  induction 1 as [|e objs (r & -> & Hr) _ [rs IH]]; simpl; [now eexists |].
  unfold deref. destruct (nth_error h r) eqn:E;
    [| apply nth_error_None in E; lia].
  cbn [bind]. rewrite IH. cbn [bind]. now eexists.
Qed.

Lemma filter_nodes_sound (h : heap) (test : RolesContainer.t -> bool)
  (nodes : list Node.t) :
  Forall (node_sound h) nodes ->
  exists ns, Ceph.filter_nodes h test nodes = Ok ns /\ Forall (node_sound h) ns.
Proof.
  induction 1 as [|n nodes Hn _ (ns & IH & Hns)]; simpl.
  - eexists. split; [reflexivity | constructor].
  - unfold Node.role. destruct (roles_of_sound h _ Hn) as [rs ->].
    cbn [bind]. rewrite IH. cbn [bind].
    destruct (test _); eexists; (split; [reflexivity |]);
      [constructor; assumption | assumption].
Qed.

Lemma get_nodes_sound (h : heap) (c : Ceph.t) (role ignore : option pyval) :
  cluster_sound h c ->
  exists ns, Ceph.get_nodes h c role ignore = Ok ns /\ Forall (node_sound h) ns.
Proof.
  intros Hc. unfold Ceph.get_nodes.
  destruct (Ceph.arg_truthy role).
  - destruct role; [now apply filter_nodes_sound | now eexists].
  - destruct (Ceph.arg_truthy ignore); [| now eexists].
    destruct ignore; [now apply filter_nodes_sound | now eexists].
Qed.

Lemma collect_sound (f : Node.t -> result (list ref)) (nodes : list Node.t) :
  Forall (fun n => exists l, f n = Ok l) nodes ->
  exists l, Ceph.collect f nodes = Ok l.
Proof.
  induction 1 as [|n nodes [l Hl] _ [ls IH]]; simpl; [now eexists |].
  rewrite Hl. cbn [bind]. rewrite IH. cbn [bind]. now eexists.
Qed.

Lemma get_ceph_objects_sound (h : heap) (c : Ceph.t) (role : option string) :
  cluster_sound h c -> exists objs, Ceph.get_ceph_objects h c role = Ok objs.
Proof.
  intros Hc. unfold Ceph.get_ceph_objects.
  destruct (get_nodes_sound h c (option_map PyStr role) None Hc) as (ns & -> & Hns).
  cbn [bind]. apply collect_sound.
  eapply Forall_impl; [| exact Hns].
  intros n Hn. now apply select_objects_sound.
Qed.

(** On a sound cluster [get_ceph_object] raises nothing, whatever the
    role and the index. *)
Lemma get_ceph_object_never_raises (h : heap) (c : Ceph.t) (role : string) (i : Z) :
  cluster_sound h c -> exists o, Ceph.get_ceph_object h c role i = Ok o.
Proof.
  intros Hc. destruct (get_ceph_objects_sound h c (Some role) Hc) as [objs Hobjs].
  exact (get_ceph_object_no_IndexError h c role i objs Hobjs).
Qed.



(** ** Volumes and OSD role objects on a node *)

Section VolumeFacts.

Import NodeVolume.

Lemma set_first_none (p : t -> bool) (s : status_t) (vols : list t) :
  set_first_status p s vols = None <-> filter p vols = [].
Proof.
  induction vols as [|v vols IH]; simpl.
  - tauto.
  - destruct (p v).
    + split; discriminate.
    + destruct (set_first_status p s vols); simpl.
      * split; [discriminate | intros H; apply IH in H; discriminate].
      * split; [intros _; now apply IH | reflexivity].
Qed.

(** Allocating the first free volume: one more allocated, one less free. *)
Lemma set_first_allocates (vols vols' : list t) :
  set_first_status is_free ALLOCATED vols = Some vols' ->
  List.length (filter is_allocated vols') = S (List.length (filter is_allocated vols))
  /\ S (List.length (filter is_free vols')) = List.length (filter is_free vols)
  /\ List.length vols' = List.length vols.
Proof.
  revert vols'. induction vols as [|[st pa] vols IH]; intros vols' H; simpl in H.
  - discriminate.
  - destruct st; cbn in H.
    + injection H as <-. cbn. auto.
    + destruct (set_first_status is_free ALLOCATED vols) as [w|] eqn:E;
        simpl in H; [| discriminate].
      injection H as <-.
      destruct (IH w eq_refl) as (Ha & Hf & Hl).
      cbn. rewrite Ha, <- Hf, Hl. auto.
Qed.

(** Freeing the first allocated volume: one less allocated, one more free. *)
Lemma set_first_frees (vols vols' : list t) :
  set_first_status is_allocated FREE vols = Some vols' ->
  S (List.length (filter is_allocated vols')) = List.length (filter is_allocated vols)
  /\ List.length (filter is_free vols') = S (List.length (filter is_free vols))
  /\ List.length vols' = List.length vols.
Proof.
  revert vols'. induction vols as [|[st pa] vols IH]; intros vols' H; simpl in H.
  - discriminate.
  - destruct st; cbn in H.
    + destruct (set_first_status is_allocated FREE vols) as [w|] eqn:E;
        simpl in H; [| discriminate].
      injection H as <-.
      destruct (IH w eq_refl) as (Ha & Hf & Hl).
      cbn. rewrite <- Ha, Hf, Hl. auto.
    + injection H as <-. cbn. auto.
Qed.

End VolumeFacts.

Lemma count_osds_ext (h ext : heap) (objs : list (option ref)) :
  refs_valid h objs -> count_osds (h ++ ext) objs = count_osds h objs.
Proof.
  induction objs as [|[r|] objs IH]; intros Hv; simpl.
  - reflexivity.
  - assert (Hr : (r < List.length h)%nat) by (apply Hv; now left).
    rewrite nth_error_app1 by exact Hr.
    rewrite IH by (intros r' Hr'; apply Hv; now right).
    reflexivity.
  - apply IH. intros r' Hr'. apply Hv. now right.
Qed.

Lemma count_osds_app (h : heap) (xs ys : list (option ref)) :
  count_osds h (xs ++ ys) = (count_osds h xs + count_osds h ys)%nat.
Proof.
  induction xs as [|[r|] xs IH]; simpl; [reflexivity | | exact IH].
  destruct (nth_error h r) as [o|]; [| exact IH].
  destruct (String.eqb (CephObject.role o) "osd"); rewrite IH; reflexivity.
Qed.

Lemma refs_valid_ext (h ext : heap) (objs : list (option ref)) :
  refs_valid h objs -> refs_valid (h ++ ext) objs.
Proof.
  intros Hv r Hr. rewrite length_app. specialize (Hv r Hr). lia.
Qed.

Lemma refs_valid_snoc (h : heap) (o : CephObject.t) (objs : list (option ref)) :
  refs_valid h objs -> refs_valid (h ++ [o]) (objs ++ [Some (List.length h)]).
Proof.
  intros Hv r Hr. rewrite length_app. simpl.
  apply in_app_or in Hr. destruct Hr as [Hr | [Hr | []]].
  - specialize (Hv r Hr). lia.
  - injection Hr as <-. lia.
Qed.

Lemma count_osds_fresh (h : heap) (o : CephObject.t) :
  count_osds (h ++ [o]) [Some (List.length h)] = osd_weight o.
Proof.
  simpl. rewrite nth_error_app2 by lia. rewrite Nat.sub_diag. simpl.
  unfold osd_weight. now destruct (String.eqb (CephObject.role o) "osd").
Qed.

(** Removing an object by identity takes its weight off the count. *)
Lemma list_remove_count (h : heap) (r : ref) (o : CephObject.t)
  (objs objs' : list (option ref)) :
  nth_error h r = Some o ->
  list_remove r objs = Some objs' ->
  count_osds h objs = (osd_weight o + count_osds h objs')%nat
  /\ (forall x, In x objs' -> In x objs).
Proof.
  intros Ho. revert objs'.
  induction objs as [|e objs IH]; intros objs' H; simpl in H; [discriminate |].
  destruct e as [r'|].
  - destruct (Nat.eqb r' r) eqn:E.
    + apply Nat.eqb_eq in E. subst r'. injection H as <-.
      split; [| intros x Hx; now right].
      simpl. rewrite Ho. unfold osd_weight.
      now destruct (String.eqb (CephObject.role o) "osd").
    + destruct (list_remove r objs) as [w|]; simpl in H; [| discriminate].
      injection H as <-. destruct (IH w eq_refl) as [Hc Hin].
      split.
      * simpl. destruct (nth_error h r') as [o'|]; [| exact Hc].
        destruct (String.eqb (CephObject.role o') "osd"); lia.
      * intros x [Hx | Hx]; [now left | right; now apply Hin].
  - destruct (list_remove r objs) as [w|]; simpl in H; [| discriminate].
    injection H as <-. destruct (IH w eq_refl) as [Hc Hin].
    split; [exact Hc |].
    intros x [Hx | Hx]; [now left | right; now apply Hin].
Qed.

Lemma list_remove_In (r : ref) (objs objs' : list (option ref)) :
  list_remove r objs = Some objs' -> In (Some r) objs.
Proof.
  revert objs'. induction objs as [|e objs IH]; intros objs' H; simpl in H;
    [discriminate |].
  destruct e as [r'|].
  - destruct (Nat.eqb r' r) eqn:E.
    + apply Nat.eqb_eq in E. subst. now left.
    + destruct (list_remove r objs) as [w|]; simpl in H; [| discriminate].
      right. now apply (IH w).
  - destruct (list_remove r objs) as [w|]; simpl in H; [| discriminate].
    right. now apply (IH w).
Qed.

Lemma In_list_remove (r : ref) (objs : list (option ref)) :
  In (Some r) objs -> exists objs', list_remove r objs = Some objs'.
Proof.
  induction objs as [|e objs IH]; intros H; [destruct H |].
  simpl. destruct e as [r'|].
  - destruct (Nat.eqb r' r) eqn:E; [now eexists |].
    destruct H as [H | H].
    + injection H as ->. rewrite Nat.eqb_refl in E. discriminate.
    + destruct (IH H) as [w ->]. simpl. now eexists.
  - destruct H as [H | H]; [discriminate |].
    destruct (IH H) as [w ->]. simpl. now eexists.
Qed.

(** What the factory does for the role "osd". *)
Lemma factory_osd (h : heap) (n : Node.t) :
  CephObjectFactory.create_ceph_object h n "osd" =
  match set_first_status NodeVolume.is_free NodeVolume.ALLOCATED (Node.volume_list n) with
  | Some vols => Ok (h ++ [CephOsd], CephNode.set_volumes n vols, Some (List.length h))
  | None =>
      Raise (RuntimeError
               (Node.vmname n ++
                " does not have 'no-of-volumes' key defined in the inventory file"))
  end.
Proof.
  unfold CephObjectFactory.create_ceph_object. cbn [String.eqb py_eq].
  change (String.eqb "osd" "installer") with false.
  change (String.eqb "osd" "osd") with true. cbv iota.
  destruct (set_first_status _ _ _) as [vols|] eqn:E.
  - destruct (0 <? _)%nat eqn:L; [reflexivity |].
    apply Nat.ltb_ge in L.
    assert (Hnil : Node.get_free_volumes n = [])
      by (destruct (Node.get_free_volumes n); [reflexivity | simpl in L; lia]).
    apply set_first_none with (s := NodeVolume.ALLOCATED) in Hnil. congruence.
  - apply set_first_none in E. unfold Node.get_free_volumes. rewrite E. reflexivity.
Qed.

(** What the factory does for any other role. *)
Lemma factory_other (h : heap) (n : Node.t) (role : string)
  (h' : heap) (n' : Node.t) (o : option ref) :
  role <> "osd" ->
  CephObjectFactory.create_ceph_object h n role = Ok (h', n', o) ->
  n' = n
  /\ ((o = None /\ h' = h)
      \/ exists x, CephObject.role x = role /\ h' = h ++ [x]
                   /\ o = Some (List.length h)).
Proof.
  intros Hrole. unfold CephObjectFactory.create_ceph_object.
  rewrite role_never_equals_CLIENT_ROLES.
  destruct (String.eqb role "osd") eqn:Eosd;
    [apply String.eqb_eq in Eosd; contradiction |].
  destruct (String.eqb role "installer");
    [| destruct (str_in role CephObjectFactory.DEMON_ROLES);
       [| destruct (String.eqb role "pool")]];
    cbn; intros H; injection H as <- <- <-; split; try reflexivity;
    first [ left; split; reflexivity
          | right; eexists; repeat split; reflexivity ].
Qed.

Lemma osd_weight_not_osd (x : CephObject.t) :
  CephObject.role x <> "osd" -> osd_weight x = 0%nat.
Proof.
  intros H. unfold osd_weight.
  destruct (String.eqb (CephObject.role x) "osd") eqn:E; [| reflexivity].
  apply String.eqb_eq in E. contradiction.
Qed.

(** [CephNode.create_ceph_object] keeps the node balanced. *)
Lemma create_preserves (h : heap) (n : Node.t) (role : string)
  (h' : heap) (n' : Node.t) (o : option ref) :
  node_inv h n ->
  CephNode.create_ceph_object h n role = Ok (h', n', o) ->
  node_inv h' n'.
Proof.
  intros [Hv Hc]. unfold CephNode.create_ceph_object.
  destruct (string_dec role "osd") as [-> | Hrole].
  - rewrite factory_osd.
    destruct (set_first_status _ _ _) as [vols|] eqn:E; [| discriminate].
    intros H. injection H as <- <- <-.
    destruct (set_first_allocates _ _ E) as (Ha & _ & _).
    split; cbn.
    + now apply refs_valid_snoc.
    + rewrite count_osds_app, count_osds_fresh, (count_osds_ext h [CephOsd]) by exact Hv.
      unfold Node.get_allocated_volumes in *. cbn. rewrite Ha, Hc.
      change (osd_weight CephOsd) with 1%nat. lia.
  - destruct (CephObjectFactory.create_ceph_object h n role)
      as [[[h1 n1] o1]|] eqn:E; [| discriminate].
    intros H. injection H as <- <- <-.
    destruct (factory_other _ _ _ _ _ _ Hrole E) as [-> [[-> ->] | (x & Hx & -> & ->)]].
    + split; cbn.
      * intros r Hr. apply in_app_or in Hr.
        destruct Hr as [Hr | [Hr | []]]; [now apply Hv | discriminate].
      * rewrite count_osds_app. cbn. rewrite Nat.add_0_r. exact Hc.
    + split; cbn.
      * now apply refs_valid_snoc.
      * rewrite count_osds_app, count_osds_fresh, (count_osds_ext h [x]) by exact Hv.
        rewrite osd_weight_not_osd by (rewrite Hx; exact Hrole).
        rewrite Nat.add_0_r. exact Hc.
Qed.

(** [CephNode.remove_ceph_object] keeps the node balanced, and on a
    balanced node it never fails to find the volume to free. *)
Lemma remove_preserves (h : heap) (n : Node.t) (r : ref)
  (n' : Node.t) (res : result unit) :
  node_inv h n ->
  CephNode.remove_ceph_object h n r = (n', res) ->
  node_inv h n' /\ (res = Ok tt \/ res = Raise ValueError).
Proof.
  intros [Hv Hc]. unfold CephNode.remove_ceph_object.
  destruct (list_remove r (Node.ceph_object_list n)) as [objs|] eqn:E.
  2:{ intros H. injection H as <- <-. split; [split; assumption | now right]. }
  assert (Hin : In (Some r) (Node.ceph_object_list n)) by exact (list_remove_In _ _ _ E).
  assert (Hr : (r < List.length h)%nat) by exact (Hv r Hin).
  unfold deref. destruct (nth_error h r) as [o|] eqn:Eo;
    [| apply nth_error_None in Eo; lia].
  destruct (list_remove_count h r o _ _ Eo E) as [Hcount Hsub].
  assert (Hv' : refs_valid h objs) by (intros x Hx; apply Hv, Hsub, Hx).
  unfold osd_weight in Hcount.
  destruct (String.eqb (CephObject.role o) "osd") eqn:Eosd.
  - cbn [CephNode.set_objects Node.volume_list].
    destruct (set_first_status _ _ _) as [vols|] eqn:Ev.
    + intros H. injection H as <- <-. split; [| now left].
      destruct (set_first_frees _ _ Ev) as (Ha & _ & _).
      split; cbn; [exact Hv' |].
      unfold Node.get_allocated_volumes in Hc. lia.
    + apply set_first_none in Ev.
      unfold Node.get_allocated_volumes in Hc. rewrite Ev in Hc. simpl in Hc. lia.
  - intros H. injection H as <- <-. split; [| now left].
    split; cbn; [exact Hv' |].
    unfold Node.get_allocated_volumes in Hc. cbn in Hc. lia.
Qed.

(** The comprehension of [__init__]: the store only grows, the new
    references are sound, and every "osd" role took one volume. *)
Lemma create_all_spec (roles : list string) :
  forall (h : heap) (n : Node.t) (h' : heap) (n' : Node.t) (objs : list (option ref)),
  CephNode.create_all h n roles = Ok (h', n', objs) ->
  (exists ext, h' = h ++ ext)
  /\ refs_valid h' objs
  /\ List.length (Node.get_allocated_volumes n')
     = (List.length (Node.get_allocated_volumes n) + count_osds h' objs)%nat
  /\ List.length (Node.volume_list n') = List.length (Node.volume_list n).
Proof.
  induction roles as [|role roles IH]; intros h n h' n' objs H; simpl in H.
  - injection H as <- <- <-. split; [exists []; now rewrite app_nil_r |].
    split; [intros r [] |]. split; [simpl; lia | reflexivity].
  - destruct (String.eqb role "pool"); simpl in H; [now apply IH |].
    destruct (CephObjectFactory.create_ceph_object h n role)
      as [[[h1 n1] o]|] eqn:E; [| discriminate].
    destruct (CephNode.create_all h1 n1 roles) as [[[h2 n2] os]|] eqn:E2;
      [| discriminate].
    injection H as <- <- <-.
    destruct (IH _ _ _ _ _ E2) as ([ext ->] & Hv & Ha & Hl).
    assert (Hstep :
      exists x, h1 = h ++ [x] /\ o = Some (List.length h)
                /\ List.length (Node.get_allocated_volumes n1)
                   = (List.length (Node.get_allocated_volumes n) + osd_weight x)%nat
                /\ List.length (Node.volume_list n1) = List.length (Node.volume_list n)
      \/ (h1 = h /\ o = None /\ n1 = n)).
    { destruct (string_dec role "osd") as [-> | Hrole].
      - rewrite factory_osd in E.
        destruct (set_first_status _ _ _) as [vols|] eqn:Ev; [| discriminate].
        injection E as <- <- <-.
        destruct (set_first_allocates _ _ Ev) as (Ha' & _ & Hl').
        exists CephOsd. left. repeat split; cbn.
        + unfold Node.get_allocated_volumes. cbn. rewrite Ha'.
          change (osd_weight CephOsd) with 1%nat. lia.
        + exact Hl'.
      - destruct (factory_other _ _ _ _ _ _ Hrole E)
          as [-> [[-> ->] | (x & Hx & -> & ->)]].
        + exists CephOsd. right. repeat split.
        + exists x. left. repeat split.
          rewrite osd_weight_not_osd by (rewrite Hx; exact Hrole). lia. }
    destruct Hstep as [x [(-> & -> & Ha1 & Hl1) | (-> & -> & ->)]].
    + split; [exists ([x] ++ ext); now rewrite app_assoc |].
      split.
      * intros r [Hr | Hr]; [| now apply Hv].
        injection Hr as <-. rewrite !length_app. simpl. lia.
      * split; [| congruence].
        assert (Hx : nth_error ((h ++ [x]) ++ ext) (List.length h) = Some x).
        { rewrite nth_error_app1 by (rewrite length_app; simpl; lia).
          rewrite nth_error_app2 by lia. now rewrite Nat.sub_diag. }
        cbn [count_osds]. rewrite Hx, Ha, Ha1.
        unfold osd_weight. destruct (String.eqb (CephObject.role x) "osd"); lia.
    + split; [now exists ext |].
      split; [intros r [Hr | Hr]; [discriminate | now apply Hv] |].
      split; [exact Ha | exact Hl].
Qed.

(** The loop of [__init__] keeps the node balanced. *)
Lemma fill_osds_preserves (fuel : nat) :
  forall (h : heap) (n : Node.t) (h' : heap) (n' : Node.t),
  node_inv h n ->
  CephNode.fill_osds fuel h n = Some (Ok (h', n')) ->
  node_inv h' n'.
Proof.
  induction fuel as [|fuel IH]; intros h n h' n' Hinv H; simpl in H; [discriminate |].
  destruct (Node.get_ceph_objects h n (Some "osd")) as [osds|]; [| discriminate].
  destruct ((0 <? List.length osds)%nat
            && (0 <? List.length (Node.get_free_volumes n))%nat).
  - destruct (CephObjectFactory.create_ceph_object h n "osd")
      as [[[h1 n1] o]|] eqn:E; [| discriminate].
    apply (IH _ _ _ _) in H; [exact H |].
    apply (create_preserves h n "osd" h1 _ o Hinv).
    unfold CephNode.create_ceph_object. rewrite E. reflexivity.
  - injection H as <- <-. exact Hinv.
Qed.

(** The loop of [__init__] ends: it needs one evaluation of its condition
    more than there are free volumes. *)
Lemma fill_osds_terminates (fuel : nat) :
  forall (h : heap) (n : Node.t),
  (List.length (Node.get_free_volumes n) < fuel)%nat ->
  exists r, CephNode.fill_osds fuel h n = Some r.
Proof.
  induction fuel as [|fuel IH]; intros h n Hfuel; [lia |]. simpl.
  destruct (Node.get_ceph_objects h n (Some "osd")) as [osds|]; [| now eexists].
  destruct ((0 <? List.length osds)%nat
            && (0 <? List.length (Node.get_free_volumes n))%nat); [| now eexists].
  rewrite factory_osd.
  destruct (set_first_status _ _ _) as [vols|] eqn:E; [| now eexists].
  apply IH. destruct (set_first_allocates _ _ E) as (_ & Hf & _).
  unfold Node.get_free_volumes in *. cbn. lia.
Qed.

Lemma initial_volumes_free (k : CephNode.kw) (vols : list NodeVolume.t) :
  CephNode.initial_volumes k = Ok vols ->
  filter NodeVolume.is_allocated vols = [].
Proof.
  unfold CephNode.initial_volumes.
  destruct (CephNode.no_of_volumes k =? 0)%Z; [intros H; now injection H as <- |].
  destruct (CephNode.ceph_vmnode k) as [vm|]; [| discriminate].
  destruct (String.eqb (CephNode.node_type vm) "baremetal"); intros H; injection H as <-.
  - induction (CephNode.volumes vm); [reflexivity | exact IHl].
  - induction (Z.to_nat (CephNode.no_of_volumes k)); [reflexivity | exact IHn].
Qed.

(** [__init__] always ends, by returning a node or by raising. *)
Lemma init_terminates (h0 : heap) (k : CephNode.kw) :
  exists r, CephNode.__init__ h0 k = Some r.
Proof.
  unfold CephNode.__init__.
  destruct (CephNode.initial_volumes k) as [vols|]; [| now eexists].
  destruct (CephNode.create_all _ _ _) as [[[h1 n1] objs]|] eqn:E; [| now eexists].
  apply fill_osds_terminates.
  destruct (create_all_spec _ _ _ _ _ _ E) as (_ & _ & _ & Hl). cbn in Hl.
  unfold Node.get_free_volumes. cbn.
  pose proof (filter_length_le NodeVolume.is_free (Node.volume_list n1)). lia.
Qed.

(** A node is balanced when [__init__] returns it. *)
Lemma init_establishes (h0 : heap) (k : CephNode.kw) (h : heap) (n : Node.t) :
  CephNode.__init__ h0 k = Some (Ok (h, n)) -> node_inv h n.
Proof.
  unfold CephNode.__init__.
  destruct (CephNode.initial_volumes k) as [vols|] eqn:Ev; [| discriminate].
  destruct (CephNode.create_all _ _ _) as [[[h1 n1] objs]|] eqn:E; [| discriminate].
  intros H. apply fill_osds_preserves in H; [exact H |].
  destruct (create_all_spec _ _ _ _ _ _ E) as (_ & Hv & Ha & _).
  split; cbn; [exact Hv |].
  unfold Node.get_allocated_volumes in *. cbn in *.
  rewrite (initial_volumes_free k vols Ev) in Ha. exact Ha.
Qed.

(** Every state a node goes through is balanced. *)
Lemma reachable_inv (h : heap) (n : Node.t) : reachable h n -> node_inv h n.
Proof.
  induction 1 as [h0 k h n H | h n role h' n' o _ IH H | h n r n' res _ IH H].
  - exact (init_establishes h0 k h n H).
  - exact (create_preserves h n role h' n' o IH H).
  - exact (proj1 (remove_preserves h n r n' res IH H)).
Qed.

(** The objects [get_ceph_objects("osd")] selects are the OSD objects. *)
Lemma select_osd_length (h : heap) (objs : list (option ref)) :
  forall l, Node.select_objects h objs (Some "osd") = Ok l ->
            List.length l = count_osds h objs.
Proof.
  induction objs as [|[r|] objs IH]; intros l H; simpl in H.
  - injection H as <-. reflexivity.
  - unfold deref in H. simpl. destruct (nth_error h r) as [o|]; [| discriminate].
    cbn [bind] in H.
    destruct (Node.select_objects h objs (Some "osd")) as [rs|]; [| discriminate].
    cbn [bind] in H. injection H as <-.
    unfold Node.role_matches. cbn [str_truthy negb]. rewrite orb_false_r.
    destruct (String.eqb (CephObject.role o) "osd"); simpl; now rewrite (IH rs).
  - discriminate.
Qed.

Lemma filter_refs_length (h : heap) (p : CephObject.t -> bool) (rs : list ref) :
  forall l, Node.filter_refs h p rs = Ok l -> (List.length l <= List.length rs)%nat.
Proof.
  induction rs as [|r rs IH]; intros l H; simpl in H.
  - injection H as <-. reflexivity.
  - destruct (deref h r) as [o|]; [| discriminate]. cbn [bind] in H.
    destruct (Node.filter_refs h p rs) as [rs'|]; [| discriminate].
    cbn [bind] in H. injection H as <-. specialize (IH rs' eq_refl).
    destruct (p o); simpl; lia.
Qed.

(** C7, as stated, fails: [__init__] of a node with the role "osd" and one
    volume leaves one allocated volume and an OSD role object that has no
    device yet and so is not active; the node has one allocated volume
    and no active OSD role object. *)
Lemma allocated_volume_without_active_osd :
  CephNode.__init__ [] Scenario.osd_node_kw
    = Some (Ok (Scenario.osd_heap, Scenario.osd_node))
  /\ reachable Scenario.osd_heap Scenario.osd_node
  /\ List.length (Node.get_allocated_volumes Scenario.osd_node) = 1%nat
  /\ Node.get_ceph_demons Scenario.osd_heap Scenario.osd_node (Some "osd") = Ok []
  /\ List.length (Node.get_allocated_volumes Scenario.osd_node)
     <> List.length (@nil ref).
Proof.
  assert (H : CephNode.__init__ [] Scenario.osd_node_kw
              = Some (Ok (Scenario.osd_heap, Scenario.osd_node))) by reflexivity.
  split; [exact H |].
  split; [exact (reach_init _ _ _ _ H) |].
  split; [reflexivity |].
  split; [reflexivity | discriminate].
Qed.

(** C7, amended: in every state a node goes through, from [__init__] on
    and across [create_ceph_object] and [remove_ceph_object], the number of
    allocated volumes equals the number of OSD role objects on the node,
    active or not, so the active ones never exceed the allocated volumes.
    Creating an OSD role object raises RuntimeError when no volume is
    free and otherwise allocates exactly one free volume; removing an OSD
    role object of the node frees exactly one allocated volume. *)
Theorem volumes_match_osd_objects (h : heap) (n : Node.t) :
  reachable h n ->
  List.length (Node.get_allocated_volumes n) = count_osds h (Node.ceph_object_list n)
  /\ (forall active,
        Node.get_ceph_demons h n (Some "osd") = Ok active ->
        (List.length active <= List.length (Node.get_allocated_volumes n))%nat)
  /\ (Node.get_free_volumes n = [] ->
      exists msg, CephNode.create_ceph_object h n "osd" = Raise (RuntimeError msg))
  /\ (Node.get_free_volumes n <> [] ->
      exists h' n' r,
        CephNode.create_ceph_object h n "osd" = Ok (h', n', Some r)
        /\ deref h' r = Ok CephOsd
        /\ List.length (Node.get_allocated_volumes n')
           = S (List.length (Node.get_allocated_volumes n))
        /\ S (List.length (Node.get_free_volumes n'))
           = List.length (Node.get_free_volumes n))
  /\ (forall r o,
        In (Some r) (Node.ceph_object_list n) ->
        deref h r = Ok o ->
        CephObject.role o = "osd" ->
        exists n',
          CephNode.remove_ceph_object h n r = (n', Ok tt)
          /\ S (List.length (Node.get_allocated_volumes n'))
             = List.length (Node.get_allocated_volumes n)
          /\ List.length (Node.get_free_volumes n')
             = S (List.length (Node.get_free_volumes n))).
Proof.
  intros R. destruct (reachable_inv h n R) as [Hv Hc].
  split; [exact Hc |].
  split.
  { intros active H. unfold Node.get_ceph_demons, Node.get_ceph_objects in H.
    destruct (Node.select_objects h (Node.ceph_object_list n) (Some "osd"))
      as [osds|] eqn:E; [| discriminate].
    cbn [bind] in H. apply filter_refs_length in H.
    apply select_osd_length in E. lia. }
  split.
  { intros Hfree. unfold CephNode.create_ceph_object. rewrite factory_osd.
    apply (set_first_none _ NodeVolume.ALLOCATED) in Hfree.
    rewrite Hfree. now eexists. }
  split.
  { intros Hfree. unfold CephNode.create_ceph_object. rewrite factory_osd.
    destruct (set_first_status _ _ _) as [vols|] eqn:E.
    - destruct (set_first_allocates _ _ E) as (Ha & Hf & _).
      eexists _, _, _. split; [reflexivity |].
      split.
      + unfold deref. rewrite nth_error_app2 by lia. now rewrite Nat.sub_diag.
      + split; [exact Ha | exact Hf].
    - apply set_first_none in E. contradiction. }
  intros r o Hin Ho Hrole.
  destruct (In_list_remove r _ Hin) as [objs Hrem].
  unfold CephNode.remove_ceph_object. rewrite Hrem, Ho, Hrole.
  change (String.eqb "osd" "osd") with true. cbv iota.
  cbn [CephNode.set_objects Node.volume_list].
  destruct (set_first_status _ _ _) as [vols|] eqn:E.
  - destruct (set_first_frees _ _ E) as (Ha & Hf & _).
    eexists. split; [reflexivity |]. split; [exact Ha | exact Hf].
  - exfalso. apply set_first_none in E.
    unfold deref in Ho. destruct (nth_error h r) as [o'|] eqn:Eo; [| discriminate].
    injection Ho as ->.
    destruct (list_remove_count h r o _ _ Eo Hrem) as [Hcount _].
    unfold osd_weight in Hcount. rewrite Hrole in Hcount.
    change (String.eqb "osd" "osd") with true in Hcount.
    unfold Node.get_allocated_volumes in Hc. rewrite E in Hc.
    cbv iota in Hcount. simpl in Hc. lia.
Qed.

(** C7 at work on the node [__init__] builds for one "osd" role and one
    volume. *)
Lemma volumes_match_osd_objects_witness :
  reachable Scenario.osd_heap Scenario.osd_node
  /\ List.length (Node.get_allocated_volumes Scenario.osd_node)
     = count_osds Scenario.osd_heap (Node.ceph_object_list Scenario.osd_node).
Proof.
  assert (R : reachable Scenario.osd_heap Scenario.osd_node).
  { apply (reach_init [] Scenario.osd_node_kw). reflexivity. }
  split; [exact R |].
  exact (proj1 (volumes_match_osd_objects Scenario.osd_heap Scenario.osd_node R)).
Defined.

(** ** Reading a stream *)

(** The loop of [read_stream] raises nothing but the timeout. *)
Lemma read_loop_raises_only_timeout (cs : list (list Byte.byte)) :
  forall clock k end_time timeout log out dec logged e,
  Stream.read_loop cs clock k end_time timeout log out dec logged = Raise e ->
  exists msg, e = TimeoutException msg.
Proof.
  induction cs as [|c cs IH]; intros clock k end_time timeout log out dec logged e H;
    simpl in H; [discriminate |].
  destruct c as [|b c]; [discriminate |].
  destruct (if log then _ else _) as [dec' msgs].
  destruct (Stream.check_timeout (clock k) end_time timeout) as [u|e'] eqn:E.
  - exact (IH _ _ _ _ _ _ _ _ _ H).
  - injection H as <-. unfold Stream.check_timeout in E.
    destruct (timeout && _); [| discriminate]. injection E as <-. now eexists.
Qed.

(** Without logging the loop leaves the decoder alone and gathers the
    bytes received. *)
Lemma read_loop_quiet (cs : list (list Byte.byte)) :
  forall clock k end_time timeout out dec logged out' dec' logged',
  Stream.read_loop cs clock k end_time timeout false out dec logged
    = Ok (out', dec', logged') ->
  out' = out ++ Stream.received cs /\ dec' = dec.
Proof.
  induction cs as [|c cs IH];
    intros clock k end_time timeout out dec logged out' dec' logged' H; simpl in H.
  - injection H as <- <- <-. simpl. now rewrite app_nil_r.
  - destruct c as [|b c].
    + injection H as <- <- <-. simpl. now rewrite app_nil_r.
    + destruct (Stream.check_timeout (clock k) end_time timeout); [| discriminate].
      apply IH in H. destruct H as [-> ->].
      split; [| reflexivity].
      cbn [Stream.received]. now rewrite app_assoc.
Qed.

(** [read_stream] never raises a decoding error: all it can raise is the
    timeout. *)
Lemma read_stream_raises_only_timeout (ch : Stream.channel) (end_time : Z)
  (timeout log : bool) (e : exn) :
  Stream.read_stream ch end_time timeout log = Raise e ->
  exists msg, e = TimeoutException msg.
Proof.
  unfold Stream.read_stream.
  destruct (Stream.read_loop _ _ _ _ _ _ _ _ _) as [[[o d] l]|e'] eqn:E;
    [discriminate |].
  intros H. injection H as <-. exact (read_loop_raises_only_timeout _ _ _ _ _ _ _ _ _ _ E).
Qed.

(** A read against a deadline that has passed raises the timeout. *)
Lemma read_stream_raises_only_timeout_witness :
  Stream.read_stream Cases.late_channel 10 true true
  = Raise (TimeoutException "Command exceed the allocated execution time.")
  /\ exists msg,
       TimeoutException "Command exceed the allocated execution time."
       = TimeoutException msg.
Proof.
  split; [reflexivity |].
  apply (read_stream_raises_only_timeout Cases.late_channel 10 true true).
  reflexivity.
Defined.

(** X1: when it does not log, [read_stream] returns the replace-mode decoding
    of all the bytes received. *)
Lemma read_stream_quiet_decodes_received (ch : Stream.channel) (end_time : Z)
  (timeout : bool) (s : Utf8.text) (logged : list Utf8.text) :
  Stream.read_stream ch end_time timeout false = Ok (s, logged) ->
  s = Utf8.decode_replace (Stream.received (Stream.chunks ch)).
Proof.
  unfold Stream.read_stream.
  destruct (Stream.read_loop _ _ _ _ _ _ _ _ _) as [[[o d] l]|e'] eqn:E;
    [| discriminate].
  apply read_loop_quiet in E. destruct E as [-> ->].
  intros H. injection H as <- _.
  unfold Utf8.decode, Utf8.decode_replace. cbn [Utf8.buffer Utf8.new_decoder app].
  now destruct (Utf8.utf_8_decode _ true).
Qed.

(** A quiet read of "ab" and "c". *)
Lemma read_stream_quiet_decodes_received_witness :
  Stream.read_stream Cases.prompt_channel 10 true false = Ok ([97%N; 98%N; 99%N], [])
  /\ [97%N; 98%N; 99%N]
     = Utf8.decode_replace (Stream.received (Stream.chunks Cases.prompt_channel)).
Proof.
  split; [reflexivity |].
  apply (read_stream_quiet_decodes_received Cases.prompt_channel 10 true
           [97%N; 98%N; 99%N] []).
  reflexivity.
Defined.

(** C4 fails in the code when lines are logged, which is the default: the
    decoder that logs the lines keeps the bytes of an unfinished character
    and the final decode puts them in front of the whole output.  For a
    stream that delivers the single byte 0xC3, [read_stream] returns two
    replacement characters where the replace-mode decoding of the bytes
    received is one. *)
Theorem read_stream_logging_repeats_pending_bytes :
  Stream.read_stream Scenario.truncated_channel 0 false true
    = Ok ([Utf8.REPLACEMENT; Utf8.REPLACEMENT], [[]])
  /\ Utf8.decode_replace (Stream.received (Stream.chunks Scenario.truncated_channel))
     = [Utf8.REPLACEMENT]
  /\ Stream.read_stream Scenario.truncated_channel 0 false false
     = Ok ([Utf8.REPLACEMENT], []).
Proof. repeat split; vm_compute; reflexivity. Qed.

(** *** The fuel of the models is enough *)

Section DecoderFuel.

Import Utf8.

(** A step of the decoder consumes at least one of the bytes at hand
    and never more than there are. *)
Lemma decode_step_len (b0 : N) (rest : list N) :
  match decode_step b0 rest with
  | Char _ len | Invalid len => (1 <= len <= S (List.length rest))%nat
  | Incomplete => True
  end.
Proof.
  unfold decode_step.
  repeat match goal with
         | |- context [if ?b then _ else _] => destruct b
         | |- context [match ?l with [] => _ | _ :: _ => _ end] => destruct l
         end; simpl; try exact I; lia.
Qed.

(** More fuel than the data has bytes changes nothing. *)
Lemma decode_loop_fuel (final : bool) (fuel : nat) :
  forall data, (List.length data <= fuel)%nat ->
  decode_loop fuel data final = decode_loop (List.length data) data final.
Proof.
  induction fuel as [fuel IH] using lt_wf_ind. intros data Hlen.
  destruct data as [|b0 rest]; [now destruct fuel |].
  destruct fuel as [|fuel]; [simpl in Hlen; lia |].
  cbn [decode_loop List.length].
  pose proof (decode_step_len b0 rest) as Hstep.
  destruct (decode_step b0 rest) as [cp len | len |]; [| | reflexivity].
  - assert (Hs : (List.length (skipn len (b0 :: rest)) <= List.length rest)%nat)
      by (rewrite length_skipn; cbn [List.length]; lia).
    rewrite (IH fuel) by (simpl in Hlen; lia).
    rewrite (IH (List.length rest)) by (simpl in Hlen; lia).
    reflexivity.
  - destruct (negb final && truncated_surrogate (b0 :: rest)); [reflexivity |].
    assert (Hs : (List.length (skipn len (b0 :: rest)) <= List.length rest)%nat)
      by (rewrite length_skipn; cbn [List.length]; lia).
    rewrite (IH fuel) by (simpl in Hlen; lia).
    rewrite (IH (List.length rest)) by (simpl in Hlen; lia).
    reflexivity.
Qed.

(** Final decoding consumes all the data: nothing is left undecoded. *)
Lemma decode_loop_final_consumes (fuel : nat) :
  forall data, (List.length data <= fuel)%nat ->
  snd (decode_loop fuel data true) = List.length data.
Proof.
  induction fuel as [fuel IH] using lt_wf_ind. intros data Hlen.
  destruct data as [|b0 rest]; [now destruct fuel |].
  destruct fuel as [|fuel]; [simpl in Hlen; lia |].
  cbn [decode_loop].
  pose proof (decode_step_len b0 rest) as Hstep.
  destruct (decode_step b0 rest) as [cp len | len |]; [| | reflexivity].
  - assert (Hs : List.length (skipn len (b0 :: rest)) = (S (List.length rest) - len)%nat)
      by (rewrite length_skipn; reflexivity).
    specialize (IH fuel (Nat.lt_succ_diag_r fuel) (skipn len (b0 :: rest))).
    destruct (decode_loop fuel (skipn len (b0 :: rest)) true) as [s n].
    cbn [snd] in *. rewrite IH by (cbn [List.length] in *; lia).
    cbn [List.length] in *. lia.
  - cbn [negb andb].
    assert (Hs : List.length (skipn len (b0 :: rest)) = (S (List.length rest) - len)%nat)
      by (rewrite length_skipn; reflexivity).
    specialize (IH fuel (Nat.lt_succ_diag_r fuel) (skipn len (b0 :: rest))).
    destruct (decode_loop fuel (skipn len (b0 :: rest)) true) as [s n].
    cbn [snd] in *. rewrite IH by (cbn [List.length] in *; lia).
    cbn [List.length] in *. lia.
Qed.

End DecoderFuel.

(** ** Establishing a connection *)

Section ConnectFacts.

Import SSHConnectionManager.

Lemma failures_app (xs ys : list Z) :
  failures (xs ++ ys) = failures xs ++ failures ys.
Proof. induction xs as [|x xs IH]; simpl; [reflexivity | now rewrite IH]. Qed.



End ConnectFacts.

(** ** Executing a command *)


Section ExecutorFacts.

Import Executor.





End ExecutorFacts.

(** ** The health check *)

(** The polling loop ends: a turn that goes on costs at least the five
    seconds of sleep. *)
Lemma poll_terminates (rm : Health.remote) (client : option ref) (c : string)
  (starttime timeout : Z) (fuel : nat) :
  forall (st : Health.state) (out : string),
  (1 <= fuel)%nat ->
  (timeout - (Health.now st - starttime) < 5 * (Z.of_nat fuel - 1))%Z ->
  exists r, Health.poll fuel rm client c starttime timeout st out = Some r.
Proof.
  induction fuel as [|fuel IH]; intros st out Hpos Hfuel.
  - lia.
  - cbn [Health.poll].
    destruct (Health.now st - starttime <=? timeout)%Z eqn:Hnow; [| now eexists].
    apply Z.leb_le in Hnow.
    destruct (Health.exec rm client c st) as [[o st1]|e] eqn:E; [| now eexists].
    destruct (negb _ && _); [now eexists |].
    unfold Health.exec in E. destruct client; [| discriminate].
    destruct (Health.reply rm (Health.calls st) c); [| discriminate].
    injection E as _ <-.
    pose proof (N2Z.is_nonneg (Health.took rm (Health.calls st))).
    apply IH; [lia |].
    cbn [Health.now Health.sleep]. lia.
Qed.

(** [check_health] always comes to an end. *)
Lemma check_health_terminates (h : heap) (self : Ceph.t) (rm : Health.remote)
  (rhbuild cluster_name : option string) (client : option ref) (timeout : Z)
  (st : Health.state) :
  exists r, Health.check_health h self rm rhbuild cluster_name client timeout st = Some r.
Proof.
  unfold Health.check_health.
  destruct (Health.default_client h self client) as [cl|]; [| now eexists].
  match goal with
  | |- context [Health.poll ?f ?rm ?cl ?c ?s ?t ?st ?o] =>
      destruct (poll_terminates rm cl c s t f st o) as [r Hr]; [lia | lia | rewrite Hr]
  end.
  destruct r as [[out st1]|e]; [| now eexists].
  destruct (negb (Health.all_in Health.valid_states out)); [now eexists |].
  destruct (Health.osd_check rm cl cluster_name rhbuild st1) as [[v st2]|e];
    [| now eexists].
  destruct (negb (Health.is_pacific rhbuild)).
  - destruct (Health.exec rm cl _ st2) as [[o st3]|e]; now eexists.
  - destruct (contains "HEALTH_ERR" out); now eexists.
Qed.

(** The scenario of the specification with all six OSDs up and in: the
    check returns 0. *)
Lemma healthy_counts_return_0 :
  Health.check_health Scenario.health_heap Scenario.health_cluster
    Scenario.healthy_remote (Some "4.3") None None 300 Scenario.health_start
  = Some (Ok (0%Z,
              {| Health.calls := 3; Health.now := 3%Z;
                 Health.issued := ["ceph -s"; "ceph -s -f json";
                                   "ceph quorum_status -f json"] |})).
Proof. vm_compute. reflexivity. Qed.

(** C1 fails in the code: [check_health] calls [osd_check] and drops what
    it returns.  On a cluster of three monitors (all in quorum) whose
    status shows active+clean and six OSDs of which five are up and six
    in, [osd_check] returns 1 and [check_health] returns 0. *)
Theorem check_health_ignores_osd_check :
  Health.osd_check Scenario.degraded_remote (Some 3%nat) None (Some "4.3")
    Scenario.health_start
  = Ok (Some 1%Z,
        {| Health.calls := 1; Health.now := 1%Z;
           Health.issued := ["ceph -s -f json"] |})
  /\ Health.check_health Scenario.health_heap Scenario.health_cluster
       Scenario.degraded_remote (Some "4.3") None None 300 Scenario.health_start
     = Some (Ok (0%Z,
                 {| Health.calls := 3; Health.now := 3%Z;
                    Health.issued := ["ceph -s"; "ceph -s -f json";
                                      "ceph quorum_status -f json"] |})).
Proof. split; vm_compute; reflexivity. Qed.

(** ** The upgrade workflow *)

Section UpgradeFacts.

Import Upgrade.


Lemma emits_ret (P : event -> Prop) {A : Type} (a : A) : emits P (ret a).
Proof. intros tr. exists []. cbn. now rewrite app_nil_r. Qed.

Lemma emits_raise (P : event -> Prop) {A : Type} (e : exn) : emits P (@raise A e).
Proof. intros tr. exists []. cbn. now rewrite app_nil_r. Qed.

Lemma emits_lift (P : event -> Prop) {A : Type} (r : result A) : emits P (lift r).
Proof. intros tr. exists []. cbn. now rewrite app_nil_r. Qed.

Lemma emits_call (P : event -> Prop) {A : Type} (ev : event) (r : result A) :
  P ev -> emits P (call ev r).
Proof. intros H tr. exists [ev]. cbn. split; [reflexivity | now constructor]. Qed.

Lemma emits_bind (P : event -> Prop) {A B : Type} (m : M A) (k : A -> M B) :
  emits P m -> (forall a, emits P (k a)) -> emits P (mbind m k).
Proof.
  intros Hm Hk tr. unfold mbind.
  destruct (Hm tr) as (evs & Htr & Hall).
  destruct (m tr) as [[a | e] tr1]; cbn in Htr; subst tr1.
  - destruct (Hk a (tr ++ evs)) as (evs' & Htr' & Hall').
    exists (evs ++ evs'). rewrite Htr', app_assoc. split; [reflexivity |].
    apply Forall_app. now split.
  - exists evs. now split.
Qed.













(** In that run the workflow returns 1. *)
Lemma run_failing_start_returns_1 :
  fst (run Scenario.upgrade_heap Scenario.upgrade_cluster Scenario.failing_start
         Scenario.upgrade_kwargs) = Ok 1%Z.
Proof. vm_compute. reflexivity. Qed.

End UpgradeFacts.

(* ================================================================== *)
(** * Further properties *)
(* ================================================================== *)

(** ** Reading ASCII output *)

Section AsciiStreams.

Import Utf8.

(** ASCII data decodes to itself, whole, final or not. *)
Lemma decode_loop_ascii (final : bool) (data : list N) :
  forall fuel, (List.length data <= fuel)%nat ->
  Forall (fun b => b < 0x80)%N data ->
  decode_loop fuel data final = (data, List.length data).
Proof.
  induction data as [|b data IH]; intros fuel Hfuel Hall.
  - now destruct fuel.
  - destruct fuel as [|fuel]; [simpl in Hfuel; lia |].
    inversion Hall as [|? ? Hb Hrest]; subst.
    cbn [decode_loop]. unfold decode_step.
    apply N.ltb_lt in Hb. rewrite Hb. cbn [skipn].
    rewrite IH; [reflexivity | simpl in Hfuel; lia | assumption].
Qed.

Lemma decode_ascii (input : list Byte.byte) (final : bool) :
  Forall is_ascii input ->
  decode new_decoder input final = (map Byte.to_N input, new_decoder).
Proof.
  intros Hall. unfold decode, utf_8_decode. cbn [buffer new_decoder app].
  rewrite decode_loop_ascii.
  - rewrite length_map, skipn_all. reflexivity.
  - reflexivity.
  - apply Forall_map. exact Hall.
Qed.

Lemma splitlines_from_ascii_bounded (n : nat) :
  forall data cur, (List.length data <= n)%nat ->
  Forall is_ascii cur -> Forall is_ascii data ->
  Forall (Forall is_ascii) (splitlines_from cur data).
Proof.
  induction n as [|n IH]; intros data cur Hlen Hcur Hdata;
    assert (Hrev : Forall is_ascii (rev cur)) by (apply Forall_rev; exact Hcur).
  - destruct data; [| simpl in Hlen; lia].
    simpl. destruct cur; constructor; [exact Hrev | constructor].
  - destruct data as [|b data].
    + simpl. destruct cur; constructor; [exact Hrev | constructor].
    + inversion Hdata as [|? ? Hb Hrest]; subst. simpl in Hlen.
      cbn [splitlines_from].
      destruct (Byte.eqb b Byte.x0a).
      * constructor; [exact Hrev |]. apply IH; [lia | constructor | exact Hrest].
      * destruct (Byte.eqb b Byte.x0d).
        -- destruct data as [|b' rest'].
           ++ constructor; [exact Hrev |].
              apply IH; [simpl; lia | constructor | exact Hrest].
           ++ inversion Hrest as [|? ? Hb' Hrest']; subst. simpl in Hlen.
              destruct (Byte.eqb b' Byte.x0a).
              ** constructor; [exact Hrev |].
                 apply IH; [lia | constructor | exact Hrest'].
              ** constructor; [exact Hrev |].
                 apply IH; [simpl; lia | constructor | exact Hrest].
        -- apply IH; [lia | constructor; assumption | exact Hrest].
Qed.

Lemma splitlines_from_ascii (data cur : list Byte.byte) :
  Forall is_ascii cur -> Forall is_ascii data ->
  Forall (Forall is_ascii) (splitlines_from cur data).
Proof. apply (splitlines_from_ascii_bounded (List.length data)). reflexivity. Qed.

(** Logging ASCII lines leaves nothing in the decoder. *)
Lemma log_lines_ascii (lines : list (list Byte.byte)) :
  Forall (Forall is_ascii) lines ->
  fst (Stream.log_lines new_decoder lines) = new_decoder.
Proof.
  induction 1 as [|ln lines Hln _ IH]; [reflexivity |].
  cbn [Stream.log_lines]. rewrite (decode_ascii ln false Hln).
  destruct (Stream.log_lines new_decoder lines) as [d msgs]. exact IH.
Qed.

Lemma read_loop_ascii (cs : list (list Byte.byte)) :
  forall clock k end_time timeout log out logged out' dec' logged',
  Forall (Forall is_ascii) cs ->
  Stream.read_loop cs clock k end_time timeout log out new_decoder logged
    = Ok (out', dec', logged') ->
  out' = out ++ Stream.received cs /\ dec' = new_decoder.
Proof.
  induction cs as [|c cs IH];
    intros clock k end_time timeout log out logged out' dec' logged' Hall H;
    simpl in H.
  - injection H as <- <- <-. simpl. now rewrite app_nil_r.
  - inversion Hall as [|? ? Hc Hcs]; subst.
    destruct c as [|b c].
    + injection H as <- <- <-. simpl. now rewrite app_nil_r.
    + assert (Hdec : fst (if log
                          then Stream.log_lines new_decoder (splitlines (b :: c))
                          else (new_decoder, [])) = new_decoder).
      { destruct log; [| reflexivity].
        apply log_lines_ascii, splitlines_from_ascii; [constructor | exact Hc]. }
      destruct (if log then _ else _) as [d msgs]. cbn [fst] in Hdec. subst d.
      destruct (Stream.check_timeout (clock k) end_time timeout); [| discriminate].
      apply IH in H; [| exact Hcs]. destruct H as [-> ->].
      split; [| reflexivity].
      cbn [Stream.received]. now rewrite app_assoc.
Qed.

(** X2: on a stream of ASCII bytes [read_stream] returns exactly the
    characters received, whether it logs the lines or not. *)
Theorem read_stream_ascii (ch : Stream.channel) (end_time : Z) (timeout log : bool)
  (s : text) (logged : list text) :
  Forall (Forall is_ascii) (Stream.chunks ch) ->
  Stream.read_stream ch end_time timeout log = Ok (s, logged) ->
  s = map Byte.to_N (Stream.received (Stream.chunks ch)).
Proof.
  intros Hall. unfold Stream.read_stream.
  destruct (Stream.read_loop _ _ _ _ _ _ _ _ _) as [[[o d] l]|e'] eqn:E;
    [| discriminate].
  apply read_loop_ascii in E; [| exact Hall]. destruct E as [-> ->].
  intros H. injection H as <- _. cbn [app].
  rewrite decode_ascii; [reflexivity |].
  clear -Hall. induction Hall as [|c cs Hc _ IH]; [constructor |].
  destruct c as [|b c]; [constructor |].
  cbn [Stream.received]. apply Forall_app. split; assumption.
Qed.

(** "ab" and "c", logged. *)
Lemma read_stream_ascii_witness :
  Forall (Forall is_ascii) (Stream.chunks Cases.prompt_channel)
  /\ Stream.read_stream Cases.prompt_channel 10 true true
     = Ok ([97%N; 98%N; 99%N], [[97%N; 98%N]; [99%N]])
  /\ [97%N; 98%N; 99%N]
     = map Byte.to_N (Stream.received (Stream.chunks Cases.prompt_channel)).
Proof.
  assert (H : Forall (Forall is_ascii) (Stream.chunks Cases.prompt_channel)).
  { repeat constructor. }
  split; [exact H |]. split; [reflexivity |].
  apply (read_stream_ascii Cases.prompt_channel 10 true true
           [97%N; 98%N; 99%N] [[97%N; 98%N]; [99%N]] H).
  reflexivity.
Defined.

End AsciiStreams.

(** ** Building a node, adding and removing role objects *)

(** When the loop of [__init__] is over, no OSD object is left wanting
    while a volume is free. *)
Lemma fill_osds_exhausts (fuel : nat) :
  forall (h : heap) (n : Node.t) (h' : heap) (n' : Node.t),
  CephNode.fill_osds fuel h n = Some (Ok (h', n')) ->
  count_osds h' (Node.ceph_object_list n') = 0%nat \/ Node.get_free_volumes n' = [].
Proof.
  induction fuel as [|fuel IH]; intros h n h' n' H; simpl in H; [discriminate |].
  destruct (Node.get_ceph_objects h n (Some "osd")) as [osds|] eqn:Eo; [| discriminate].
  destruct (0 <? List.length osds)%nat eqn:E1.
  - destruct (0 <? List.length (Node.get_free_volumes n))%nat eqn:E2; cbn [andb] in H.
    + destruct (CephObjectFactory.create_ceph_object h n "osd")
        as [[[h1 n1] o]|]; [| discriminate].
      exact (IH _ _ _ _ H).
    + injection H as <- <-. right. apply Nat.ltb_ge in E2.
      destruct (Node.get_free_volumes n); [reflexivity | simpl in E2; lia].
  - cbn [andb] in H. injection H as <- <-. left.
    apply select_osd_length in Eo. apply Nat.ltb_ge in E1. lia.
Qed.

(** X3: [CephNode.__init__] always comes to an end.  The node it returns
    has as many allocated volumes as OSD role objects, and if it has an
    OSD role object at all it has no free volume left: the OSD role takes
    every volume of the node. *)
Theorem init_takes_every_volume (h0 : heap) (k : CephNode.kw) :
  exists r,
    CephNode.__init__ h0 k = Some r
    /\ forall h n, r = Ok (h, n) ->
         List.length (Node.get_allocated_volumes n)
         = count_osds h (Node.ceph_object_list n)
         /\ ((0 < count_osds h (Node.ceph_object_list n))%nat ->
             Node.get_free_volumes n = []).
Proof.
  destruct (init_terminates h0 k) as [r Hr]. exists r. split; [exact Hr |].
  intros h n ->. split.
  - exact (proj2 (init_establishes h0 k h n Hr)).
  - intros Hpos. unfold CephNode.__init__ in Hr.
    destruct (CephNode.initial_volumes k) as [vols|]; [| discriminate].
    destruct (CephNode.create_all _ _ _) as [[[h1 n1] objs]|]; [| discriminate].
    destruct (fill_osds_exhausts _ _ _ _ _ Hr) as [Hz | Hfree]; [lia | exact Hfree].
Qed.

Lemma list_remove_absent (r : ref) (objs : list (option ref)) :
  ~ In (Some r) objs -> list_remove r objs = None.
Proof.
  intros Hnot. destruct (list_remove r objs) as [objs'|] eqn:E; [| reflexivity].
  elim Hnot. exact (list_remove_In r objs objs' E).
Qed.

(** X4: removing a role object that is not on the node raises ValueError
    and leaves the node as it was: no volume is freed. *)
Theorem remove_absent_object (h : heap) (n : Node.t) (r : ref) :
  ~ In (Some r) (Node.ceph_object_list n) ->
  CephNode.remove_ceph_object h n r = (n, Raise ValueError).
Proof.
  intros Hnot. unfold CephNode.remove_ceph_object.
  now rewrite (list_remove_absent r _ Hnot).
Qed.

(** On the node with one OSD object, removing an object it never had. *)
Lemma remove_absent_object_witness :
  ~ In (Some 7%nat) (Node.ceph_object_list Scenario.osd_node)
  /\ CephNode.remove_ceph_object Scenario.osd_heap Scenario.osd_node 7%nat
     = (Scenario.osd_node, Raise ValueError).
Proof.
  assert (H : ~ In (Some 7%nat) (Node.ceph_object_list Scenario.osd_node)).
  { simpl. intros [H | []]. discriminate H. }
  split; [exact H |].
  exact (remove_absent_object Scenario.osd_heap Scenario.osd_node 7%nat H).
Defined.

Lemma list_remove_snoc (r : ref) (objs : list (option ref)) :
  ~ In (Some r) objs -> list_remove r (objs ++ [Some r]) = Some objs.
Proof.
  induction objs as [|e objs IH]; intros Hnot; simpl.
  - now rewrite Nat.eqb_refl.
  - destruct e as [r'|].
    + destruct (Nat.eqb r' r) eqn:E.
      * apply Nat.eqb_eq in E. subst. elim Hnot. now left.
      * rewrite IH by (intros Hin; apply Hnot; now right). reflexivity.
    + rewrite IH by (intros Hin; apply Hnot; now right). reflexivity.
Qed.

(** X5: on a node in any state it goes through, removing a role object
    right after creating it gives back the list of role objects and the
    numbers of free and of allocated volumes the node had before. *)
Theorem create_then_remove (h : heap) (n : Node.t) (role : string)
  (h' : heap) (n' : Node.t) (r : ref) :
  reachable h n ->
  CephNode.create_ceph_object h n role = Ok (h', n', Some r) ->
  exists n'',
    CephNode.remove_ceph_object h' n' r = (n'', Ok tt)
    /\ Node.ceph_object_list n'' = Node.ceph_object_list n
    /\ List.length (Node.get_allocated_volumes n'')
       = List.length (Node.get_allocated_volumes n)
    /\ List.length (Node.get_free_volumes n'')
       = List.length (Node.get_free_volumes n).
Proof.
  intros R. destruct (reachable_inv h n R) as [Hv _].
  assert (Hfresh : ~ In (Some (List.length h)) (Node.ceph_object_list n)).
  { intros Hin. specialize (Hv _ Hin). lia. }
  unfold CephNode.create_ceph_object.
  destruct (string_dec role "osd") as [-> | Hrole].
  - rewrite factory_osd.
    destruct (set_first_status _ _ _) as [vols|] eqn:E; [| discriminate].
    intros H. injection H as <- <- <-.
    destruct (set_first_allocates _ _ E) as (Ha & Hf & _).
    match goal with
    | |- exists n'', ?rm = _ /\ _ => destruct rm as [n'' res] eqn:Hrm
    end.
    exists n''. unfold CephNode.remove_ceph_object in Hrm.
    cbn [CephNode.set_objects CephNode.set_volumes Node.ceph_object_list
         Node.volume_list Node.vmname] in Hrm.
    pose proof (list_remove_snoc _ _ Hfresh) as Hls.
    unfold ref in Hls, Hrm. rewrite Hls in Hrm.
    unfold deref in Hrm. rewrite nth_error_app2 in Hrm by lia.
    rewrite Nat.sub_diag in Hrm.
    cbn [nth_error CephOsd CephObject.role] in Hrm.
    change (String.eqb "osd" "osd") with true in Hrm. cbv iota in Hrm.
    destruct (set_first_status NodeVolume.is_allocated NodeVolume.FREE vols)
      as [vols'|] eqn:E'.
    + destruct (set_first_frees _ _ E') as (Ha' & Hf' & _).
      injection Hrm as <- <-. split; [reflexivity |].
      unfold Node.get_allocated_volumes, Node.get_free_volumes in *.
      cbn. repeat split; lia.
    + apply set_first_none in E'. rewrite E' in Ha. simpl in Ha. lia.
  - destruct (CephObjectFactory.create_ceph_object h n role)
      as [[[h1 n1] o1]|] eqn:E; [| discriminate].
    intros H. injection H as <- <- ->.
    destruct (factory_other _ _ _ _ _ _ Hrole E)
      as [-> [[Hnone _] | (x & Hx & -> & Hr)]]; [discriminate |].
    injection Hr as ->.
    match goal with
    | |- exists n'', ?rm = _ /\ _ => destruct rm as [n'' res] eqn:Hrm
    end.
    exists n''. unfold CephNode.remove_ceph_object in Hrm.
    cbn [CephNode.set_objects Node.ceph_object_list Node.volume_list Node.vmname]
      in Hrm.
    pose proof (list_remove_snoc _ _ Hfresh) as Hls.
    unfold ref in Hls, Hrm. rewrite Hls in Hrm.
    unfold deref in Hrm. rewrite nth_error_app2 in Hrm by lia.
    rewrite Nat.sub_diag in Hrm. cbn [nth_error] in Hrm.
    destruct (String.eqb (CephObject.role x) "osd") eqn:Eosd.
    + apply String.eqb_eq in Eosd. congruence.
    + injection Hrm as <- <-. repeat split.
Qed.

(** On the node with one OSD object: a monitor is added, then removed. *)
Lemma create_then_remove_witness :
  reachable Scenario.osd_heap Scenario.osd_node
  /\ CephNode.create_ceph_object Scenario.osd_heap Scenario.osd_node "mon"
     = Ok (Scenario.osd_heap ++ [CephDemon "mon"],
           CephNode.set_objects Scenario.osd_node [Some 0%nat; Some 1%nat],
           Some 1%nat)
  /\ exists n'',
       CephNode.remove_ceph_object (Scenario.osd_heap ++ [CephDemon "mon"])
         (CephNode.set_objects Scenario.osd_node [Some 0%nat; Some 1%nat]) 1%nat
       = (n'', Ok tt)
       /\ Node.ceph_object_list n'' = Node.ceph_object_list Scenario.osd_node
       /\ List.length (Node.get_allocated_volumes n'')
          = List.length (Node.get_allocated_volumes Scenario.osd_node)
       /\ List.length (Node.get_free_volumes n'')
          = List.length (Node.get_free_volumes Scenario.osd_node).
Proof.
  assert (R : reachable Scenario.osd_heap Scenario.osd_node).
  { apply (reach_init [] Scenario.osd_node_kw). reflexivity. }
  split; [exact R |]. split; [reflexivity |].
  apply (create_then_remove Scenario.osd_heap Scenario.osd_node "mon" _ _ 1%nat R).
  reflexivity.
Defined.

(** ** Queries on the cluster *)

Lemma filter_nodes_filter (h : heap) (test : RolesContainer.t -> bool)
  (nodes : list Node.t) :
  forall l, Ceph.filter_nodes h test nodes = Ok l ->
  l = filter (fun n => match Node.role h n with
                       | Ok rc => test rc
                       | Raise _ => false
                       end) nodes
  /\ forall n, In n nodes -> exists rc, Node.role h n = Ok rc.
Proof.
  induction nodes as [|n nodes IH]; intros l H; simpl in H.
  - injection H as <-. split; [reflexivity | intros n []].
  - destruct (Node.role h n) as [rc|] eqn:Er; [| discriminate]. cbn [bind] in H.
    destruct (Ceph.filter_nodes h test nodes) as [ns|]; [| discriminate].
    cbn [bind] in H. injection H as <-.
    destruct (IH ns eq_refl) as [-> Hall]. split.
    + simpl. rewrite Er. reflexivity.
    + intros m [<- | Hm]; [now exists rc | now apply Hall].
Qed.

Lemma filter_negb_length {A : Type} (f : A -> bool) (l : list A) :
  (List.length (filter f l) + List.length (filter (fun x => negb (f x)) l)
   = List.length l)%nat.
Proof.
  induction l as [|x l IH]; [reflexivity |].
  simpl. destruct (f x); simpl; lia.
Qed.

(** X6: for a role that is given, [get_nodes(role)] and
    [get_nodes(ignore=role)] split the node list in two: the first keeps,
    in order, the nodes whose role container equals the role, the second
    keeps the others, and no node is lost or listed twice. *)
Theorem get_nodes_role_and_ignore_partition (h : heap) (c : Ceph.t) (r : pyval)
  (a b : list Node.t) :
  Ceph.arg_truthy (Some r) = true ->
  Ceph.get_nodes h c (Some r) None = Ok a ->
  Ceph.get_nodes h c None (Some r) = Ok b ->
  a = filter (has_role h r) (Ceph.node_list c)
  /\ b = filter (fun n => negb (has_role h r n)) (Ceph.node_list c)
  /\ (List.length a + List.length b = List.length (Ceph.node_list c))%nat.
Proof.
  intros Ht Ha Hb. unfold Ceph.get_nodes in Ha, Hb. rewrite Ht in Ha, Hb.
  cbn [Ceph.arg_truthy] in Hb.
  apply filter_nodes_filter in Ha. destruct Ha as [-> Hroles].
  apply filter_nodes_filter in Hb. destruct Hb as [-> _].
  assert (Hb' : filter (fun n => match Node.role h n with
                                 | Ok rc => RolesContainer.__ne__ rc r
                                 | Raise _ => false
                                 end) (Ceph.node_list c)
                = filter (fun n => negb (has_role h r n)) (Ceph.node_list c)).
  { apply filter_ext_in. intros n Hn. unfold has_role.
    destruct (Hroles n Hn) as [rc ->]. reflexivity. }
  rewrite Hb'. split; [reflexivity |]. split; [reflexivity |].
  exact (filter_negb_length (has_role h r) (Ceph.node_list c)).
Qed.

(** On the cluster with a monitor, a client and an installer node. *)
Lemma get_nodes_role_and_ignore_partition_witness :
  Ceph.arg_truthy (Some (PyStr "mon")) = true
  /\ Ceph.get_nodes Scenario.upgrade_heap Scenario.upgrade_cluster
       (Some (PyStr "mon")) None
     = Ok [Scenario.health_node "node1" 0%nat]
  /\ Ceph.get_nodes Scenario.upgrade_heap Scenario.upgrade_cluster
       None (Some (PyStr "mon"))
     = Ok [Scenario.health_node "node2" 1%nat; Scenario.health_node "node3" 2%nat]
  /\ [Scenario.health_node "node1" 0%nat]
     = filter (has_role Scenario.upgrade_heap (PyStr "mon"))
         (Ceph.node_list Scenario.upgrade_cluster)
  /\ [Scenario.health_node "node2" 1%nat; Scenario.health_node "node3" 2%nat]
     = filter (fun n => negb (has_role Scenario.upgrade_heap (PyStr "mon") n))
         (Ceph.node_list Scenario.upgrade_cluster)
  /\ (List.length [Scenario.health_node "node1" 0%nat]
      + List.length [Scenario.health_node "node2" 1%nat;
                     Scenario.health_node "node3" 2%nat]
      = List.length (Ceph.node_list Scenario.upgrade_cluster))%nat.
Proof.
  split; [reflexivity |]. split; [reflexivity |]. split; [reflexivity |].
  apply (get_nodes_role_and_ignore_partition
           Scenario.upgrade_heap Scenario.upgrade_cluster (PyStr "mon")).
  - reflexivity.
  - reflexivity.
  - reflexivity.
Defined.

Lemma select_objects_In (h : heap) (role : option string) (objs : list (option ref)) :
  forall l, Node.select_objects h objs role = Ok l ->
  forall r, In r l <->
            (In (Some r) objs
             /\ exists o, deref h r = Ok o /\ Node.role_matches o role = true).
Proof.
  induction objs as [|[x|] objs IH]; intros l H r; simpl in H.
  - injection H as <-. simpl. tauto.
  - destruct (deref h x) as [o|] eqn:Eo; [| discriminate]. cbn [bind] in H.
    destruct (Node.select_objects h objs role) as [rs|]; [| discriminate].
    cbn [bind] in H. injection H as <-.
    specialize (IH rs eq_refl r). split.
    + intros Hin. destruct (Node.role_matches o role) eqn:Em.
      * destruct Hin as [<- | Hin].
        -- split; [now left | now exists o].
        -- apply IH in Hin. destruct Hin as [Hin Ho]. split; [now right | exact Ho].
      * apply IH in Hin. destruct Hin as [Hin Ho]. split; [now right | exact Ho].
    + intros [[Heq | Hin] (o' & Ho' & Hm)].
      * injection Heq as ->. rewrite Eo in Ho'. injection Ho' as <-.
        rewrite Hm. now left.
      * assert (In r rs) by (apply IH; split; [exact Hin | now exists o']).
        destruct (Node.role_matches o role); [now right | assumption].
  - discriminate.
Qed.

Lemma collect_In (f : Node.t -> result (list ref)) (nodes : list Node.t) :
  forall l, Ceph.collect f nodes = Ok l ->
  forall r, In r l <-> exists n ln, In n nodes /\ f n = Ok ln /\ In r ln.
Proof.
  induction nodes as [|n nodes IH]; intros l H r; simpl in H.
  - injection H as <-. split; [intros [] | intros (n & ln & [] & _)].
  - destruct (f n) as [objs|] eqn:Ef; [| discriminate]. cbn [bind] in H.
    destruct (Ceph.collect f nodes) as [more|]; [| discriminate].
    cbn [bind] in H. injection H as <-.
    specialize (IH more eq_refl r). split.
    + intros Hin. apply in_app_or in Hin. destruct Hin as [Hin | Hin].
      * exists n, objs. split; [now left | now split].
      * apply IH in Hin. destruct Hin as (m & lm & Hm & Hfm & Hr).
        exists m, lm. split; [now right | now split].
    + intros (m & lm & [<- | Hm] & Hfm & Hr); apply in_or_app.
      * rewrite Ef in Hfm. injection Hfm as <-. now left.
      * right. apply IH. now exists m, lm.
Qed.

Lemma roles_of_In (h : heap) (objs : list (option ref)) :
  forall rs, Node.roles_of h objs = Ok rs ->
  forall r o, In (Some r) objs -> deref h r = Ok o -> In (CephObject.role o) rs.
Proof.
  induction objs as [|[x|] objs IH]; intros rs H r o Hin Ho; simpl in H.
  - destruct Hin.
  - destruct (deref h x) as [ox|] eqn:Ex; [| discriminate]. cbn [bind] in H.
    destruct (Node.roles_of h objs) as [rs'|]; [| discriminate].
    cbn [bind] in H. injection H as <-.
    destruct Hin as [Heq | Hin].
    + injection Heq as ->. rewrite Ex in Ho. injection Ho as <-. now left.
    + right. exact (IH rs' eq_refl r o Hin Ho).
  - destruct Hin as [Heq | Hin]; [discriminate |]. exact (IH rs H r o Hin Ho).
Qed.

(** X7: for a role that is given, the objects [get_ceph_objects(role)]
    returns all have that role, and every object with that role on a node
    of the cluster is among them: selecting the nodes by role first loses
    no object. *)
Theorem get_ceph_objects_exact (h : heap) (c : Ceph.t) (role : string)
  (objs : list ref) :
  str_truthy role = true ->
  Ceph.get_ceph_objects h c (Some role) = Ok objs ->
  (forall r, In r objs ->
             exists o, deref h r = Ok o /\ CephObject.role o = role)
  /\ (forall n r o,
        In n (Ceph.node_list c) ->
        In (Some r) (Node.ceph_object_list n) ->
        deref h r = Ok o ->
        CephObject.role o = role ->
        In r objs).
Proof.
  intros Ht H. unfold Ceph.get_ceph_objects in H.
  destruct (Ceph.get_nodes h c (option_map PyStr (Some role)) None) as [nodes|] eqn:En;
    [| discriminate].
  cbn [bind] in H.
  unfold Ceph.get_nodes in En. cbn [option_map Ceph.arg_truthy] in En.
  rewrite Ht in En. apply filter_nodes_filter in En. destruct En as [-> Hroles].
  pose proof (collect_In _ _ _ H) as Hcollect.
  assert (Hmatch : forall o, Node.role_matches o (Some role)
                             = String.eqb (CephObject.role o) role).
  { intros o. unfold Node.role_matches. rewrite Ht. apply orb_false_r. }
  split.
  - intros r Hr. apply Hcollect in Hr. destruct Hr as (n & ln & _ & Hsel & Hin).
    unfold Node.get_ceph_objects in Hsel.
    apply (select_objects_In _ _ _ _ Hsel) in Hin.
    destruct Hin as (_ & o & Ho & Hm). exists o. split; [exact Ho |].
    rewrite Hmatch in Hm. now apply String.eqb_eq.
  - intros n r o Hn Hin Ho Hrole.
    destruct (Hroles n Hn) as [rc Hrc].
    assert (Hkeep : In n (filter (fun n0 => match Node.role h n0 with
                                            | Ok rc0 => RolesContainer.__eq__ rc0 (PyStr role)
                                            | Raise _ => false
                                            end) (Ceph.node_list c))).
    { apply filter_In. split; [exact Hn |]. rewrite Hrc.
      unfold Node.role in Hrc.
      destruct (Node.roles_of h (Node.ceph_object_list n)) as [rs|] eqn:Ers;
        [| discriminate].
      cbn [bind] in Hrc. injection Hrc as <-.
      pose proof (roles_of_In _ _ _ Ers r o Hin Ho) as Hrs. rewrite Hrole in Hrs.
      cbn [RolesContainer.__eq__ RolesContainer.__init__ RolesContainer.role_list].
      apply str_in_In. destruct rs; [destruct Hrs | exact Hrs]. }
    assert (Hsel : exists ln, Node.get_ceph_objects h n (Some role) = Ok ln).
    { clear -H Hkeep. revert objs H.
      induction (filter _ (Ceph.node_list c)) as [|m ms IH]; intros objs H;
        [destruct Hkeep |].
      simpl in H.
      destruct (Node.get_ceph_objects h m (Some role)) as [lm|] eqn:Em;
        [| discriminate].
      cbn [bind] in H.
      destruct (Ceph.collect _ ms) as [more|] eqn:Emore; [| discriminate].
      destruct Hkeep as [<- | Hkeep]; [now exists lm |].
      exact (IH Hkeep more eq_refl). }
    destruct Hsel as [ln Hsel].
    apply Hcollect. exists n, ln. split; [exact Hkeep |]. split; [exact Hsel |].
    unfold Node.get_ceph_objects in Hsel.
    apply (select_objects_In _ _ _ _ Hsel). split; [exact Hin |].
    exists o. split; [exact Ho |]. rewrite Hmatch, Hrole. apply String.eqb_refl.
Qed.

(** The monitors of the cluster with three monitor nodes and a client. *)
Lemma get_ceph_objects_exact_witness :
  str_truthy "mon" = true
  /\ Ceph.get_ceph_objects Scenario.health_heap Scenario.health_cluster (Some "mon")
     = Ok [0%nat; 1%nat; 2%nat]
  /\ (forall r, In r [0%nat; 1%nat; 2%nat] ->
                exists o, deref Scenario.health_heap r = Ok o
                          /\ CephObject.role o = "mon")
  /\ (forall n r o,
        In n (Ceph.node_list Scenario.health_cluster) ->
        In (Some r) (Node.ceph_object_list n) ->
        deref Scenario.health_heap r = Ok o ->
        CephObject.role o = "mon" ->
        In r [0%nat; 1%nat; 2%nat]).
Proof.
  split; [reflexivity |]. split; [reflexivity |].
  apply (get_ceph_objects_exact Scenario.health_heap Scenario.health_cluster "mon").
  - reflexivity.
  - reflexivity.
Defined.

Lemma counter_get_set (d : list (string * Z)) (k k' : string) (v : Z) :
  Ceph.counter_get (Ceph.counter_set d k v) k'
  = if String.eqb k k' then Some v else Ceph.counter_get d k'.
Proof.
  induction d as [|[k0 v0] d IH]; simpl.
  - reflexivity.
  - destruct (String.eqb k0 k) eqn:E0; simpl.
    + apply String.eqb_eq in E0. subst k0.
      destruct (String.eqb k k'); reflexivity.
    + rewrite IH. destruct (String.eqb k k') eqn:E; [| reflexivity].
      apply String.eqb_eq in E. subst k'. now rewrite E0.
Qed.

Lemma count_demons_spec (h : heap) (lt3 : bool) (r : string) (demons : list ref) :
  (r = "mgr" -> lt3 = false) ->
  forall acc stat,
  Ceph.count_demons h lt3 demons acc = Ok stat ->
  Ceph.counter_get stat r = bump (Ceph.counter_get acc r) (count_role h demons r).
Proof.
  intros Hmgr. induction demons as [|x demons IH]; intros acc stat H; simpl in H.
  - injection H as <-. reflexivity.
  - unfold deref in H. cbn [count_role].
    destruct (nth_error h x) as [o|]; [| discriminate]. cbn [bind] in H.
    destruct (String.eqb (CephObject.role o) "mgr" && lt3) eqn:Eskip.
    + rewrite (IH _ _ H).
      destruct (String.eqb (CephObject.role o) r) eqn:Er; [| reflexivity].
      apply andb_prop in Eskip. destruct Eskip as [Em ->].
      apply String.eqb_eq in Em, Er. rewrite <- Er, Em in Hmgr.
      discriminate (Hmgr eq_refl).
    + rewrite (IH _ _ H), counter_get_set.
      destruct (String.eqb (CephObject.role o) r) eqn:Er; [| reflexivity].
      apply String.eqb_eq in Er. rewrite Er.
      destruct (Ceph.counter_get acc r) as [v|];
        [destruct (v =? 0)%Z eqn:Ev; [apply Z.eqb_eq in Ev; subst v |] |];
        destruct (count_role h demons r); cbn [bump]; f_equal; lia.
Qed.

(** X8: the [ceph_demon_stat] property maps a role to the number of
    active demons of that role in the cluster and has no entry for a role
    without active demon; this holds for every role, "mgr" excepted when
    the version is below 3 (its demons are then left out). *)
Theorem ceph_demon_stat_counts (h : heap) (c : Ceph.t) (r : string)
  (demons : list ref) (stat : list (string * Z)) :
  Ceph.get_ceph_demons h c None = Ok demons ->
  Ceph.ceph_demon_stat h c = Ok stat ->
  (r = "mgr" -> Ceph.rhcs_version_lt_3 c = false) ->
  Ceph.counter_get stat r
  = match count_role h demons r with
    | O => None
    | S n => Some (Z.of_nat (S n))
    end.
Proof.
  intros Hd Hs Hmgr. unfold Ceph.ceph_demon_stat in Hs. rewrite Hd in Hs.
  cbn [bind] in Hs.
  rewrite (count_demons_spec h (Ceph.rhcs_version_lt_3 c) r demons Hmgr [] stat Hs).
  cbn [Ceph.counter_get]. destruct (count_role h demons r); cbn [bump]; [reflexivity |].
  f_equal.
Qed.

(** The three monitors of the cluster with three monitor nodes. *)
Lemma ceph_demon_stat_counts_witness :
  Ceph.get_ceph_demons Scenario.health_heap Scenario.health_cluster None
  = Ok [0%nat; 1%nat; 2%nat]
  /\ Ceph.ceph_demon_stat Scenario.health_heap Scenario.health_cluster
     = Ok [("mon", 3%Z)]
  /\ ("mon" = "mgr" -> Ceph.rhcs_version_lt_3 Scenario.health_cluster = false)
  /\ Ceph.counter_get [("mon", 3%Z)] "mon"
     = match count_role Scenario.health_heap [0%nat; 1%nat; 2%nat] "mon" with
       | O => None
       | S n => Some (Z.of_nat (S n))
       end.
Proof.
  split; [reflexivity |]. split; [reflexivity |]. split; [reflexivity |].
  apply (ceph_demon_stat_counts Scenario.health_heap Scenario.health_cluster "mon"
           [0%nat; 1%nat; 2%nat] [("mon", 3%Z)]).
  - reflexivity.
  - reflexivity.
  - reflexivity.
Defined.

(** ** Assigning devices *)

Section OsdDeviceFacts.

Import OsdDevices.

Lemma set_device_nth (h : heap) (d : option string) :
  forall r r',
  nth_error (set_device h r d) r'
  = if Nat.eqb r r'
    then option_map (fun o => {| CephObject.cls := CephObject.cls o;
                                 CephObject.role := CephObject.role o;
                                 CephObject.device := d;
                                 CephObject.is_active_attr :=
                                   CephObject.is_active_attr o |})
           (nth_error h r')
    else nth_error h r'.
Proof.
  induction h as [|o h IH]; intros r r'.
  - simpl. destruct (Nat.eqb r r'); destruct r'; reflexivity.
  - destruct r as [|r], r' as [|r']; simpl; try reflexivity. apply IH.
Qed.



(** The loop changes nothing but the device of the objects it goes
    through, and their device is one of those it stores. *)
Lemma assign_spec (P : option string -> Prop) (osds : list ref) :
  forall h devices,
  Forall P (assigned (List.length osds) devices) ->
  forall r o',
  nth_error (assign h osds devices) r = Some o' ->
  exists o,
    nth_error h r = Some o
    /\ CephObject.role o' = CephObject.role o
    /\ CephObject.cls o' = CephObject.cls o
    /\ (In r osds -> P (CephObject.device o'))
    /\ (~ In r osds -> o' = o).
Proof.
  induction osds as [|osd rest IH]; intros h devices HP r o' H.
  - exists o'. simpl in H. repeat split; try assumption. intros [].
  - cbn [assign assigned List.length] in H, HP.
    destruct (pop devices) as [device devices'].
    inversion HP as [|? ? Hd Hrest]; subst.
    destruct (IH _ _ Hrest r o' H) as (o1 & H1 & Hrole & Hcls & Hin & Hout).
    rewrite set_device_nth in H1.
    destruct (Nat.eqb osd r) eqn:E.
    + apply Nat.eqb_eq in E. subst osd.
      destruct (nth_error h r) as [o|]; [| discriminate].
      cbn [option_map] in H1. injection H1 as <-.
      exists o. cbn in Hrole, Hcls. repeat split; try assumption.
      * intros _. destruct (in_dec Nat.eq_dec r rest) as [Hr | Hr]; [now apply Hin |].
        rewrite (Hout Hr). exact Hd.
      * intros Hnot. elim Hnot. now left.
    + apply Nat.eqb_neq in E. exists o1. repeat split; try assumption.
      * intros [Heq | Hr]; [contradiction | now apply Hin].
      * intros Hnot. apply Hout. intros Hr. apply Hnot. now right.
Qed.



Lemma assigned_none (n : nat) : Forall (fun d => d = None) (assigned n []).
Proof. induction n as [|n IH]; constructor; [reflexivity | exact IH]. Qed.


(** X10: when [setup_osd_devices] is given no device, every OSD role
    object of the node ends without device, and so inactive, whatever
    device it had. *)
Theorem setup_osd_devices_without_devices (h h' : heap) (node : Node.t)
  (osds : list ref) :
  Node.get_ceph_objects h node (Some "osd") = Ok osds ->
  setup_osd_devices h [] node = Ok h' ->
  forall r o', In r osds -> deref h' r = Ok o' ->
               CephObject.device o' = None
               /\ (CephObject.cls o' = CephObject.Osd ->
                   CephObject.is_active o' = false).
Proof.
  intros Hosds H r o' Hr Ho'. unfold setup_osd_devices in H. rewrite Hosds in H.
  cbn [bind] in H. injection H as <-.
  unfold deref in Ho'.
  destruct (nth_error (assign h osds []) r) as [o|] eqn:E; [| discriminate].
  injection Ho' as ->.
  destruct (assign_spec (fun d => d = None) osds h [] (assigned_none _) r o' E)
    as (_ & _ & _ & _ & Hin & _).
  split; [exact (Hin Hr) |].
  intros Hosd. unfold CephObject.is_active. now rewrite Hosd, (Hin Hr).
Qed.


(** The same two objects, with their devices, given no device. *)
Lemma setup_osd_devices_without_devices_witness :
  Node.get_ceph_objects Cases.two_osd_heap_after Cases.two_osd_node (Some "osd")
  = Ok [0%nat; 1%nat]
  /\ setup_osd_devices Cases.two_osd_heap_after [] Cases.two_osd_node
     = Ok Cases.two_osd_heap
  /\ forall r o', In r [0%nat; 1%nat] -> deref Cases.two_osd_heap r = Ok o' ->
                  CephObject.device o' = None
                  /\ (CephObject.cls o' = CephObject.Osd ->
                      CephObject.is_active o' = false).
Proof.
  split; [reflexivity |]. split; [reflexivity |].
  apply (setup_osd_devices_without_devices Cases.two_osd_heap_after
           Cases.two_osd_heap Cases.two_osd_node [0%nat; 1%nat]).
  - reflexivity.
  - reflexivity.
Defined.

End OsdDeviceFacts.

(** ** What is pickled *)

Section PickleFacts.

Variable V : Type.
Variable truthy : V -> bool.

#[local] Abbreviation lookup := (Pickle.lookup V).
#[local] Abbreviation get_truthy := (Pickle.get_truthy V truthy).
#[local] Abbreviation del_if := (Pickle.del_if V truthy).

Lemma lookup_remove_key (d : Pickle.attrs V) (k k' : string) :
  lookup (Pickle.remove_key V d k) k'
  = if String.eqb k k' then None else lookup d k'.
Proof.
  induction d as [|[k0 v0] d IH]; simpl.
  - now destruct (String.eqb k k').
  - destruct (String.eqb k0 k) eqn:E0.
    + rewrite IH. apply String.eqb_eq in E0. subst k0.
      now destruct (String.eqb k k').
    + simpl. rewrite IH. destruct (String.eqb k k') eqn:E; [| reflexivity].
      apply String.eqb_eq in E. subst k'. now rewrite E0.
Qed.

(** [if d.get(k): del d[k]] never raises and leaves [k] falsy. *)
Lemma del_if_self (d : Pickle.attrs V) (k : string) :
  exists d',
    del_if k k d = Ok d'
    /\ get_truthy d' k = false
    /\ forall k', k' <> k -> lookup d' k' = lookup d k'.
Proof.
  unfold Pickle.del_if, Pickle.del, Pickle.get_truthy.
  destruct (lookup d k) as [v|] eqn:E.
  - destruct (truthy v) eqn:Ev.
    + eexists. split; [reflexivity |]. split.
      * rewrite lookup_remove_key, String.eqb_refl. reflexivity.
      * intros k' Hk. rewrite lookup_remove_key.
        destruct (String.eqb k k') eqn:Ek; [| reflexivity].
        apply String.eqb_eq in Ek. congruence.
    + exists d. rewrite E, Ev. repeat split.
  - exists d. rewrite E. repeat split.
Qed.

Lemma get_truthy_ext (d d' : Pickle.attrs V) (k : string) :
  lookup d' k = lookup d k -> get_truthy d' k = get_truthy d k.
Proof. unfold Pickle.get_truthy. now intros ->. Qed.

(** X11: [CephNode.__getstate__] never raises.  The state it returns
    holds no truthy "rssh", "ssh", "rssh_transport", "ssh_transport" or
    "connection", and every other attribute as it was; that includes
    "root_connection", which is tested for under the name
    "ssh_transport" once this one is gone and so is never removed. *)
Theorem CephNode_getstate_keeps_root_connection (d : Pickle.attrs V) :
  exists d',
    Pickle.CephNode_getstate V truthy d = Ok d'
    /\ (forall k, In k ["rssh"; "ssh"; "rssh_transport"; "ssh_transport"; "connection"] ->
                  get_truthy d' k = false)
    /\ (forall k, ~ In k ["rssh"; "ssh"; "rssh_transport"; "ssh_transport"; "connection"] ->
                  lookup d' k = lookup d k)
    /\ lookup d' "root_connection" = lookup d "root_connection".
Proof.
  unfold Pickle.CephNode_getstate.
  destruct (del_if_self d "rssh") as (d1 & -> & T1 & K1). cbn [bind].
  destruct (del_if_self d1 "ssh") as (d2 & -> & T2 & K2). cbn [bind].
  destruct (del_if_self d2 "rssh_transport") as (d3 & -> & T3 & K3). cbn [bind].
  destruct (del_if_self d3 "ssh_transport") as (d4 & -> & T4 & K4). cbn [bind].
  unfold Pickle.del_if at 1. rewrite T4. cbn [bind].
  destruct (del_if_self d4 "connection") as (d5 & -> & T5 & K5).
  assert (Hother : forall k,
            ~ In k ["rssh"; "ssh"; "rssh_transport"; "ssh_transport"; "connection"] ->
            lookup d5 k = lookup d k).
  { intros k Hk.
    rewrite K5, K4, K3, K2, K1; [reflexivity | | | | |];
      intros ->; apply Hk; simpl; tauto. }
  exists d5. split; [reflexivity |]. split; [| split; [exact Hother |]].
  - intros k [<- | [<- | [<- | [<- | [<- | []]]]]].
    + rewrite (get_truthy_ext d1 d5); [exact T1 |].
      rewrite K5, K4, K3, K2; [reflexivity | | | |]; discriminate.
    + rewrite (get_truthy_ext d2 d5); [exact T2 |].
      rewrite K5, K4, K3; [reflexivity | | |]; discriminate.
    + rewrite (get_truthy_ext d3 d5); [exact T3 |].
      rewrite K5, K4; [reflexivity | |]; discriminate.
    + rewrite (get_truthy_ext d4 d5); [exact T4 |].
      rewrite K5; [reflexivity |]; discriminate.
    + exact T5.
  - apply Hother. simpl. intros [H | [H | [H | [H | [H | []]]]]]; discriminate H.
Qed.

(** X12: [SSHConnectionManager.__getstate__] never raises.  The state it
    returns holds no truthy transport and no truthy client, so no live
    session handle, and every other attribute as it was. *)
Theorem SSHConnectionManager_getstate_drops_handles (d : Pickle.attrs V) :
  exists d',
    Pickle.SSHConnectionManager_getstate V truthy d = Ok d'
    /\ get_truthy d' "_SSHConnectionManager__transport" = false
    /\ get_truthy d' "_SSHConnectionManager__client" = false
    /\ (forall k, k <> "_SSHConnectionManager__transport" ->
                  k <> "_SSHConnectionManager__client" ->
                  lookup d' k = lookup d k).
Proof.
  unfold Pickle.SSHConnectionManager_getstate.
  destruct (del_if_self d "_SSHConnectionManager__transport") as (d1 & -> & T1 & K1).
  cbn [bind].
  destruct (del_if_self d1 "_SSHConnectionManager__client") as (d2 & -> & T2 & K2).
  exists d2. split; [reflexivity |]. split; [| split; [exact T2 |]].
  - rewrite (get_truthy_ext d1 d2); [exact T1 |]. apply K2. discriminate.
  - intros k H1 H2. rewrite K2, K1; [reflexivity | exact H1 | exact H2].
Qed.

End PickleFacts.

(** ** Return values of [exec_command] *)

Section ExecutorShapes.

Import Executor.

(** X13: when the command is run and either the key [verbose] is among
    the arguments, or exit-code checking is off, or the exit code is 0,
    [exec_command] raises nothing: it records the exit code on the node
    and returns the four-tuple for [verbose], else the bare exit code for
    a long-running command, else stdout and stderr.  In particular a
    long-running command without [check_ec] hands back a non-zero exit
    code instead of raising. *)
Theorem exec_command_returns (tp : transport) (self : node) (k : kw)
  (c out err : string) (exit time : Z) :
  refresh_keepalive tp self = Ok tt ->
  cmd k = Some c ->
  run tp = Ok (out, err, exit, time) ->
  verbose k <> None \/ check_ec_enabled k = false \/ exit = 0%Z ->
  exec_command tp self k
  = (set_exit_status self exit, Ok (returned_shape k out err exit time)).
Proof.
  intros Hka Hcmd Hrun Hcase. unfold exec_command, returned_shape.
  rewrite Hka, Hcmd, Hrun.
  destruct (verbose k) as [v|]; [reflexivity |].
  destruct Hcase as [Hv | [Hc | ->]]; [now elim Hv | |].
  - unfold check_ec_enabled in Hc.
    destruct (flag (long_running k) false); cbn [negb] in Hc; rewrite Hc; reflexivity.
  - cbn [Z.eqb negb]. rewrite !andb_false_r.
    destruct (flag (long_running k) false); reflexivity.
Qed.

(** A long-running command that exits with code 1. *)
Lemma exec_command_returns_witness :
  refresh_keepalive Scenario.failing_transport Scenario.exec_node = Ok tt
  /\ cmd Cases.long_running_kw = Some "yum update -y"
  /\ run Scenario.failing_transport = Ok (EmptyString, "boom", 1%Z, 2%Z)
  /\ (verbose Cases.long_running_kw <> None
      \/ check_ec_enabled Cases.long_running_kw = false \/ 1%Z = 0%Z)
  /\ exec_command Scenario.failing_transport Scenario.exec_node Cases.long_running_kw
     = (set_exit_status Scenario.exec_node 1, Ok (ExitCode 1)).
Proof.
  split; [reflexivity |]. split; [reflexivity |]. split; [reflexivity |].
  split; [right; left; reflexivity |].
  apply (exec_command_returns Scenario.failing_transport Scenario.exec_node
           Cases.long_running_kw "yum update -y" EmptyString "boom" 1 2).
  - reflexivity.
  - reflexivity.
  - reflexivity.
  - right; left; reflexivity.
Defined.

End ExecutorShapes.

(** ** Attempts and the outage marker *)

Section ConnectBounds.

Import SSHConnectionManager.

Lemma connect_attempts_app (xs ys : list event) :
  connect_attempts (xs ++ ys) = (connect_attempts xs + connect_attempts ys)%nat.
Proof.
  induction xs as [|[t ok | s] xs IH]; simpl; [reflexivity | now rewrite IH | exact IH].
Qed.

(** The attempts the loop makes from a point on fit, ten seconds apart,
    in the time left. *)
Lemma connect_loop_attempts (fuel : nat) :
  forall (h : host) (end_time : Z) (i : nat) (now : Z) (self : t) (tr : list event)
         (o : outcome),
  connect_loop fuel h end_time i now self tr = Some o ->
  exists n,
    connect_attempts (trace o) = (connect_attempts tr + n)%nat
    /\ (n = 0%nat \/ 10 * (Z.of_nat n - 1) < end_time - now)%Z.
Proof.
  induction fuel as [|fuel IH]; intros h end_time i now self tr o H; [discriminate |].
  cbn [connect_loop] in H.
  destruct (now <? end_time)%Z eqn:Hnow.
  - apply Z.ltb_lt in Hnow. destruct (succeeds (h i)).
    + injection H as <-. exists 1%nat. cbn [trace].
      rewrite connect_attempts_app. split; [reflexivity | right; lia].
    + apply IH in H. destruct H as (n & Hn & Hbound).
      rewrite connect_attempts_app in Hn. cbn [connect_attempts] in Hn.
      exists (S n). split; [lia |]. right.
      pose proof (N2Z.is_nonneg (took (h i))).
      destruct Hbound as [-> | Hb]; lia.
  - injection H as <-. exists 0%nat. cbn [trace]. split; [lia | now left].
Qed.

(** X14: the attempts [__connect] makes are at least ten seconds apart
    and all start before the deadline: with [n] attempts, [n] is 0 or
    [10 * (n - 1)] is below the outage timeout.  With a timeout that is
    not positive no attempt is made at all and the AssertionError is
    raised at once. *)
Theorem connect_attempts_bounded (h : host) (now : Z) (self : t) (o : outcome) :
  __connect h now self = Some o ->
  (connect_attempts (trace o) = 0%nat
   \/ 10 * (Z.of_nat (connect_attempts (trace o)) - 1) < outage_timeout self)%Z
  /\ ((outage_timeout self <= 0)%Z ->
      trace o = []
      /\ res o = Raise (AssertionError ("Unable to establish a connection with "
                                        ++ ip_address self))).
Proof.
  intros H. split.
  - unfold __connect in H. apply connect_loop_attempts in H.
    destruct H as (n & Hn & Hb). cbn [connect_attempts] in Hn.
    rewrite Hn. cbn [Nat.add]. destruct Hb as [-> | Hb]; [now left | right; lia].
  - intros HT. unfold __connect in H. cbn [connect_loop] in H.
    replace (now <? now + outage_timeout self)%Z with false in H
      by (symmetry; apply Z.ltb_ge; lia).
    injection H as <-. split; reflexivity.
Qed.

(** Twenty-five seconds and a host that never answers: three attempts. *)
Lemma connect_attempts_bounded_witness :
  __connect Cases.dead_host 0 Cases.patient_manager
  = Some {| final := on_failure Cases.patient_manager 1;
            clock := 33;
            trace := [Connect 0 false; Sleep 10; Connect 11 false; Sleep 10;
                      Connect 22 false; Sleep 10];
            res := Raise (AssertionError
                            "Unable to establish a connection with 10.0.0.9") |}
  /\ (connect_attempts [Connect 0 false; Sleep 10; Connect 11 false; Sleep 10;
                        Connect 22 false; Sleep 10] = 0%nat
      \/ 10 * (Z.of_nat (connect_attempts
                           [Connect 0 false; Sleep 10; Connect 11 false; Sleep 10;
                            Connect 22 false; Sleep 10]) - 1)
         < outage_timeout Cases.patient_manager)%Z.
Proof.
  split; [reflexivity |].
  exact (proj1 (connect_attempts_bounded Cases.dead_host 0 Cases.patient_manager
                  _ eq_refl)).
Defined.

(** Through the loop the outage marker, once set, stays as it is, and a
    failed attempt sets it when it is not. *)
Lemma connect_loop_marker (fuel : nat) :
  forall (h : host) (end_time : Z) (i : nat) (now : Z) (self : t) (tr : list event)
         (o : outcome),
  connect_loop fuel h end_time i now self tr = Some o ->
  res o <> Ok tt ->
  (forall t0, outage_start_time self = Some t0 ->
              outage_start_time (final o) = Some t0)
  /\ (outage_start_time self = None ->
      trace o <> tr ->
      exists t1, outage_start_time (final o) = Some t1 /\ (now <= t1)%Z).
Proof.
  induction fuel as [|fuel IH]; intros h end_time i now self tr o H Hres; [discriminate |].
  cbn [connect_loop] in H.
  destruct (now <? end_time)%Z.
  - destruct (succeeds (h i)).
    + injection H as <-. cbn [res] in Hres. now elim Hres.
    + pose proof (N2Z.is_nonneg (took (h i))) as Hdur.
      destruct (IH _ _ _ _ _ _ _ H Hres) as [Hkeep Hset]. split.
      * intros t0 Ht0. apply Hkeep. cbn. now rewrite Ht0.
      * intros Hnone _. exists (now + Z.of_N (took (h i)))%Z. split; [| lia].
        apply Hkeep. cbn. now rewrite Hnone.
  - injection H as <-. cbn [final trace]. split; [tauto |].
    intros _ Hne. now elim Hne.
Qed.

(** X15: when [__connect] fails, an outage marker that was set keeps
    its value, and one that was not set now holds a time not before the
    call, provided an attempt was made: the start of an outage is
    recorded at its first failure and never moved. *)
Theorem connect_failure_keeps_first_outage (h : host) (now : Z) (self : t)
  (o : outcome) :
  __connect h now self = Some o ->
  res o <> Ok tt ->
  (forall t0, outage_start_time self = Some t0 ->
              outage_start_time (final o) = Some t0)
  /\ (outage_start_time self = None ->
      trace o <> [] ->
      exists t1, outage_start_time (final o) = Some t1 /\ (now <= t1)%Z).
Proof. unfold __connect. apply connect_loop_marker. Qed.

(** The host that never answers: the marker holds the end of the first
    attempt. *)
Lemma connect_failure_keeps_first_outage_witness :
  __connect Cases.dead_host 0 Cases.patient_manager
  = Some {| final := on_failure Cases.patient_manager 1;
            clock := 33;
            trace := [Connect 0 false; Sleep 10; Connect 11 false; Sleep 10;
                      Connect 22 false; Sleep 10];
            res := Raise (AssertionError
                            "Unable to establish a connection with 10.0.0.9") |}
  /\ Raise (AssertionError "Unable to establish a connection with 10.0.0.9") <> Ok tt
  /\ (forall t0, outage_start_time Cases.patient_manager = Some t0 ->
                 outage_start_time (on_failure Cases.patient_manager 1) = Some t0)
  /\ (outage_start_time Cases.patient_manager = None ->
      [Connect 0 false; Sleep 10; Connect 11 false; Sleep 10;
       Connect 22 false; Sleep 10] <> [] ->
      exists t1, outage_start_time (on_failure Cases.patient_manager 1) = Some t1
                 /\ (0 <= t1)%Z).
Proof.
  split; [reflexivity |]. split; [discriminate |].
  apply (connect_failure_keeps_first_outage Cases.dead_host 0 Cases.patient_manager
           _ eq_refl).
  discriminate.
Defined.

End ConnectBounds.

(** ** The health check: outcomes and cost *)

Section HealthFacts.

Import Health.





(** A command, when it returns, adds itself to the commands issued and
    takes no negative time. *)
Lemma exec_effect (rm : remote) (client : option ref) (c : string)
  (st st' : state) (o : output) :
  exec rm client c st = Ok (o, st') ->
  calls st' = S (calls st)
  /\ (now st <= now st')%Z
  /\ issued st' = issued st ++ [c]
  /\ reply rm (calls st) c = Ok o.
Proof.
  unfold exec. destruct client; [| discriminate].
  destruct (reply rm (calls st) c) as [o'|]; [| discriminate].
  intros H. injection H as <- <-. cbn.
  pose proof (N2Z.is_nonneg (took rm (calls st))). repeat split. lia.
Qed.

(** What the polling loop costs and leaves behind. *)
Lemma poll_effect (rm : remote) (client : option ref) (c : string)
  (starttime timeout : Z) (fuel : nat) :
  forall (st : state) (out out' : string) (st' : state),
  poll fuel rm client c starttime timeout st out = Some (Ok (out', st')) ->
  (5 * (Z.of_nat (calls st') - Z.of_nat (calls st))
   <= Z.max 0 (timeout - (now st - starttime) + 5))%Z
  /\ (calls st <= calls st')%nat
  /\ (forall x, In x (issued st') -> In x (issued st) \/ x = c)
  /\ (out' = out \/ exists i o, reply rm i c = Ok o /\ out' = text o).
Proof.
  induction fuel as [|fuel IH]; intros st out out' st' H; [discriminate |].
  cbn [poll] in H.
  destruct (now st - starttime <=? timeout)%Z eqn:Hnow.
  - apply Z.leb_le in Hnow.
    destruct (exec rm client c st) as [[o st1]|] eqn:E; [| discriminate].
    destruct (exec_effect _ _ _ _ _ _ E) as (Hc & Ht & Hi & Hr).
    destruct (negb _ && _).
    + injection H as <- <-. rewrite Hc, Hi. repeat split.
      * lia.
      * lia.
      * intros x Hx. apply in_app_or in Hx. destruct Hx as [Hx | [<- | []]]; auto.
      * right. now exists (calls st), o.
    + apply IH in H. cbn [sleep calls now issued] in H.
      destruct H as (Hcost & Hle & Hiss & Hout). rewrite Hc, Hi in *.
      repeat split.
      * lia.
      * lia.
      * intros x Hx. destruct (Hiss x Hx) as [Hx' | ->]; [| now right].
        apply in_app_or in Hx'. destruct Hx' as [Hx' | [<- | []]]; auto.
      * destruct Hout as [-> | Hout]; [| now right].
        right. now exists (calls st), o.
  - injection H as <- <-. repeat split; [lia | lia | auto | now left].
Qed.

(** X17: when [check_health] returns, it returns 0 or 1, and it has
    issued at most one status command per five seconds of its timeout,
    plus three commands: with [n] commands issued, [5 * n] is at most
    [max 0 (timeout + 5) + 10]. *)
Theorem check_health_outcome_and_cost (h : heap) (self : Ceph.t) (rm : remote)
  (rhbuild cluster_name : option string) (client : option ref) (timeout : Z)
  (st st' : state) (rc : Z) :
  check_health h self rm rhbuild cluster_name client timeout st = Some (Ok (rc, st')) ->
  (rc = 0 \/ rc = 1)%Z
  /\ (5 * (Z.of_nat (calls st') - Z.of_nat (calls st))
      <= Z.max 0 (timeout + 5) + 10)%Z.
Proof.
  unfold check_health.
  destruct (default_client h self client) as [cl|]; [| discriminate].
  destruct (poll _ rm cl _ (now st) timeout st EmptyString) as [[[out st1]|]|] eqn:Ep;
    try discriminate.
  destruct (poll_effect _ _ _ _ _ _ _ _ _ _ Ep) as (Hcost & Hle & _ & _).
  replace (timeout - (now st - now st) + 5)%Z with (timeout + 5)%Z in Hcost by lia.
  destruct (negb (all_in valid_states out)).
  { intros H. injection H as <- <-. split; [now right | lia]. }
  destruct (osd_check rm cl cluster_name rhbuild st1) as [[v st2]|] eqn:Eo;
    [| discriminate].
  assert (Hc2 : calls st2 = S (calls st1)).
  { unfold osd_check in Eo.
    destruct (exec rm cl _ st1) as [[o s]|] eqn:E; [| discriminate].
    destruct (exec_effect _ _ _ _ _ _ E) as (Hc & _).
    repeat match type of Eo with
           | context [bind ?m _] => destruct m; [cbn [bind] in Eo | discriminate]
           end.
    repeat match type of Eo with
           | context [if ?b then _ else _] => destruct b
           end; injection Eo as _ <-; exact Hc. }
  destruct (negb (is_pacific rhbuild)).
  - destruct (exec rm cl _ st2) as [[o st3]|] eqn:E; [| discriminate].
    destruct (exec_effect _ _ _ _ _ _ E) as (Hc3 & _).
    intros H. injection H as H.
    repeat match type of H with
           | context [bind ?m _] => destruct m; [cbn [bind] in H | discriminate]
           end.
    repeat match type of H with
           | context [if ?b then _ else _] => destruct b
           end; injection H as <- <-; (split; [tauto | lia]).
  - destruct (contains "HEALTH_ERR" out); intros H; injection H as <- <-;
      (split; [tauto | lia]).
Qed.

(** The degraded cluster: three commands, result 0. *)
Lemma check_health_outcome_and_cost_witness :
  check_health Scenario.health_heap Scenario.health_cluster
    Scenario.degraded_remote (Some "4.3") None None 300 Scenario.health_start
  = Some (Ok (0%Z, {| calls := 3; now := 3%Z;
                      issued := ["ceph -s"; "ceph -s -f json";
                                 "ceph quorum_status -f json"] |}))
  /\ (0 = 0 \/ 0 = 1)%Z
  /\ (5 * (Z.of_nat 3 - Z.of_nat (calls Scenario.health_start))
      <= Z.max 0 (300 + 5) + 10)%Z.
Proof.
  split; [vm_compute; reflexivity |].
  apply (check_health_outcome_and_cost Scenario.health_heap Scenario.health_cluster
           Scenario.degraded_remote (Some "4.3") None None 300 Scenario.health_start
           {| calls := 3; now := 3%Z;
              issued := ["ceph -s"; "ceph -s -f json";
                         "ceph quorum_status -f json"] |} 0).
  vm_compute; reflexivity.
Defined.

(** X18: when no answer of the remote side ever shows "active+clean",
    [check_health] returns 1 once its timeout is over, and all it has
    issued is the status command: neither the OSD counts nor the quorum
    are asked for. *)
Theorem check_health_never_clean (h : heap) (self : Ceph.t) (rm : remote)
  (rhbuild cluster_name : option string) (client : option ref) (timeout : Z)
  (st st' : state) (rc : Z) :
  (forall i c o, reply rm i c = Ok o -> contains "active+clean" (text o) = false) ->
  check_health h self rm rhbuild cluster_name client timeout st = Some (Ok (rc, st')) ->
  rc = 1%Z
  /\ forall x, In x (issued st') ->
       In x (issued st)
       \/ x = (if is_pacific rhbuild
               then in_shell (with_cluster "ceph -s" cluster_name)
               else with_cluster "ceph -s" cluster_name).
Proof.
  intros Hnever. unfold check_health.
  destruct (default_client h self client) as [cl|]; [| discriminate].
  destruct (poll _ rm cl _ (now st) timeout st EmptyString) as [[[out st1]|]|] eqn:Ep;
    try discriminate.
  destruct (poll_effect _ _ _ _ _ _ _ _ _ _ Ep) as (_ & _ & Hiss & Hout).
  assert (Hvalid : all_in valid_states out = false).
  { unfold all_in, valid_states. cbn [forallb]. rewrite andb_true_r.
    destruct Hout as [-> | (i & o & Hr & ->)]; [reflexivity |].
    exact (Hnever _ _ _ Hr). }
  rewrite Hvalid. cbn [negb]. intros H. injection H as <- <-.
  split; [reflexivity | exact Hiss].
Qed.

(** The cluster that stays in peering, given ten seconds: two status
    commands, result 1. *)
Lemma check_health_never_clean_witness :
  check_health Scenario.health_heap Scenario.health_cluster Cases.stuck_remote
    (Some "4.3") None None 10 Scenario.health_start
  = Some (Ok (1%Z, {| calls := 2; now := 12%Z; issued := ["ceph -s"; "ceph -s"] |}))
  /\ 1%Z = 1%Z
  /\ forall x, In x ["ceph -s"; "ceph -s"] ->
       In x (issued Scenario.health_start) \/ x = "ceph -s".
Proof.
  split; [vm_compute; reflexivity |].
  apply (check_health_never_clean Scenario.health_heap Scenario.health_cluster
           Cases.stuck_remote (Some "4.3") None None 10 Scenario.health_start
           {| calls := 2; now := 12%Z; issued := ["ceph -s"; "ceph -s"] |} 1).
  - intros i c o H. injection H as <-. reflexivity.
  - vm_compute; reflexivity.
Defined.

End HealthFacts.

(* ------------------------------------------------------------------ *)
(** ** The steps of the upgrade workflow *)
(* ------------------------------------------------------------------ *)

Section UpgradeSteps.

Import Upgrade.

Lemma dict_get_set_other (d : dict) (k k' : string) (v : value) :
  String.eqb k k' = false -> dict_get (dict_set d k v) k' = dict_get d k'.
Proof.
  intros Hk. induction d as [|[k0 v0] d IH]; simpl.
  - now rewrite Hk.
  - destruct (String.eqb k0 k) eqn:E; simpl.
    + apply String.eqb_eq in E. subst k0. now rewrite Hk.
    + now rewrite IH.
Qed.

(** What follows a lookup may rely on its result. *)
Lemma emits_bind_lift (P : event -> Prop) {A B : Type} (r : result A)
  (k : A -> M B) :
  (forall a, r = Ok a -> emits P (k a)) -> emits P (mbind (lift r) k).
Proof.
  intros Hk tr. unfold mbind, lift. destruct r as [a|e].
  - exact (Hk a eq_refl tr).
  - exists []. cbn. split; [now rewrite app_nil_r | constructor].
Qed.

(** What follows a call may rely on its having returned. *)
Lemma emits_bind_call (P : event -> Prop) {A B : Type} (ev : event)
  (r : result A) (k : A -> M B) :
  P ev -> (forall a, r = Ok a -> emits P (k a)) -> emits P (mbind (call ev r) k).
Proof.
  intros Hev Hk tr. unfold mbind, call. destruct r as [a|e].
  - destruct (Hk a eq_refl (tr ++ [ev])) as (evs & H1 & H2).
    exists (ev :: evs). rewrite H1, <- app_assoc. split; [reflexivity | now constructor].
  - exists [ev]. cbn. split; [reflexivity | now constructor].
Qed.

(** What a completed setup hands on. *)
Lemma setup_result (h : heap) (c : Ceph.t) (co : collaborators) (kwargs : dict)
  (config : dict) (executor : bool) (tr : list event) :
  setup h c co kwargs [] = (Ok (config, executor), tr) ->
  exists cfg custom,
    dict_get kwargs "config" = VDict cfg
    /\ config = dict_set cfg "overrides" custom
    /\ executor = truthy (dict_get cfg "benchmark")
    /\ Orch_init co = Ok tt
    /\ (executor = true -> RadosBench_init co = Ok tt).
Proof.
  unfold setup, mbind, lift, ret, call.
  destruct (dict_has kwargs "config"); [| discriminate].
  destruct (if dict_has kwargs "test_data" then dict_get kwargs "test_data" else VDict [])
    as [| | | |td]; try discriminate.
  destruct (dict_get kwargs "config") as [| | | |cfg]; try discriminate.
  destruct (Orch_init co) as [[]|]; [| discriminate].
  destruct (Ceph.get_nodes h c (Some (PyStr "client")) None) as [nodes|]; [| discriminate].
  destruct (py_index nodes 0); [| discriminate].
  rewrite dict_get_set_other by reflexivity.
  destruct (truthy (dict_get cfg "benchmark")) eqn:Hb.
  - destruct (RadosBench_init co) as [[]|]; [| discriminate].
    intros H. injection H as <- <- _.
    exists cfg, (dict_get td "custom-config"). now repeat split.
  - intros H. injection H as <- <- _.
    exists cfg, (dict_get td "custom-config"). repeat split; [now symmetry | discriminate].
Qed.

(** The calls of a run satisfy what the calls of its setup, of its
    guarded body on the configuration the setup hands on, and of its
    cleanup do. *)
Lemma run_calls_of_parts (P : event -> Prop) (h : heap) (c : Ceph.t)
  (co : collaborators) (kwargs : dict) :
  emits P (setup h c co kwargs) ->
  (forall config executor tr,
     setup h c co kwargs [] = (Ok (config, executor), tr) ->
     emits P (guarded h c co config executor)) ->
  (forall executor, emits P (cleanup co executor)) ->
  Forall P (snd (run h c co kwargs)).
Proof.
  intros Hs Hg Hc. unfold run.
  destruct (Hs []) as (evs1 & H1 & F1).
  destruct (setup h c co kwargs []) as [[[config executor] | e] tr] eqn:Es;
    cbn in H1; subst tr.
  - destruct (Hg config executor evs1 eq_refl evs1) as (evs2 & H2 & F2).
    destruct (guarded h c co config executor evs1) as [body tr1]. cbn in H2. subst tr1.
    destruct (Hc executor (evs1 ++ evs2)) as (evs3 & H3 & F3).
    destruct (cleanup co executor (evs1 ++ evs2)) as [[u | e] tr2];
      cbn in H3; subst tr2; cbn; repeat (apply Forall_app; split); assumption.
  - exact F1.
Qed.

(** What the guarded body has been through when it returns. *)
Lemma guarded_returns (h : heap) (c : Ceph.t) (co : collaborators)
  (config : dict) (executor : bool) (tr : list event) :
  fst (guarded h c co config executor tr) = Ok tt ->
  set_tool_repo co = Ok tt /\ install co = Ok tt /\ upgrade_check co = Ok tt
  /\ start_upgrade co = Ok tt /\ monitor_upgrade_status co = Ok tt
  /\ (executor = true -> executor_run co = Ok tt)
  /\ (truthy (dict_get config "verify_cluster_health") = true ->
      check_health co = Ok 0%Z).
Proof.
  unfold guarded, mbind, call, lift, ret, raise. cbv zeta.
  rewrite dict_get_set_other by reflexivity.
  destruct executor;
    [ destruct (dict_has config "benchmark");
      [ destruct (executor_run co) as [[]|] | ] | ];
    cbv beta iota; try discriminate;
    (destruct (set_tool_repo co) as [[]|]; [| discriminate]);
    (destruct (install co) as [[]|]; [| discriminate]);
    (destruct (upgrade_check co) as [[]|]; [| discriminate]);
    (destruct (Ceph.get_ceph_object h c "installer" 0) as [inst|]; [| discriminate]);
    (destruct (startswith_5 (dict_get config "rhbuild")) as [is5|]; [| discriminate]);
    (destruct is5;
     [ unfold installer_exec, raise, call; destruct inst;
       [ destruct (rpm_query co) as [[out err]|];
         [ cbv beta iota; destruct (contains "16.2.7" (fst (out, err)));
           [ destruct (upgrade_stop co) | ] | ] | ] | ]);
    cbv beta iota; try discriminate;
    (destruct (start_upgrade co) as [[]|]; [| discriminate]);
    (destruct (monitor_upgrade_status co) as [[]|]; [| discriminate]);
    (destruct (truthy (dict_get config "verify_cluster_health"));
     [ destruct (check_health co) as [rc|]; [| discriminate];
       cbv beta iota; destruct (rc =? 0)%Z eqn:Hrc; [| discriminate];
       apply Z.eqb_eq in Hrc; subst rc | ]);
    intros _; repeat split; congruence.
Qed.


Lemma emits_impl (P Q : event -> Prop) {A : Type} (m : M A) :
  (forall ev, P ev -> Q ev) -> emits P m -> emits Q m.
Proof.
  intros HPQ Hm tr. destruct (Hm tr) as (evs & H1 & H2).
  exists evs. split; [exact H1 |]. eapply Forall_impl; eauto.
Qed.

(** Neither the setup nor the cleanup runs a command on the installer
    or checks the health of the cluster. *)
Lemma setup_quiet (h : heap) (c : Ceph.t) (co : collaborators) (kwargs : dict) :
  emits (fun ev => (forall cmd, ev <> EExecCommand cmd)
                   /\ (forall v, ev <> ECheckHealth v))
        (setup h c co kwargs).
Proof.
  unfold setup.
  repeat first
    [ apply emits_ret | apply emits_raise | apply emits_lift
    | apply emits_bind; [| intros ?]
    | apply emits_call; split; discriminate
    | match goal with
      | |- emits _ (if ?b then _ else _) => destruct b
      end ].
Qed.

Lemma cleanup_quiet (co : collaborators) (executor : bool) :
  emits (fun ev => (forall cmd, ev <> EExecCommand cmd)
                   /\ (forall v, ev <> ECheckHealth v))
        (cleanup co executor).
Proof.
  unfold cleanup.
  repeat first
    [ apply emits_ret
    | apply emits_bind; [| intros ?]
    | apply emits_call; split; discriminate
    | match goal with
      | |- emits _ (if ?b then _ else _) => destruct b
      end ].
Qed.

(** When the guarded body stops a running upgrade and when it checks
    the health of the cluster. *)
Lemma guarded_conditions (h : heap) (c : Ceph.t) (co : collaborators)
  (config : dict) (executor : bool) :
  emits (fun ev =>
           (ev = EExecCommand "cephadm -v shell -- ceph orch upgrade stop" ->
            exists s out err,
              dict_get config "rhbuild" = VStr s /\ prefix "5" s = true
              /\ rpm_query co = Ok (out, err) /\ contains "16.2.7" out = true)
           /\ (forall v, ev = ECheckHealth v ->
               truthy (dict_get config "verify_cluster_health") = true
               /\ v = dict_get config "rhbuild"
               /\ start_upgrade co = Ok tt
               /\ monitor_upgrade_status co = Ok tt))
        (guarded h c co config executor).
Proof.
  unfold guarded. cbv zeta.
  apply emits_bind.
  { destruct executor; [| apply emits_ret].
    destruct (dict_has config "benchmark"); [| apply emits_raise].
    apply emits_call. split; [discriminate | intros v; discriminate]. }
  intros _.
  apply emits_bind_call; [split; [discriminate | intros v; discriminate] |]. intros _ _.
  apply emits_bind_call; [split; [discriminate | intros v; discriminate] |]. intros _ _.
  apply emits_bind_call; [split; [discriminate | intros v; discriminate] |]. intros _ _.
  apply emits_bind_lift. intros inst _.
  apply emits_bind_lift. intros is5 H5.
  apply emits_bind.
  { destruct is5; [| apply emits_ret].
    unfold installer_exec. destruct inst as [i|];
      [| apply emits_bind; [apply emits_raise |];
         intros r; destruct (contains "16.2.7" (fst r)); [| apply emits_ret];
         apply emits_bind; [apply emits_raise | intros ?; apply emits_ret]].
    apply emits_bind_call;
      [split; [intros H; inversion H | intros v; discriminate] |].
    intros [out err] Hrpm. cbn [fst].
    destruct (contains "16.2.7" out) eqn:Hc; [| apply emits_ret].
    apply emits_bind; [| intros ?; apply emits_ret].
    apply emits_call. split; [intros _ | intros v; discriminate].
    unfold startswith_5 in H5.
    destruct (dict_get config "rhbuild") as [| | |s|]; try discriminate.
    injection H5 as H5. now exists s, out, err. }
  intros _.
  apply emits_bind_call; [split; [discriminate | intros v; discriminate] |].
  intros [] Hstart.
  apply emits_bind_call; [split; [discriminate | intros v; discriminate] |].
  intros [] Hmon.
  rewrite !dict_get_set_other by reflexivity.
  destruct (truthy (dict_get config "verify_cluster_health")) eqn:Hv;
    [| apply emits_ret].
  apply emits_bind_call.
  - split; [discriminate |]. intros v Hev. injection Hev as <-. now repeat split.
  - intros rc _. destruct (negb (rc =? 0)%Z); [apply emits_raise | apply emits_ret].
Qed.

(** The calls of a run, with the conditions of [guarded_conditions]
    read on the configuration the caller passes. *)
Lemma run_conditions (h : heap) (c : Ceph.t) (co : collaborators) (kwargs : dict) :
  Forall (fun ev =>
            (ev = EExecCommand "cephadm -v shell -- ceph orch upgrade stop" ->
             exists cfg s out err,
               dict_get kwargs "config" = VDict cfg
               /\ dict_get cfg "rhbuild" = VStr s /\ prefix "5" s = true
               /\ rpm_query co = Ok (out, err) /\ contains "16.2.7" out = true)
            /\ (forall v, ev = ECheckHealth v ->
                exists cfg,
                  dict_get kwargs "config" = VDict cfg
                  /\ truthy (dict_get cfg "verify_cluster_health") = true
                  /\ v = dict_get cfg "rhbuild"
                  /\ start_upgrade co = Ok tt
                  /\ monitor_upgrade_status co = Ok tt))
         (snd (run h c co kwargs)).
Proof.
  apply run_calls_of_parts.
  - eapply emits_impl; [| apply setup_quiet].
    intros ev [H1 H2]. split; [intros ->; now destruct (H1 _ eq_refl) |].
    intros v ->. now destruct (H2 v eq_refl).
  - intros config executor tr Hs.
    destruct (setup_result _ _ _ _ _ _ _ Hs) as (cfg & custom & Hcfg & -> & _).
    eapply emits_impl; [| apply guarded_conditions].
    cbv beta. rewrite !dict_get_set_other by reflexivity.
    intros ev [H1 H2]. split.
    + intros Hev. destruct (H1 Hev) as (s & out & err & Hs1 & Hs2 & Hs3 & Hs4).
      now exists cfg, s, out, err.
    + intros v Hev. destruct (H2 v Hev) as (Hv1 & Hv2 & Hv3 & Hv4).
      now exists cfg.
  - intros executor. eapply emits_impl; [| apply cleanup_quiet].
    intros ev [H1 H2]. split; [intros ->; now destruct (H1 _ eq_refl) |].
    intros v ->. now destruct (H2 v eq_refl).
Qed.

(** X19: a run returns 0 only when every step of the workflow has
    returned: building [Orch], setting the tool repository, installing,
    the upgrade check, starting the upgrade, monitoring it and gathering
    the diagnostics; when [verify_cluster_health] is set in the
    configuration, only when the health check has returned 0; and when a
    benchmark is configured, only when it was built, run and torn down. *)
Theorem run_returns_0_only_after_every_step (h : heap) (c : Ceph.t)
  (co : collaborators) (kwargs : dict) :
  fst (run h c co kwargs) = Ok 0%Z ->
  exists cfg,
    dict_get kwargs "config" = VDict cfg
    /\ Orch_init co = Ok tt /\ set_tool_repo co = Ok tt /\ install co = Ok tt
    /\ upgrade_check co = Ok tt /\ start_upgrade co = Ok tt
    /\ monitor_upgrade_status co = Ok tt /\ get_cluster_state co = Ok tt
    /\ (truthy (dict_get cfg "verify_cluster_health") = true ->
        check_health co = Ok 0%Z)
    /\ (truthy (dict_get cfg "benchmark") = true ->
        RadosBench_init co = Ok tt /\ executor_run co = Ok tt
        /\ executor_teardown co = Ok tt).
Proof.
  unfold run.
  destruct (setup h c co kwargs []) as [[[config executor] | e] tr] eqn:Es;
    [| discriminate].
  destruct (setup_result _ _ _ _ _ _ _ Es) as (cfg & custom & Hcfg & Hconfig & Hex & Ho & Hb).
  pose proof (guarded_returns h c co config executor tr) as Hg.
  destruct (guarded h c co config executor tr) as [[[] | e] tr1]; cbn [fst] in *.
  - destruct (Hg eq_refl) as (H1 & H2 & H3 & H4 & H5 & H6 & H7). clear Hg.
    subst config. rewrite dict_get_set_other in H7 by reflexivity.
    unfold cleanup, mbind, call, ret.
    destruct executor.
    + destruct (executor_teardown co) as [[]|]; [| discriminate].
      destruct (get_cluster_state co) as [[]|]; [| discriminate].
      intros _. exists cfg. repeat split; auto.
    + destruct (get_cluster_state co) as [[]|]; [| discriminate].
      intros _. exists cfg. repeat split; auto; congruence.
  - destruct (cleanup co executor tr1) as [[[]|] tr2]; discriminate.
Qed.

(** The run of the smooth scenario returns 0. *)
Lemma run_returns_0_only_after_every_step_witness :
  fst (run Scenario.upgrade_heap Scenario.upgrade_cluster Scenario.smooth
         Scenario.upgrade_kwargs) = Ok 0%Z
  /\ exists cfg,
       dict_get Scenario.upgrade_kwargs "config" = VDict cfg
       /\ Orch_init Scenario.smooth = Ok tt
       /\ set_tool_repo Scenario.smooth = Ok tt
       /\ install Scenario.smooth = Ok tt
       /\ upgrade_check Scenario.smooth = Ok tt
       /\ start_upgrade Scenario.smooth = Ok tt
       /\ monitor_upgrade_status Scenario.smooth = Ok tt
       /\ get_cluster_state Scenario.smooth = Ok tt
       /\ (truthy (dict_get cfg "verify_cluster_health") = true ->
           check_health Scenario.smooth = Ok 0%Z)
       /\ (truthy (dict_get cfg "benchmark") = true ->
           RadosBench_init Scenario.smooth = Ok tt
           /\ executor_run Scenario.smooth = Ok tt
           /\ executor_teardown Scenario.smooth = Ok tt).
Proof.
  split; [vm_compute; reflexivity |].
  apply (run_returns_0_only_after_every_step Scenario.upgrade_heap
           Scenario.upgrade_cluster Scenario.smooth Scenario.upgrade_kwargs).
  vm_compute; reflexivity.
Defined.

(** X20: a run stops a running upgrade ("ceph orch upgrade stop" on the
    installer) only when the configured build starts with "5" and the
    package query on the installer returned a text containing "16.2.7". *)
Theorem run_stops_upgrade_only_on_16_2_7 (h : heap) (c : Ceph.t)
  (co : collaborators) (kwargs : dict) :
  In (EExecCommand "cephadm -v shell -- ceph orch upgrade stop")
     (snd (run h c co kwargs)) ->
  exists cfg s out err,
    dict_get kwargs "config" = VDict cfg
    /\ dict_get cfg "rhbuild" = VStr s /\ prefix "5" s = true
    /\ rpm_query co = Ok (out, err) /\ contains "16.2.7" out = true.
Proof.
  intros Hin.
  pose proof (run_conditions h c co kwargs) as Hall.
  rewrite Forall_forall in Hall.
  exact (proj1 (Hall _ Hin) eq_refl).
Qed.

(** On a host with the 16.2.7 packages the upgrade is stopped first. *)
Lemma run_stops_upgrade_only_on_16_2_7_witness :
  In (EExecCommand "cephadm -v shell -- ceph orch upgrade stop")
     (snd (run Scenario.upgrade_heap Scenario.upgrade_cluster Cases.old_packages
             Scenario.upgrade_kwargs))
  /\ exists cfg s out err,
       dict_get Scenario.upgrade_kwargs "config" = VDict cfg
       /\ dict_get cfg "rhbuild" = VStr s /\ prefix "5" s = true
       /\ rpm_query Cases.old_packages = Ok (out, err)
       /\ contains "16.2.7" out = true.
Proof.
  assert (Hin : In (EExecCommand "cephadm -v shell -- ceph orch upgrade stop")
                   (snd (run Scenario.upgrade_heap Scenario.upgrade_cluster
                           Cases.old_packages Scenario.upgrade_kwargs))).
  { vm_compute. repeat first [left; reflexivity | right]. }
  split; [exact Hin |].
  exact (run_stops_upgrade_only_on_16_2_7 Scenario.upgrade_heap
           Scenario.upgrade_cluster Cases.old_packages Scenario.upgrade_kwargs Hin).
Defined.

(** X21: a run checks the health of the cluster only when
    [verify_cluster_health] is set in the configuration, only after the
    upgrade was started and its monitoring returned, and for the build
    the configuration names. *)
Theorem run_checks_health_only_on_request (h : heap) (c : Ceph.t)
  (co : collaborators) (kwargs : dict) (v : value) :
  In (ECheckHealth v) (snd (run h c co kwargs)) ->
  exists cfg,
    dict_get kwargs "config" = VDict cfg
    /\ truthy (dict_get cfg "verify_cluster_health") = true
    /\ v = dict_get cfg "rhbuild"
    /\ start_upgrade co = Ok tt
    /\ monitor_upgrade_status co = Ok tt.
Proof.
  intros Hin.
  pose proof (run_conditions h c co kwargs) as Hall.
  rewrite Forall_forall in Hall.
  exact (proj2 (Hall _ Hin) v eq_refl).
Qed.

(** The smooth scenario asks for the health check. *)
Lemma run_checks_health_only_on_request_witness :
  In (ECheckHealth (VStr "5.1"))
     (snd (run Scenario.upgrade_heap Scenario.upgrade_cluster Scenario.smooth
             Scenario.upgrade_kwargs))
  /\ exists cfg,
       dict_get Scenario.upgrade_kwargs "config" = VDict cfg
       /\ truthy (dict_get cfg "verify_cluster_health") = true
       /\ VStr "5.1" = dict_get cfg "rhbuild"
       /\ start_upgrade Scenario.smooth = Ok tt
       /\ monitor_upgrade_status Scenario.smooth = Ok tt.
Proof.
  assert (Hin : In (ECheckHealth (VStr "5.1"))
                   (snd (run Scenario.upgrade_heap Scenario.upgrade_cluster
                           Scenario.smooth Scenario.upgrade_kwargs))).
  { vm_compute. repeat first [left; reflexivity | right]. }
  split; [exact Hin |].
  exact (run_checks_health_only_on_request Scenario.upgrade_heap
           Scenario.upgrade_cluster Scenario.smooth Scenario.upgrade_kwargs
           (VStr "5.1") Hin).
Defined.

End UpgradeSteps.

(* ------------------------------------------------------------------ *)
(** ** Opening the firewall *)
(* ------------------------------------------------------------------ *)

Section FirewallFacts.

Import Firewall.

Lemma adds_skip (P : call -> Prop) : adds P skip.
Proof. intros tr. exists []. cbn. now rewrite app_nil_r. Qed.

Lemma adds_raise (P : call -> Prop) (e : exn) : adds P (fun tr => (Raise e, tr)).
Proof. intros tr. exists []. cbn. now rewrite app_nil_r. Qed.

Lemma adds_exec (hs : hosts) (P : call -> Prop) (n : Node.t) (c : string) :
  P (n, c) -> adds P (exec_command hs n c).
Proof. intros H tr. exists [(n, c)]. cbn. split; [reflexivity | now constructor]. Qed.

Lemma adds_andthen (P : call -> Prop) (m k : M) :
  adds P m -> adds P k -> adds P (andthen m k).
Proof.
  intros Hm Hk tr. unfold andthen.
  destruct (Hm tr) as (evs & Htr & Hall).
  destruct (m tr) as [[u | e] tr1]; cbn in Htr; subst tr1.
  - destruct (Hk (tr ++ evs)) as (evs' & Htr' & Hall').
    exists (evs ++ evs'). rewrite Htr', app_assoc. split; [reflexivity |].
    apply Forall_app. now split.
  - exists evs. now split.
Qed.

Lemma adds_on_pkg_type (hs : hosts) (P : call -> Prop) (n : Node.t) (rpm : M) :
  (pkg_type hs n = Some "rpm" -> adds P rpm) -> adds P (on_pkg_type hs n rpm).
Proof.
  intros H. unfold on_pkg_type.
  destruct (pkg_type hs n) as [t|]; [| apply adds_raise].
  destruct (String.eqb t "rpm") eqn:E; [| apply adds_skip].
  apply String.eqb_eq in E. subst t. now apply H.
Qed.

(** The commands [configure_firewall] can run on a node. *)
Lemma configure_firewall_adds (hs : hosts) (P : call -> Prop) (n : Node.t) :
  (pkg_type hs n = Some "rpm" ->
   forall c, In c ["rpm -qa | grep firewalld"; "yum install -y firewalld";
                   "systemctl enable firewalld"; "systemctl start firewalld";
                   "systemctl status firewalld"] -> P (n, c)) ->
  adds P (configure_firewall hs n).
Proof.
  intros H. unfold configure_firewall. apply adds_on_pkg_type. intros Hrpm.
  specialize (H Hrpm).
  repeat apply adds_andthen; try (apply adds_exec, H; simpl; tauto).
  intros tr. unfold exec_command.
  destruct (sh hs tr n "rpm -qa | grep firewalld") as [u | e].
  - exists [(n, "rpm -qa | grep firewalld")]. cbn. split; [reflexivity |].
    constructor; [apply H; simpl; tauto | constructor].
  - assert (Hq : exists evs,
               snd (Raise e : result unit, tr ++ [(n, "rpm -qa | grep firewalld")])
               = tr ++ evs /\ Forall P evs).
    { exists [(n, "rpm -qa | grep firewalld")]. cbn. split; [reflexivity |].
      constructor; [apply H; simpl; tauto | constructor]. }
    destruct e; try exact Hq.
    exists [(n, "rpm -qa | grep firewalld"); (n, "yum install -y firewalld")].
    cbn. rewrite <- app_assoc. split; [reflexivity |].
    repeat constructor; apply H; simpl; tauto.
Qed.

(** The commands [open_firewall_port] can run on a node. *)
Lemma open_firewall_port_adds (hs : hosts) (P : call -> Prop) (n : Node.t) (port : pyval)
  (protocol : string) :
  (pkg_type hs n = Some "rpm" ->
   P (n, open_command port protocol)
   /\ P (n, (open_command port protocol ++ " --permanent")%string)) ->
  adds P (open_firewall_port hs n port protocol).
Proof.
  intros H. unfold open_firewall_port. apply adds_on_pkg_type. intros Hrpm.
  destruct (H Hrpm) as [H1 H2]. cbv zeta.
  apply adds_andthen; now apply adds_exec.
Qed.

(** The commands [setup_ceph_firewall] can run: those of rpm nodes of
    the list for which some port was gathered. *)
Lemma setup_nodes_adds (hs : hosts) (P : call -> Prop) (h : heap) (nodes : list Node.t) :
  (forall node rc,
     In node nodes -> Node.role h node = Ok rc -> ports_for rc <> [] ->
     pkg_type hs node = Some "rpm" ->
     forall c,
       In c ["rpm -qa | grep firewalld"; "yum install -y firewalld";
             "systemctl enable firewalld"; "systemctl start firewalld";
             "systemctl status firewalld";
             open_command (PyList (ports_for rc)) "tcp";
             (open_command (PyList (ports_for rc)) "tcp" ++ " --permanent")%string] ->
       P (node, c)) ->
  adds P (setup_nodes h hs nodes).
Proof.
  induction nodes as [|node rest IH]; intros H; cbn [setup_nodes].
  - apply adds_skip.
  - destruct (Node.role h node) as [rc|e] eqn:Hrole; [| apply adds_raise].
    cbv zeta. apply adds_andthen.
    + destruct (ports_for rc) as [|p ps] eqn:Hports; [apply adds_skip |].
      rewrite <- Hports.
      assert (Hne : ports_for rc <> []) by (rewrite Hports; discriminate).
      apply adds_andthen.
      * apply configure_firewall_adds. intros Hrpm c Hc.
        apply (H node rc (or_introl eq_refl) Hrole Hne Hrpm). simpl in *. tauto.
      * apply open_firewall_port_adds. intros Hrpm.
        split; apply (H node rc (or_introl eq_refl) Hrole Hne Hrpm); simpl; tauto.
    + apply IH. intros node' rc' Hin. apply H. now right.
Qed.

(** Ports are gathered only for the six roles. *)
Lemma ports_for_roles (rc : RolesContainer.t) :
  ports_for rc <> [] ->
  exists r, In r FIREWALL_ROLES /\ RolesContainer.__eq__ rc (PyStr r) = true.
Proof.
  unfold ports_for, FIREWALL_ROLES. cbv zeta.
  destruct (RolesContainer.__eq__ rc (PyStr "mon")) eqn:E1;
    [intros _; exists "mon"; simpl; tauto |].
  destruct (RolesContainer.__eq__ rc (PyStr "osd")) eqn:E2;
    [intros _; exists "osd"; simpl; tauto |].
  destruct (RolesContainer.__eq__ rc (PyStr "mgr")) eqn:E3;
    [intros _; exists "mgr"; simpl; tauto |].
  destruct (RolesContainer.__eq__ rc (PyStr "mds")) eqn:E4;
    [intros _; exists "mds"; simpl; tauto |].
  destruct (RolesContainer.__eq__ rc (PyStr "iscsi-gw")) eqn:E5;
    [intros _; exists "iscsi-gw"; simpl; tauto |].
  destruct (RolesContainer.__eq__ rc (PyStr "grafana")) eqn:E6;
    [intros _; exists "grafana"; simpl; tauto |].
  intros H. now destruct H.
Qed.

(** The monitor port is among the ports gathered only for a monitor. *)
Lemma open_command_6789 (rc : RolesContainer.t) (c : string) :
  In c [open_command (PyList (ports_for rc)) "tcp";
        (open_command (PyList (ports_for rc)) "tcp" ++ " --permanent")%string] ->
  contains "--add-port=6789/tcp" c = true ->
  RolesContainer.__eq__ rc (PyStr "mon") = true.
Proof.
  unfold ports_for. cbv zeta.
  destruct (RolesContainer.__eq__ rc (PyStr "mon")); [reflexivity |].
  destruct (RolesContainer.__eq__ rc (PyStr "osd"));
  destruct (RolesContainer.__eq__ rc (PyStr "mgr"));
  destruct (RolesContainer.__eq__ rc (PyStr "mds"));
  destruct (RolesContainer.__eq__ rc (PyStr "iscsi-gw"));
  destruct (RolesContainer.__eq__ rc (PyStr "grafana"));
  intros [<- | [<- | []]]; vm_compute; intros H; exact H.
Qed.

(** X22: [setup_ceph_firewall] runs commands only on nodes of the
    cluster whose package type is rpm and which hold one of the roles
    mon, osd, mgr, mds, iscsi-gw and grafana: a node with other roles
    only (a client, an installer, a gateway) is left as it is. *)
Theorem setup_ceph_firewall_touches_only_demon_nodes (hs : hosts) (h : heap)
  (self : Ceph.t) (n : Node.t) (c : string) :
  In (n, c) (snd (setup_ceph_firewall h self hs [])) ->
  In n (Ceph.node_list self)
  /\ pkg_type hs n = Some "rpm"
  /\ exists rc r,
       Node.role h n = Ok rc /\ In r FIREWALL_ROLES
       /\ RolesContainer.__eq__ rc (PyStr r) = true.
Proof.
  unfold setup_ceph_firewall. cbn [Ceph.get_nodes Ceph.arg_truthy].
  intros Hin.
  destruct (setup_nodes_adds hs
              (fun ev => In (fst ev) (Ceph.node_list self)
                         /\ pkg_type hs (fst ev) = Some "rpm"
                         /\ exists rc r,
                              Node.role h (fst ev) = Ok rc /\ In r FIREWALL_ROLES
                              /\ RolesContainer.__eq__ rc (PyStr r) = true)
              h (Ceph.node_list self)) with (tr := @nil call) as (evs & Htr & Hall).
  { intros node rc Hnode Hrole Hports Hrpm c' _. cbn [fst].
    destruct (ports_for_roles rc Hports) as (r & Hr & Heq).
    split; [exact Hnode |]. split; [exact Hrpm |]. now exists rc, r. }
  rewrite Htr in Hin. cbn [app] in Hin.
  rewrite Forall_forall in Hall. exact (Hall _ Hin).
Qed.

(** In the cluster of three monitors and a client, firewalld is started
    on the first monitor. *)
Lemma setup_ceph_firewall_touches_only_demon_nodes_witness :
  In (Scenario.health_node "mon1" 0%nat, "systemctl start firewalld")
     (snd (setup_ceph_firewall Scenario.health_heap Scenario.health_cluster
             Cases.rpm_hosts []))
  /\ In (Scenario.health_node "mon1" 0%nat) (Ceph.node_list Scenario.health_cluster)
  /\ pkg_type Cases.rpm_hosts (Scenario.health_node "mon1" 0%nat) = Some "rpm"
  /\ exists rc r,
       Node.role Scenario.health_heap (Scenario.health_node "mon1" 0%nat) = Ok rc
       /\ In r FIREWALL_ROLES
       /\ RolesContainer.__eq__ rc (PyStr r) = true.
Proof.
  assert (Hin : In (Scenario.health_node "mon1" 0%nat, "systemctl start firewalld")
                   (snd (setup_ceph_firewall Scenario.health_heap
                           Scenario.health_cluster Cases.rpm_hosts []))).
  { vm_compute. repeat first [left; reflexivity | right]. }
  split; [exact Hin |].
  exact (setup_ceph_firewall_touches_only_demon_nodes Cases.rpm_hosts
           Scenario.health_heap Scenario.health_cluster
           (Scenario.health_node "mon1" 0%nat) "systemctl start firewalld" Hin).
Defined.

(** X23: the monitor port 6789 is opened on monitor nodes only: a
    command of [setup_ceph_firewall] that adds port 6789 runs on a node
    that holds the role mon. *)
Theorem setup_ceph_firewall_opens_6789_on_monitors_only (hs : hosts) (h : heap)
  (self : Ceph.t) (n : Node.t) (c : string) :
  In (n, c) (snd (setup_ceph_firewall h self hs [])) ->
  contains "--add-port=6789/tcp" c = true ->
  exists rc,
    Node.role h n = Ok rc /\ RolesContainer.__eq__ rc (PyStr "mon") = true.
Proof.
  unfold setup_ceph_firewall. cbn [Ceph.get_nodes Ceph.arg_truthy].
  intros Hin.
  destruct (setup_nodes_adds hs
              (fun ev => contains "--add-port=6789/tcp" (snd ev) = true ->
                         exists rc,
                           Node.role h (fst ev) = Ok rc
                           /\ RolesContainer.__eq__ rc (PyStr "mon") = true)
              h (Ceph.node_list self)) with (tr := @nil call) as (evs & Htr & Hall).
  { intros node rc _ Hrole _ _ c' Hc'. cbn [fst snd]. intros Hport.
    exists rc. split; [exact Hrole |].
    apply (open_command_6789 rc c'); [| exact Hport].
    simpl in Hc'.
    destruct Hc' as [<- | [<- | [<- | [<- | [<- | Hc']]]]];
      try (vm_compute in Hport; discriminate Hport).
    exact Hc'. }
  rewrite Htr in Hin. cbn [app] in Hin.
  rewrite Forall_forall in Hall. exact (Hall _ Hin).
Qed.

(** On the first monitor of the cluster of three monitors and a client,
    port 6789 is opened. *)
Lemma setup_ceph_firewall_opens_6789_on_monitors_only_witness :
  In (Scenario.health_node "mon1" 0%nat,
      "firewall-cmd --zone=public --add-port=6789/tcp --add-port=6800-6820/tcp")
     (snd (setup_ceph_firewall Scenario.health_heap Scenario.health_cluster
             Cases.rpm_hosts []))
  /\ contains "--add-port=6789/tcp"
       "firewall-cmd --zone=public --add-port=6789/tcp --add-port=6800-6820/tcp"
     = true
  /\ exists rc,
       Node.role Scenario.health_heap (Scenario.health_node "mon1" 0%nat) = Ok rc
       /\ RolesContainer.__eq__ rc (PyStr "mon") = true.
Proof.
  assert (Hin : In (Scenario.health_node "mon1" 0%nat,
                    "firewall-cmd --zone=public --add-port=6789/tcp --add-port=6800-6820/tcp")
                   (snd (setup_ceph_firewall Scenario.health_heap
                           Scenario.health_cluster Cases.rpm_hosts []))).
  { vm_compute. repeat first [left; reflexivity | right]. }
  split; [exact Hin |]. split; [reflexivity |].
  exact (setup_ceph_firewall_opens_6789_on_monitors_only Cases.rpm_hosts
           Scenario.health_heap Scenario.health_cluster
           (Scenario.health_node "mon1" 0%nat)
           "firewall-cmd --zone=public --add-port=6789/tcp --add-port=6800-6820/tcp"
           Hin eq_refl).
Defined.

(** X24: [configure_firewall] installs firewalld only when the query
    for the package raised CommandFailed; a query that returns, or that
    raises anything else, is never followed by an installation. *)
Theorem configure_firewall_installs_only_when_missing (hs : hosts) (n : Node.t)
  (tr : list call) :
  ~ In (n, "yum install -y firewalld") tr ->
  In (n, "yum install -y firewalld") (snd (configure_firewall hs n tr)) ->
  pkg_type hs n = Some "rpm"
  /\ exists msg, sh hs tr n "rpm -qa | grep firewalld" = Raise (CommandFailed msg).
Proof.
  intros Hnot. unfold configure_firewall, on_pkg_type.
  destruct (pkg_type hs n) as [t|]; [| intros H; now destruct (Hnot H)].
  destruct (String.eqb t "rpm") eqn:E; [| intros H; now destruct (Hnot H)].
  apply String.eqb_eq in E. subst t. split; [reflexivity |].
  revert H. unfold andthen, exec_command.
  destruct (sh hs tr n "rpm -qa | grep firewalld") as [u | e].
  - intros H. exfalso.
    repeat match type of H with
           | context [match ?r with Ok _ => _ | Raise _ => _ end] => destruct r
           end; cbn [snd] in H;
      repeat (apply in_app_or in H; destruct H as [H | H]);
      try (now apply Hnot);
      destruct H as [H | []]; discriminate H.
  - destruct e; try (now eexists);
      intros H; exfalso; cbn [snd] in H;
      repeat (apply in_app_or in H; destruct H as [H | H]);
      try (now apply Hnot);
      destruct H as [H | []]; discriminate H.
Qed.

(** On a host without firewalld the package is installed. *)
Lemma configure_firewall_installs_only_when_missing_witness :
  ~ In (Scenario.health_node "mon1" 0%nat, "yum install -y firewalld") []
  /\ In (Scenario.health_node "mon1" 0%nat, "yum install -y firewalld")
        (snd (configure_firewall Cases.bare_hosts (Scenario.health_node "mon1" 0%nat) []))
  /\ pkg_type Cases.bare_hosts (Scenario.health_node "mon1" 0%nat) = Some "rpm"
  /\ exists msg,
       sh Cases.bare_hosts [] (Scenario.health_node "mon1" 0%nat)
          "rpm -qa | grep firewalld" = Raise (CommandFailed msg).
Proof.
  assert (Hnot : ~ In (Scenario.health_node "mon1" 0%nat, "yum install -y firewalld")
                      (@nil call)) by (simpl; tauto).
  assert (Hin : In (Scenario.health_node "mon1" 0%nat, "yum install -y firewalld")
                   (snd (configure_firewall Cases.bare_hosts
                           (Scenario.health_node "mon1" 0%nat) []))).
  { vm_compute. repeat first [left; reflexivity | right]. }
  split; [exact Hnot |]. split; [exact Hin |].
  exact (configure_firewall_installs_only_when_missing Cases.bare_hosts
           (Scenario.health_node "mon1" 0%nat) [] Hnot Hin).
Defined.

End FirewallFacts.
